(** * Path to Power server: item catalog, shop engine, chat gate, session gate

    A shallow embedding of the server's economic core:
    - [ItemManager] (item/manager.js): templates, instancing, ground items;
    - [Shop] (shop/object.js): [buyItem], [sellItem], [addToInventory],
      [resupply];
    - [Commands] (command/commands.js): the chat cooldown gate;
    - [UserManager] (user/manager.js): [authenticate], as one uninterrupted
      call and as the turns of the event loop between its [await]s.

    JavaScript objects are records, arrays are lists, objects used as
    dictionaries are [gmap]s.  Mutation is explicit state passing over one
    [Game.t] record; every call into the socket manager, the logger or the
    storage layer is appended to [Game.trace] in program order.  Numbers are
    integers ([Z]); a slot that the source reads while it may be absent is a
    [JS.num], which adds [NaN] and [undefined] with JavaScript's comparison
    and truthiness rules. *)

From Stdlib Require Import ZArith Lia Ascii String.
From stdpp Require Import base option list gmap strings pretty.

Local Open Scope Z_scope.

(** ** JavaScript number slots *)

Module JS.

Inductive num : Type :=
| Num (z : Z)
| NaN
| Undefined.

#[global] Instance num_eq_dec : EqDecision num.
Proof. solve_decision. Defined.

(** [a + b] *)
Definition add (a b : num) : num :=
  match a, b with
  | Num x, Num y => Num (x + y)
  | _, _ => NaN
  end.

(** [a - b] *)
Definition sub (a b : num) : num :=
  match a, b with
  | Num x, Num y => Num (x - y)
  | _, _ => NaN
  end.

(** [a < b]: false as soon as one side is not a number. *)
Definition lt (a b : num) : bool :=
  match a, b with
  | Num x, Num y => x <? y
  | _, _ => false
  end.

(** [a <= b] *)
Definition le (a b : num) : bool :=
  match a, b with
  | Num x, Num y => x <=? y
  | _, _ => false
  end.

(** [a === b]: [NaN] equals nothing, [undefined] equals itself. *)
Definition strict_eq (a b : num) : bool :=
  match a, b with
  | Num x, Num y => x =? y
  | Undefined, Undefined => true
  | _, _ => false
  end.

(** Truthiness: [0], [NaN] and [undefined] are falsy. *)
Definition truthy (a : num) : bool :=
  match a with
  | Num z => negb (z =? 0)
  | _ => false
  end.

(** [a || b] *)
Definition or_else (a b : num) : num := if truthy a then a else b.

(** [array[i]] for a numeric index: [undefined] outside the array. *)
Definition nth {A} (l : list A) (i : Z) : option A :=
  if i <? 0 then None else l !! Z.to_nat i.

(** [array.splice(i, 1)] for an index inside the array. *)
Definition splice1 {A} (l : list A) (i : nat) : list A := delete i l.

(** [str.toLowerCase()] on ASCII text. *)
Definition lower_ascii (c : ascii) : ascii :=
  let n := nat_of_ascii c in
  if (Nat.leb 65 n && Nat.leb n 90)%bool then ascii_of_nat (n + 32) else c.

Fixpoint toLowerCase (s : string) : string :=
  match s with
  | EmptyString => EmptyString
  | String c r => String (lower_ascii c) (toLowerCase r)
  end.

(** [str.indexOf(sub)]: position of the first occurrence, [None] for -1. *)
Definition indexOf (s sub : string) : option nat := String.index 0 sub s.

(** [array.join(' ')] *)
Fixpoint join (l : list string) : string :=
  match l with
  | [] => EmptyString
  | [s] => s
  | s :: r => s +:+ " " +:+ join r
  end.

Definition is_space (c : ascii) : bool :=
  let n := nat_of_ascii c in
  (Nat.eqb n 32 || (Nat.leb 9 n && Nat.leb n 13))%bool.

Fixpoint trimStart (s : string) : string :=
  match s with
  | EmptyString => EmptyString
  | String c r => if is_space c then trimStart r else s
  end.

Fixpoint trimEnd (s : string) : string :=
  match s with
  | EmptyString => EmptyString
  | String c r =>
      match trimEnd r with
      | EmptyString => if is_space c then EmptyString else String c EmptyString
      | r' => String c r'
      end
  end.

(** [str.trim()] *)
Definition trim (s : string) : string := trimEnd (trimStart s).

End JS.

(** ** Items (item/object.js is a collaborator: fields as the sources use them) *)

Module Stats.
Record t : Type := mk {
  price : Z;
  stackable : bool;
  durability : JS.num;
}.
Definition set_durability (d : JS.num) (s : t) : t :=
  mk (price s) (stackable s) d.
End Stats.

Module Item.
Record t : Type := mk {
  id : string;
  name : string;
  type : string;
  subtype : string;
  stats : Stats.t;
  fingerprint : nat;          (* uuid, drawn fresh per instance *)
  _id : option string;        (* database key, [null] when not stored *)
  inventorySlot : option Z;
  shopQuantity : JS.num;      (* set by the shop: -1 is unlimited *)
  expRequired : JS.num;
  remove : bool;              (* set by [destroy] *)
}.

Definition set_stats (s : Stats.t) (i : t) : t :=
  mk (id i) (name i) (type i) (subtype i) s (fingerprint i) (_id i)
     (inventorySlot i) (shopQuantity i) (expRequired i) (remove i).
Definition set_db_id (k : option string) (i : t) : t :=
  mk (id i) (name i) (type i) (subtype i) (stats i) (fingerprint i) k
     (inventorySlot i) (shopQuantity i) (expRequired i) (remove i).
Definition set_inventorySlot (k : option Z) (i : t) : t :=
  mk (id i) (name i) (type i) (subtype i) (stats i) (fingerprint i) (_id i)
     k (shopQuantity i) (expRequired i) (remove i).
Definition set_shopQuantity (q : JS.num) (i : t) : t :=
  mk (id i) (name i) (type i) (subtype i) (stats i) (fingerprint i) (_id i)
     (inventorySlot i) q (expRequired i) (remove i).
Definition set_remove (b : bool) (i : t) : t :=
  mk (id i) (name i) (type i) (subtype i) (stats i) (fingerprint i) (_id i)
     (inventorySlot i) (shopQuantity i) (expRequired i) b.
Definition set_durability (d : JS.num) (i : t) : t :=
  set_stats (Stats.set_durability d (stats i)) i.

(** Modelled from the spec: the [Item] constructor (item/object.js is not
    among the sources) "deep-copies the template's mutable stats, applies
    modifiers as field overrides, assigns a fresh fingerprint".  The only
    modifier the sources pass is [{durability: n}]. *)
Definition construct (itemData : t) (durability_modifier : option JS.num) (fp : nat) : t :=
  let st := match durability_modifier with
            | Some d => Stats.set_durability d (stats itemData)
            | None => stats itemData
            end in
  mk (id itemData) (name itemData) (type itemData) (subtype itemData) st fp
     None None JS.Undefined JS.Undefined false.

(** Modelled from the spec: [item.removeDurability(n)] lowers the quantity
    a stackable instance carries in [stats.durability]. *)
Definition removeDurability (n : Z) (i : t) : t :=
  set_durability (JS.sub (Stats.durability (stats i)) (JS.Num n)) i.

(** Modelled from the spec: [item.addDurability(n)]. *)
Definition addDurability (n : JS.num) (i : t) : t :=
  set_durability (JS.add (Stats.durability (stats i)) n) i.

(** Modelled from the spec: [item.destroy()] marks the instance for removal
    from its container. *)
Definition destroy (i : t) : t := set_remove true i.
End Item.

(** ** Characters (collaborator contract of the spec, section 6) *)

Module Location.
Record t : Type := mk { map : string; x : Z; y : Z }.
End Location.

(** The grid and room key [`${map_id}_${y}_${x}`]. *)
Definition gridId (map_id : string) (x y : Z) : string :=
  map_id +:+ "_" +:+ pretty y +:+ "_" +:+ pretty x.

Module Character.
Record t : Type := mk {
  user_id : string;
  name : string;
  exp : Z;                    (* stats.exp *)
  money : Z;                  (* stats.money *)
  inventory : list Item.t;
  location : Location.t;
}.

Definition set_inventory (inv : list Item.t) (c : t) : t :=
  mk (user_id c) (name c) (exp c) (money c) inv (location c).

(** Modelled from the spec: [updateCash(delta)] moves cash by [delta]. *)
Definition updateCash (delta : Z) (c : t) : t :=
  mk (user_id c) (name c) (exp c) (money c + delta) (inventory c) (location c).

(** Modelled from the spec: [updateExp(delta)]. *)
Definition updateExp (delta : Z) (c : t) : t :=
  mk (user_id c) (name c) (exp c + delta) (money c) (inventory c) (location c).

(** Modelled from the spec: [giveItem(instance, slotHint)] puts the instance
    into the character's inventory. *)
Definition giveItem (itemObj : Item.t) (slot : Z) (c : t) : t :=
  set_inventory (inventory c ++ [Item.set_inventorySlot (Some slot) itemObj]) c.

(** Modelled from the spec: [getLocationId()] is the location key. *)
Definition getLocationId (c : t) : string :=
  gridId (Location.map (location c)) (Location.x (location c)) (Location.y (location c)).
End Character.

(** ** Redux actions sent to clients *)

Module Listing.
Record t : Type := mk {
  id : string;
  name : string;
  quantity : JS.num;
  expRequired : JS.num;
  price : Z;
}.
End Listing.

Module Chat.
Record t : Type := mk {
  type : string;
  user_id : string;
  name : string;
  message : string;
}.
End Chat.

Inductive Action : Type :=
| GAME_EVENT (type message : string) (ignore : list string)
| SHOP_UPDATE (shopId : string) (inventory : list Listing.t)
| CHAT_MESSAGE (payload : Chat.t)
| USER_AUTHENTICATE_ERROR (payload : string)
| USER_AUTHENTICATE_SUCCESS (maps : list string)
| CHARACTER_REMOTE_LOGOUT.

(** actions.js: [newEvent(type, message, ignore = [])]. *)
Definition newEvent (type message : string) (ignore : list string) : Action :=
  GAME_EVENT type message ignore.

Module Socket.
(** [user] is [None] until the socket is tagged; the tag carries a [user_id]
    that is [undefined] ([None]) when the lookup that produced it failed. *)
Record t : Type := mk {
  sid : nat;
  user : option (option string);
}.
End Socket.

(** What the core asks of its collaborators, in program order. *)
Inductive Effect : Type :=
| DispatchToSocket (socket : nat) (a : Action)
| DispatchToUser (user_id : string) (a : Action)
| DispatchToRoom (room : string) (a : Action)
| DispatchToServer (a : Action)
| UpdateClient (user_id : string)
| CooldownAdd (user_id key : string) (ticks : Z)
| LoggerError
| OnError (socket : nat)        (* Game.onError(err, socket) *)
| OnErrorDetached               (* Game.onError(err) *)
| DbFind (key : string)         (* ItemModel.findOneAsync({_id}) *)
| DbRemove (key : string)       (* dbItem.remove() *)
| Throw.

(** ** The game object *)

Module Game.
Record t : Type := mk {
  templates : gmap string Item.t;               (* itemManager.templates *)
  dropped_items : gmap string (list Item.t);    (* itemManager.dropped_items *)
  characters : gmap string Character.t;         (* characterManager, by user id *)
  cooldowns : gmap (string * string) Z;         (* cooldownManager, by (user id, key) *)
  clients : list Socket.t;                      (* socketManager's active clients *)
  uuids : nat;                                  (* fingerprints drawn so far *)
  rolls : nat;                                  (* dice rolled so far *)
  trace : list Effect;
}.

Definition set_dropped_items (d : gmap string (list Item.t)) (G : t) : t :=
  mk (templates G) d (characters G) (cooldowns G) (clients G) (uuids G) (rolls G) (trace G).
Definition set_characters (c : gmap string Character.t) (G : t) : t :=
  mk (templates G) (dropped_items G) c (cooldowns G) (clients G) (uuids G) (rolls G) (trace G).
Definition set_cooldowns (c : gmap (string * string) Z) (G : t) : t :=
  mk (templates G) (dropped_items G) (characters G) c (clients G) (uuids G) (rolls G) (trace G).
Definition set_clients (c : list Socket.t) (G : t) : t :=
  mk (templates G) (dropped_items G) (characters G) (cooldowns G) c (uuids G) (rolls G) (trace G).
Definition set_uuids (n : nat) (G : t) : t :=
  mk (templates G) (dropped_items G) (characters G) (cooldowns G) (clients G) n (rolls G) (trace G).
Definition set_rolls (n : nat) (G : t) : t :=
  mk (templates G) (dropped_items G) (characters G) (cooldowns G) (clients G) (uuids G) n (trace G).
Definition emit (e : Effect) (G : t) : t :=
  mk (templates G) (dropped_items G) (characters G) (cooldowns G) (clients G) (uuids G) (rolls G)
     (trace G ++ [e]).

(** A character object is shared with the character manager: a write to
    the one [get(key)] resolved to is a write to the manager's entry. *)
Definition put_character (key : string) (c : Character.t) (G : t) : t :=
  set_characters (<[key := c]> (characters G)) G.

(** game/index.js: [eventToUser] and [eventToSocket] (debug logging left out). *)
Definition eventToUser (user_id type message : string) (G : t) : t :=
  emit (DispatchToUser user_id (newEvent type message [])) G.

Definition eventToSocket (socket : Socket.t) (type message : string) (G : t) : t :=
  emit (DispatchToSocket (Socket.sid socket) (newEvent type message [])) G.
End Game.

(** Collaborators whose code is outside the sources, taken as parameters. *)
Module Env.
Record t : Type := mk {
  hasRoomForItem : Character.t → Item.t → bool;   (* character.hasRoomForItem *)
  dice : nat → Z → Z → Z;                         (* helper dice(min, max), by roll number *)
  cooldownDefault : string → Z;                   (* configured ticks per action key *)
  jwtVerify : string → option (string * string);  (* token -> (_id, session_token) *)
  findOneAsync : string → string → option (option string);
                                                  (* user lookup: throws / null / _id *)
  mapList : list string;                          (* mapManager.getList() *)
}.
End Env.

(** ** Item manager (item/manager.js) *)

Module ItemManager.

Definition getTemplate (G : Game.t) (item_id : string) : option Item.t :=
  Game.templates G !! JS.toLowerCase item_id.

(** The instance [add] builds from a template: [new Item(Game, itemData,
    modifiers)] with [_id = dbId]; the fingerprint is the next unused one. *)
Definition instantiate (G : Game.t) (template : Item.t) (modifiers : option JS.num)
    (dbId : option string) : Item.t :=
  let NewItem := Item.construct template modifiers (Game.uuids G) in
  Item.set_db_id dbId NewItem.

(** [add(itemId, modifiers = {}, dbId = null)]: [null] for an unknown id. *)
Definition add (G : Game.t) (itemId : string) (modifiers : option JS.num)
    (dbId : option string) : option Item.t * Game.t :=
  match getTemplate G itemId with
  | None => (None, G)
  | Some template =>
      (Some (instantiate G template modifiers dbId), Game.set_uuids (S (Game.uuids G)) G)
  end.

(** [getLocationList(map_id, x, y)] with [toClient = false]. *)
Definition getLocationList (G : Game.t) (map_id : string) (x y : Z) : list Item.t :=
  default [] (Game.dropped_items G !! gridId map_id x y).

(** The array [getLocationList] returned is the stored one, so a splice or a
    field update on it is a write to [dropped_items]. *)
Definition setLocationList (G : Game.t) (map_id : string) (x y : Z)
    (l : list Item.t) : Game.t :=
  Game.set_dropped_items (<[gridId map_id x y := l]> (Game.dropped_items G)) G.

(** What [pickup] returns: an error string, or the item ([null] when the
    partial stack could not be instantiated). *)
Inductive Picked : Type :=
| Message (s : string)
| Object (i : option Item.t).

Definition exactName (itemName : string) (obj : Item.t) : Prop :=
  JS.toLowerCase (Item.name obj) = itemName.

Definition containsName (itemName : string) (obj : Item.t) : Prop :=
  JS.indexOf (JS.toLowerCase (Item.name obj)) itemName ≠ None.

#[global] Instance exactName_dec s o : Decision (exactName s o).
Proof. unfold exactName. apply _. Defined.
#[global] Instance containsName_dec s o : Decision (containsName s o).
Proof. unfold containsName. apply _. Defined.

(** The two [findIndex] passes of [pickup]. *)
Definition findByName (locationItems : list Item.t) (itemName : string)
    : option (nat * Item.t) :=
  let itemName := JS.toLowerCase itemName in
  match list_find (exactName itemName) locationItems with
  | Some r => Some r
  | None => list_find (containsName itemName) locationItems
  end.

Definition pickup (G : Game.t) (map_id : string) (x y : Z)
    (itemName : option string) (amount : JS.num) : Picked * Game.t :=
  let locationItems := getLocationList G map_id x y in
  match locationItems with
  | [] => (Message "No items at the location", G)
  | first :: _ =>
      let found :=
        match itemName with
        | Some (String c r as itemName) => findByName locationItems itemName
        | _ => Some (0%nat, first)
        end in
      match found with
      | None => (Message "Item not found", G)
      | Some (foundItemIndex, foundItem) =>
          if negb (Stats.stackable (Item.stats foundItem)) then
            (Object (Some foundItem),
             setLocationList G map_id x y (JS.splice1 locationItems foundItemIndex))
          else if JS.le (Stats.durability (Item.stats foundItem)) amount then
            (Object (Some foundItem),
             setLocationList G map_id x y (JS.splice1 locationItems foundItemIndex))
          else
            let left := JS.sub (Stats.durability (Item.stats foundItem)) amount in
            let G1 := setLocationList G map_id x y
                        (<[foundItemIndex := Item.set_durability left foundItem]> locationItems) in
            let '(newItem, G2) := add G1 (Item.id foundItem) (Some amount) None in
            (Object newItem, G2)
      end
  end.

(** [forEach] with [splice] inside: after a removal at index [i] the next
    element slides into [i] and the iteration moves on to [i + 1], so the
    element that follows a removed one is not examined. *)
Fixpoint spliceFlagged (inventory : list Item.t) : list Item.t :=
  match inventory with
  | [] => []
  | obj :: rest =>
      if Item.remove obj then
        match rest with
        | [] => []
        | next :: rest' => next :: spliceFlagged rest'
        end
      else obj :: spliceFlagged rest
  end.

(** What [ItemModel.findOneAsync] comes back with: a stored record,
    [null], or a rejection. *)
Inductive DbAnswer : Type :=
| Document
| NoDocument
| Rejected.

(** [remove(character, item)], where [item] is the inventory entry at
    [index], up to its [await]: the item is flagged, the flagged entries
    are spliced out, and for an item with a database key [dbLoad] puts the
    query for its record to the storage layer ([DbFind]).  The call is
    suspended there; nothing is deleted from storage yet. *)
Definition remove (G : Game.t) (character : Character.t) (index : nat)
    : Character.t * Game.t :=
  match Character.inventory character !! index with
  | None => (character, G)
  | Some item =>
      let inv := <[index := Item.destroy item]> (Character.inventory character) in
      let character' := Character.set_inventory (spliceFlagged inv) character in
      match Item._id item with
      | Some key => (character', Game.emit (DbFind key) G)
      | None => (character', G)
      end
  end.

(** The rest of [remove], run when the query for [key] has settled, with
    the game as it is by then: [dbItem.remove()] on the record found; on
    [null] [dbLoad] throws 'Item not found', and that or the rejection of
    the query goes to [Game.onError(err)] (no socket). *)
Definition removeSettled (key : string) (answer : DbAnswer) (G : Game.t) : Game.t :=
  match answer with
  | Document => Game.emit (DbRemove key) G
  | NoDocument | Rejected => Game.emit OnErrorDetached G
  end.

(** [drop(map_id, x, y, itemObject)]: the list of items at the location
    afterwards, and the game.  The database key of the dropped object is
    cleared; a stackable object is merged into the first entry with its id,
    anything else is pushed (debug logging left out). *)
Definition drop (G : Game.t) (map_id : string) (x y : Z) (itemObject : Item.t)
    : list Item.t * Game.t :=
  let l := getLocationList G map_id x y in
  let itemObject := Item.set_db_id None itemObject in
  let l' :=
    if Stats.stackable (Item.stats itemObject) then
      match list_find (λ item, Item.id item = Item.id itemObject) l with
      | Some (itemIndex, found) =>
          <[itemIndex := Item.addDurability (Stats.durability (Item.stats itemObject)) found]> l
      | None => l ++ [itemObject]
      end
    else l ++ [Item.set_inventorySlot None itemObject] in
  (l', setLocationList G map_id x y l').

Definition beginsWithName (itemName : string) (t : Item.t) : Prop :=
  JS.indexOf (JS.toLowerCase (Item.name t)) itemName = Some 0%nat.

#[global] Instance beginsWithName_dec s t : Decision (beginsWithName s t).
Proof. unfold beginsWithName. apply _. Defined.

(** [getTemplateByName(itemName)].  [keys] is the order in which
    [for (let itemId in this.templates)] visits the template ids. *)
Definition getTemplateByName (G : Game.t) (keys : list string) (itemName : string)
    : option Item.t :=
  let itemName := JS.toLowerCase itemName in
  let visited := omap (λ itemId, Game.templates G !! itemId) keys in
  match list_find (exactName itemName) visited with
  | Some (_, t) => Some t
  | None =>
      match list_find (beginsWithName itemName) visited with
      | Some (_, t) => Some t
      | None => None
      end
  end.

End ItemManager.

(** ** Shops (shop/object.js) *)

Module Sell.
Record t : Type := mk {
  enabled : bool;
  priceMultiplier : Z;
  list : list Item.t;
}.
End Sell.

Module Buy.
Record t : Type := mk {
  enabled : bool;
  priceMultiplier : Z;
  list : list string;
  ignoreType : Datatypes.list string;
  ignoreSubtype : Datatypes.list string;
  resell : bool;
}.
End Buy.

Module SupplyItem.
Record t : Type := mk {
  id : string;
  quantity : Z * Z;
}.
End SupplyItem.

Module Supply.
Record t : Type := mk {
  items : list SupplyItem.t;
  numberOfItems : Z * Z;
  uniqueItems : bool;
}.
End Supply.

Module Shop.
Record t : Type := mk {
  id : string;
  sell : Sell.t;
  buy : Buy.t;
  supply : option Supply.t;
}.

Definition set_list (l : list Item.t) (shop : t) : t :=
  mk (id shop)
     (Sell.mk (Sell.enabled (sell shop)) (Sell.priceMultiplier (sell shop)) l)
     (buy shop) (supply shop).

(** One row of [getSellList(true)]; reading [itemTemplate.stats.price] of a
    missing template throws. *)
Definition toListing (G : Game.t) (item : Item.t) : option Listing.t :=
  itemTemplate ← ItemManager.getTemplate G (Item.id item);
  Some (Listing.mk (Item.id item) (Item.name item) (Item.shopQuantity item)
          (Item.expRequired item) (Stats.price (Item.stats itemTemplate))).

(** [getSellList(true)]; [None] when it throws. *)
Definition getSellList (G : Game.t) (shop : t) : option (list Listing.t) :=
  if negb (Sell.enabled (sell shop)) then Some []
  else mapM (toListing G) (Sell.list (sell shop)).

Definition shopUpdate (shop : t) (inventory : list Listing.t) : Action :=
  SHOP_UPDATE (id shop) inventory.

(** [amount || d], the argument [amount] being [null] when omitted. *)
Definition amountOr (amount : option Z) (d : JS.num) : JS.num :=
  match amount with
  | Some a => JS.or_else (JS.Num a) d
  | None => d
  end.

Definition sameId (itemObj obj : Item.t) : Prop := Item.id obj = Item.id itemObj.

Definition sameIdUnlimited (itemObj obj : Item.t) : Prop :=
  Item.id obj = Item.id itemObj ∧ JS.strict_eq (Item.shopQuantity obj) (JS.Num (-1)) = true.

Definition sameIdAndDurability (itemObj obj : Item.t) : Prop :=
  Item.id obj = Item.id itemObj
  ∧ JS.strict_eq (Stats.durability (Item.stats obj)) (Stats.durability (Item.stats itemObj)) = true.

#[global] Instance sameId_dec i o : Decision (sameId i o).
Proof. unfold sameId. apply _. Defined.
#[global] Instance sameIdUnlimited_dec i o : Decision (sameIdUnlimited i o).
Proof. unfold sameIdUnlimited. apply _. Defined.
#[global] Instance sameIdAndDurability_dec i o : Decision (sameIdAndDurability i o).
Proof. unfold sameIdAndDurability. apply _. Defined.

(** [inventoryItem.shopQuantity = inventoryItem.shopQuantity + n] on the
    entry at [i]. *)
Definition bump (i : nat) (inventoryItem : Item.t) (n : JS.num) (l : list Item.t)
    : list Item.t :=
  <[i := Item.set_shopQuantity (JS.add (Item.shopQuantity inventoryItem) n) inventoryItem]> l.

(** [addToInventory(itemObj, amount = null)] on the sell list. *)
Definition addToInventoryList (l : list Item.t) (itemObj : Item.t) (amount : option Z)
    : list Item.t :=
  if Stats.stackable (Item.stats itemObj) then
    let amount := amountOr amount (Stats.durability (Item.stats itemObj)) in
    match list_find (sameId itemObj) l with
    | Some (i, inventoryItem) => bump i inventoryItem amount l
    | None => l ++ [Item.set_shopQuantity amount itemObj]
    end
  else
    match list_find (sameIdUnlimited itemObj) l with
    | Some _ => l
    | None =>
        match list_find (sameIdAndDurability itemObj) l with
        | Some (i, inventoryItem) => bump i inventoryItem (JS.Num 1) l
        | None => l ++ [Item.set_shopQuantity (amountOr amount (JS.Num 1)) itemObj]
        end
    end.

Definition addToInventory (shop : t) (itemObj : Item.t) (amount : option Z) : t :=
  set_list (addToInventoryList (Sell.list (sell shop)) itemObj amount) shop.

(** The tail of [buyItem], from the debit on.  [item] is the entry at
    [itemIndex]; writes to it are writes to the sell list. *)
Definition buyCommit (shop : t) (G : Game.t) (key : string) (character : Character.t)
    (itemIndex : nat) (item itemTemplate itemToAdd : Item.t) (price : Z) : t * Game.t :=
  let character := Character.updateCash (price * -1) character in
  let item :=
    if negb (JS.strict_eq (Item.shopQuantity item) (JS.Num (-1)))
    then Item.set_shopQuantity (JS.sub (Item.shopQuantity item) (JS.Num 1)) item
    else item in
  let shop := set_list (<[itemIndex := item]> (Sell.list (sell shop))) shop in
  let character := Character.giveItem itemToAdd 1 character in
  let G := Game.put_character key character G in
  let G := Game.emit (UpdateClient (Character.user_id character)) G in
  let G := Game.eventToUser (Character.user_id character) "success"
             ("You have purchased 1x " +:+ Item.name itemTemplate +:+ " for " +:+ pretty price) G in
  let broadcast :=
    if negb (JS.strict_eq (Item.shopQuantity item) (JS.Num (-1))) then
      match getSellList G shop with
      | Some inventory =>
          Some (Game.emit (DispatchToRoom (Character.getLocationId character)
                             (shopUpdate shop inventory)) G)
      | None => None
      end
    else Some G in
  match broadcast with
  | None => (shop, Game.emit LoggerError G)
  | Some G =>
      if JS.le (Item.shopQuantity item) (JS.Num 0)
      then (set_list (JS.splice1 (Sell.list (sell shop)) itemIndex) shop, G)
      else (shop, G)
  end.

(** [buyItem(user_id, index, itemId)].  A rejected character lookup and any
    exception end in [logger.error]. *)
Definition buyItem (E : Env.t) (shop : t) (G : Game.t) (user_id : string) (index : Z)
    (itemId : string) : t * Game.t :=
  match Game.characters G !! user_id with
  | None => (shop, Game.emit LoggerError G)
  | Some character =>
      if negb (Sell.enabled (sell shop)) then
        (shop, Game.eventToUser user_id "error" "They are not selling anything." G)
      else
        match JS.nth (Sell.list (sell shop)) index with
        | None =>
            (shop, Game.eventToUser user_id "error"
                     "They do not appear to have that item anymore" G)
        | Some item =>
            if negb (String.eqb (Item.id item) itemId) then
              (shop, Game.eventToUser user_id "error"
                       "The item you where after is no longer available." G)
            else if JS.lt (JS.Num (Character.exp character)) (Item.expRequired item) then
              (shop, Game.eventToUser user_id "error"
                       "You do not have a heigh enough rank to purchase this item." G)
            else
              match ItemManager.getTemplate G (Item.id item) with
              | None =>
                  (shop, Game.eventToUser user_id "error"
                           "Invalid item. The item might no longer be available." G)
              | Some itemTemplate =>
                  let price := Stats.price (Item.stats itemTemplate)
                               * Sell.priceMultiplier (sell shop) in
                  if Character.money character <? price then
                    (shop, Game.eventToUser user_id "error" "You do not have enough money." G)
                  else if (JS.lt (Item.shopQuantity item) (JS.Num 1)
                           && negb (JS.strict_eq (Item.shopQuantity item) (JS.Num (-1))))%bool then
                    (shop, Game.eventToUser user_id "error"
                             "They do not appear to have that item anymore" G)
                  else
                    match ItemManager.add G (Item.id item) None None with
                    | (None, G) =>
                        (* not reached: the template was found above *)
                        (shop, Game.emit LoggerError G)
                    | (Some itemToAdd, G) =>
                        if negb (Env.hasRoomForItem E character itemToAdd) then
                          (shop, Game.eventToUser user_id "error"
                                   "You do not have enough inventory space for that item." G)
                        else
                          buyCommit shop G user_id character (Z.to_nat index) item
                            itemTemplate itemToAdd price
                    end
              end
        end
  end.

(** The tail of [sellItem], from the template lookup on.  [item] is the
    inventory entry at [index]. *)
Definition sellCommit (shop : t) (G : Game.t) (user_id : string) (character : Character.t)
    (index : nat) (item : Item.t) : t * Game.t :=
  let amount := 1 in
  match ItemManager.getTemplate G (Item.id item) with
  | None => (shop, G)
  | Some itemTemplate =>
      let pricePerUnit := Stats.price (Item.stats itemTemplate)
                          * Buy.priceMultiplier (buy shop) in
      let sold :=
        if Stats.stackable (Item.stats item) then
          match ItemManager.add G (Item.id item) (Some (JS.Num amount)) None with
          | (None, G) => None
          | (Some soldItem, G) =>
              let item := Item.removeDurability amount item in
              let character :=
                Character.set_inventory (<[index := item]> (Character.inventory character))
                  character in
              if JS.le (Stats.durability (Item.stats item)) (JS.Num 0) then
                let '(character, G) := ItemManager.remove G character index in
                Some (soldItem, character, G)
              else Some (soldItem, character, G)
          end
        else
          Some (item,
                Character.set_inventory (JS.splice1 (Character.inventory character) index)
                  character,
                G) in
      match sold with
      | None => (shop, G)
      | Some (soldItem, character, G) =>
          let character := Character.updateCash (amount * pricePerUnit) character in
          let character :=
            if String.eqb (Item.subtype soldItem) "drug"
            then Character.updateExp 2 character else character in
          let G := Game.put_character user_id character G in
          let shop :=
            if Buy.resell (buy shop) then addToInventory shop soldItem None else shop in
          let G := Game.eventToUser user_id "success"
                     ("You sold 1x " +:+ Item.name soldItem +:+ " for "
                      +:+ pretty (amount * pricePerUnit)) G in
          let G := Game.emit (UpdateClient (Character.user_id character)) G in
          match getSellList G shop with
          | None => (shop, G)
          | Some inventory =>
              (shop, Game.emit (DispatchToRoom (Character.getLocationId character)
                                  (shopUpdate shop inventory)) G)
          end
      end
  end.

(** [sellItem(user_id, fingerprint)].  A rejected character lookup and any
    exception are swallowed by the empty [catch]. *)
Definition sellItem (shop : t) (G : Game.t) (user_id : string) (fingerprint : nat)
    : t * Game.t :=
  match Game.characters G !! user_id with
  | None => (shop, G)
  | Some character =>
      if negb (Buy.enabled (buy shop)) then
        (shop, Game.eventToUser user_id "error" "They are not interested in buying anything." G)
      else
        match list_find (λ obj, Item.fingerprint obj = fingerprint)
                (Character.inventory character) with
        | None => (shop, Game.eventToUser user_id "error" "Invalid item." G)
        | Some (index, item) =>
            if (negb (bool_decide (Buy.list (buy shop) = []))
                && negb (bool_decide (Item.id item ∈ Buy.list (buy shop))))%bool then
              (shop, Game.eventToUser user_id "error"
                       "They are not interested in buying that item." G)
            else if (bool_decide (Item.type item ∈ Buy.ignoreType (buy shop))
                     || bool_decide (Item.subtype item ∈ Buy.ignoreSubtype (buy shop)))%bool then
              (shop, Game.eventToUser user_id "error"
                       "They are not interested in buying this type of item." G)
            else if (Stats.stackable (Item.stats item)
                     && JS.lt (Stats.durability (Item.stats item)) (JS.Num 1))%bool then
              (shop, Game.eventToUser user_id "error"
                       "You do not have any more of that item." G)
            else sellCommit shop G user_id character index item
        end
  end.

(** One turn of the [resupply] loop body; [None] when it throws
    ([supply.items[index]] is [undefined], or [add] returned [null]). *)
Definition resupplyStep (E : Env.t) (unique : bool)
    (st : list SupplyItem.t * Z * list Item.t * Game.t)
    : option (list SupplyItem.t * Z * list Item.t * Game.t) :=
  let '(items, totalItems, l, G) := st in
  let index := Env.dice E (Game.rolls G) 0 totalItems in
  let G := Game.set_rolls (S (Game.rolls G)) G in
  supplyItem ← JS.nth items index;
  match ItemManager.add G (SupplyItem.id supplyItem) None None with
  | (None, _) => None
  | (Some newItem, G) =>
      let q := Env.dice E (Game.rolls G) (SupplyItem.quantity supplyItem).1
                 (SupplyItem.quantity supplyItem).2 in
      let G := Game.set_rolls (S (Game.rolls G)) G in
      let l := l ++ [Item.set_shopQuantity (JS.Num q) newItem] in
      if unique then
        let items := JS.splice1 items (Z.to_nat index) in
        Some (items, Z.of_nat (length items), l, G)
      else Some (items, totalItems, l, G)
  end.

(** [for (let i = itemsToAdd; i >= 0; i--)], run for [turns] turns; the
    boolean tells whether the loop ran to its end. *)
Fixpoint resupplyLoop (E : Env.t) (unique : bool) (turns : nat)
    (st : list SupplyItem.t * Z * list Item.t * Game.t)
    : list Item.t * Game.t * bool :=
  match turns with
  | O => (st.1.2, st.2, true)
  | S turns' =>
      match resupplyStep E unique st with
      | None => (st.1.2, st.2, false)
      | Some st' => resupplyLoop E unique turns' st'
      end
  end.

(** Number of turns of a loop that counts [i] from [itemsToAdd] down while
    [i >= 0]. *)
Definition turnsFrom (itemsToAdd : Z) : nat := Z.to_nat (itemsToAdd + 1).

Definition unlimited (item : Item.t) : Prop :=
  JS.strict_eq (Item.shopQuantity item) (JS.Num (-1)) = true.

#[global] Instance unlimited_dec i : Decision (unlimited i).
Proof. unfold unlimited. apply _. Defined.

(** The number [resupply] draws first: [dice(...supply.numberOfItems)]. *)
Definition itemsToAdd (E : Env.t) (G : Game.t) (supply : Supply.t) : Z :=
  Env.dice E (Game.rolls G) (Supply.numberOfItems supply).1 (Supply.numberOfItems supply).2.

(** [resupply()]; the boolean is false when the pass threw part-way. *)
Definition resupply (E : Env.t) (shop : t) (G : Game.t) : t * Game.t * bool :=
  match supply shop with
  | None => (shop, G, true)
  | Some supply =>
      let l := filter unlimited (Sell.list (sell shop)) in
      let items := Supply.items supply in
      let totalItems := Z.of_nat (length items) in
      let n := itemsToAdd E G supply in
      let G := Game.set_rolls (S (Game.rolls G)) G in
      let '(l, G, ok) :=
        resupplyLoop E (Supply.uniqueItems supply) (turnsFrom n) (items, totalItems, l, G) in
      (set_list l shop, G, ok)
  end.

End Shop.

(** ** Cooldowns (collaborator, spec section 4.2) *)

Module CooldownManager.

(** Modelled from the spec: [ticksLeft(actor, key)] is the remaining tick
    count of the entry, 0 when the pair is idle. *)
Definition ticksLeft (G : Game.t) (character : Character.t) (key : string) : Z :=
  default 0 (Game.cooldowns G !! (Character.user_id character, key)).

Definition start (character : Character.t) (key : string) (ticks : Z) (G : Game.t) : Game.t :=
  Game.emit (CooldownAdd (Character.user_id character) key ticks)
    (Game.set_cooldowns (<[(Character.user_id character, key) := ticks]> (Game.cooldowns G)) G).

(** Modelled from the spec: [add(actor, key, explicitDuration = null,
    useDefault = false)] "sets ticksRemaining to explicitDuration if given,
    else to the action's configured default when useDefault is true, else
    fails silently". *)
Definition add (E : Env.t) (G : Game.t) (character : Character.t) (key : string)
    (explicitDuration : option Z) (useDefault : bool) : Game.t :=
  match explicitDuration with
  | Some ticks => start character key ticks G
  | None => if useDefault then start character key (Env.cooldownDefault E key) G else G
  end.

End CooldownManager.

(** ** Chat commands (command/commands.js) *)

Module Commands.

(** [`${ticksLeft / 10}`]: a tick count printed in tenths. *)
Definition tenths (ticks : Z) : string :=
  let a := Z.abs ticks in
  let whole := pretty (a / 10) in
  let shown := if a mod 10 =? 0 then whole else whole +:+ "." +:+ pretty (a mod 10) in
  if ticks <? 0 then "-" +:+ shown else shown.

Definition waitMessage (ticksLeft : Z) : string :=
  "You must wait another " +:+ tenths ticksLeft
  +:+ " seconds before you can send another message.".

Definition checkChatCooldown (E : Env.t) (character : Character.t) (G : Game.t)
    (callback : Game.t → Game.t) : Game.t :=
  let ticksLeft := CooldownManager.ticksLeft G character "chat" in
  if negb (ticksLeft =? 0) then
    Game.eventToUser (Character.user_id character) "error" (waitMessage ticksLeft) G
  else
    let G := CooldownManager.add E G character "chat" None true in
    callback G.

(** [characterManager.get(socket.user.user_id)] followed by [then]: reading
    [user_id] of an untagged socket throws; a rejected lookup is swallowed. *)
Definition withCharacter (socket : Socket.t) (G : Game.t)
    (k : Character.t → Game.t) : Game.t :=
  match Socket.user socket with
  | None => Game.emit Throw G
  | Some user_id =>
      match user_id ≫= (λ u, Game.characters G !! u) with
      | None => G
      | Some character => k character
      end
  end.

(** [cmdGlobal(socket, command, params, cmdObject, Game)] *)
Definition cmdGlobal (E : Env.t) (socket : Socket.t) (params : list string) (G : Game.t)
    : Game.t :=
  let message := JS.trim (JS.join params) in
  if (String.length message =? 0)%nat then
    Game.eventToSocket socket "error"
      "You must specify a message to send. Syntax: /g <message>" G
  else
    withCharacter socket G (λ character,
      checkChatCooldown E character G (λ G,
        Game.emit (DispatchToServer (CHAT_MESSAGE
          (Chat.mk "global" (Character.user_id character) (Character.name character)
             (JS.join params)))) G)).

(** [cmdSay(socket, command, params, cmdObject, Game)] *)
Definition cmdSay (E : Env.t) (socket : Socket.t) (params : list string) (G : Game.t)
    : Game.t :=
  let message := JS.trim (JS.join params) in
  if (String.length message =? 0)%nat then
    Game.eventToSocket socket "error"
      "You must specify a message to send. Syntax: /s <message>" G
  else
    withCharacter socket G (λ character,
      checkChatCooldown E character G (λ G,
        Game.emit (DispatchToRoom
          (gridId (Location.map (Character.location character))
             (Location.x (Character.location character))
             (Location.y (Character.location character)))
          (CHAT_MESSAGE
             (Chat.mk "local" (Character.user_id character) (Character.name character)
                message))) G)).

(** [cmdWhisper(socket, player, command, params, cmdObject, Game)]: the
    [player] rule has replaced [params[0]] by the target character, and
    [params[1]] is the message. *)
Definition cmdWhisper (E : Env.t) (socket : Socket.t) (player : Character.t)
    (whisperTarget : Character.t) (message : string) (G : Game.t) : Game.t :=
  checkChatCooldown E player G (λ G,
    let G := Game.emit (DispatchToSocket (Socket.sid socket) (CHAT_MESSAGE
               (Chat.mk "whisper-out" (Character.user_id whisperTarget)
                  (Character.name whisperTarget) message))) G in
    Game.emit (DispatchToUser (Character.user_id whisperTarget) (CHAT_MESSAGE
      (Chat.mk "whisper-in" (Character.user_id player) (Character.name player) message))) G).

End Commands.

(** ** Sessions (socket manager: collaborator, spec section 4.5) *)

Module SocketManager.

(** A registered client other than [socket] that is tagged with [user_id]. *)
Definition otherSession (socket : Socket.t) (user_id : option string) (c : Socket.t) : Prop :=
  Socket.sid c ≠ Socket.sid socket ∧ Socket.user c = Some user_id.

#[global] Instance otherSession_dec s u c : Decision (otherSession s u c).
Proof. unfold otherSession. apply _. Defined.

Definition remoteLogout (c : Socket.t) : Effect :=
  DispatchToSocket (Socket.sid c) CHARACTER_REMOTE_LOGOUT.

(** Modelled from the spec: [logoutOutSession(socket, user_id)] "forcibly
    terminates the prior session (a remote-logout event is delivered to
    it)": every other registered socket of that user is sent the
    remote-logout action and leaves the active-client list. *)
Definition logoutOutSession (G : Game.t) (socket : Socket.t) (user_id : option string)
    : Game.t :=
  let prior := filter (otherSession socket user_id) (Game.clients G) in
  let G := foldl (λ G c, Game.emit (remoteLogout c) G) G prior in
  Game.set_clients (filter (λ c, ¬ otherSession socket user_id c) (Game.clients G)) G.

(** [socket.user = {user_id}]: the socket object is shared with the client
    list, which sees the new tag too. *)
Definition tag (socket : Socket.t) (user_id : option string) (G : Game.t)
    : Socket.t * Game.t :=
  let socket' := Socket.mk (Socket.sid socket) (Some user_id) in
  (socket',
   Game.set_clients
     (map (λ c, if decide (Socket.sid c = Socket.sid socket) then socket' else c)
        (Game.clients G)) G).

(** Modelled from the spec: [add(socket)] registers the socket in the list
    of active clients. *)
Definition add (G : Game.t) (socket : Socket.t) : Game.t :=
  Game.set_clients (Game.clients G ++ [socket]) G.

End SocketManager.

(** ** Account manager (user/manager.js) *)

Module UserManager.

Definition invalidToken (socket : Socket.t) (G : Game.t) : Game.t :=
  Game.emit (DispatchToSocket (Socket.sid socket)
               (USER_AUTHENTICATE_ERROR "Invalid authentication token. Please try again.")) G.

(** [authenticate]'s callback is [async]: at [await findOneAsync] and at
    [await logoutOutSession] it hands control back to the event loop, and
    it goes on when the awaited promise has settled.  What is left of a
    call at each of the two: *)
Inductive Suspended : Type :=
| AwaitLookup (socket : Socket.t) (decoded : string * string)
| AwaitLogout (socket : Socket.t) (user_id : option string).

(** From the call to the first [await]; [payload] is [action.payload]. *)
Definition start (E : Env.t) (socket : Socket.t) (payload : option string) (G : Game.t)
    : Game.t * option Suspended :=
  match payload with
  | None | Some EmptyString => (G, None)
  | Some token =>
      match Env.jwtVerify E token with
      | None => (invalidToken socket G, None)
      | Some decoded => (G, Some (AwaitLookup socket decoded))
      end
  end.

(** From one [await] to the next, or to the end of the call, on the game
    as it is when the call goes on.  After the lookup: a [null] user ends
    the call; a thrown lookup goes to [onError] and leaves [user_id]
    undefined; then [logoutOutSession] is called, and the call is suspended
    on its promise.  After the logout: the socket is tagged, registered
    and told of the success. *)
Definition resume (E : Env.t) (s : Suspended) (G : Game.t) : Game.t * option Suspended :=
  match s with
  | AwaitLookup socket decoded =>
      match Env.findOneAsync E decoded.1 decoded.2 with
      | Some None => (invalidToken socket G, None)
      | Some (Some user_id) =>
          (SocketManager.logoutOutSession G socket (Some user_id),
           Some (AwaitLogout socket (Some user_id)))
      | None =>
          (SocketManager.logoutOutSession (Game.emit (OnError (Socket.sid socket)) G)
             socket None,
           Some (AwaitLogout socket None))
      end
  | AwaitLogout socket user_id =>
      let '(socket, G) := SocketManager.tag socket user_id G in
      let G := SocketManager.add G socket in
      (Game.emit (DispatchToSocket (Socket.sid socket)
                    (USER_AUTHENTICATE_SUCCESS (Env.mapList E))) G,
       None)
  end.

(** From the session logout on, when nothing else runs at the second
    [await]: what [authenticate] does once [user_id] is set ([None] when
    the user lookup threw). *)
Definition establish (E : Env.t) (socket : Socket.t) (user_id : option string) (G : Game.t)
    : Game.t :=
  let G := SocketManager.logoutOutSession G socket user_id in
  let '(socket, G) := SocketManager.tag socket user_id G in
  let G := SocketManager.add G socket in
  Game.emit (DispatchToSocket (Socket.sid socket) (USER_AUTHENTICATE_SUCCESS (Env.mapList E))) G.

(** [authenticate(socket, action)] from the call to its end, when nothing
    else runs at its [await]s; [payload] is [action.payload]. *)
Definition authenticate (E : Env.t) (socket : Socket.t) (payload : option string)
    (G : Game.t) : Game.t :=
  match payload with
  | None | Some EmptyString => G
  | Some token =>
      match Env.jwtVerify E token with
      | None => invalidToken socket G
      | Some decoded =>
          match Env.findOneAsync E decoded.1 decoded.2 with
          | Some None => invalidToken socket G
          | Some (Some user_id) => establish E socket (Some user_id) G
          | None => establish E socket None (Game.emit (OnError (Socket.sid socket)) G)
          end
      end
  end.

End UserManager.

(** ** The event loop, as far as [authenticate] goes *)

Module EventLoop.

(** What runs next: the synchronous start of a new [authenticate]
    request, or the [n]-th suspended call, whose promise has settled. *)
Inductive Turn : Type :=
| Request (socket : Socket.t) (payload : option string)
| Settled (n : nat).

(** The game and the calls suspended at an [await], oldest first. *)
Definition State : Type := Game.t * list UserManager.Suspended.

Definition turn (E : Env.t) (S : State) (t : Turn) : State :=
  match t with
  | Request socket payload =>
      let '(G, s) := UserManager.start E socket payload S.1 in
      (G, S.2 ++ option_list s)
  | Settled n =>
      match S.2 !! n with
      | None => S
      | Some s =>
          let '(G, s') := UserManager.resume E s S.1 in
          (G, delete n S.2 ++ option_list s')
      end
  end.

Definition run (E : Env.t) (turns : list Turn) (S : State) : State :=
  foldl (turn E) S turns.

(** Requests served one after the other: each call goes through both of
    its [await]s before the next request starts. *)
Definition oneByOne (requests : list (Socket.t * option string)) : list Turn :=
  requests ≫= λ r, [Request r.1 r.2; Settled 0; Settled 0].

End EventLoop.
(** * Predicates and sample data used by the properties *)

(** Sample world: a bakery selling its last loaf, and one customer. *)
Module Sample.

Definition breadTemplate : Item.t :=
  Item.mk "bread" "Bread" "consumable" "food" (Stats.mk 5 false JS.Undefined)
    0 None None JS.Undefined JS.Undefined false.

(** The sell-list entry [{id: "bread", shopQuantity: 1}]. *)
Definition breadEntry : Item.t :=
  Item.set_shopQuantity (JS.Num 1) (Item.construct breadTemplate None 7).

Definition bigKnife : Item.t :=
  Item.mk "knife" "Big Knife" "weapon" "melee" (Stats.mk 40 false (JS.Num 100))
    3 None None JS.Undefined JS.Undefined false.

(** The customer: cash 10, a knife in the inventory, standing at (2, 3). *)
Definition actor : Character.t :=
  Character.mk "u1" "Al" 0 10 [bigKnife] (Location.mk "city" 2 3).

(** One template, one character, nothing on the ground but a knife at
    the customer's feet. *)
Definition world : Game.t :=
  Game.mk {["bread" := breadTemplate]} {[gridId "city" 2 3 := [bigKnife]]}
    {["u1" := actor]} ∅ [] 8 0 [].

Definition bakery : Shop.t :=
  Shop.mk "bakery" (Sell.mk true 1 [breadEntry]) (Buy.mk true 1 [] [] [] true) None.

(** The bakery with a supply plan: two loaves' worth of entries per pass. *)
Definition suppliedBakery : Shop.t :=
  Shop.mk "bakery" (Sell.mk true 1 [breadEntry]) (Buy.mk true 1 [] [] [] true)
    (Some (Supply.mk [SupplyItem.mk "bread" (2, 4)] (2, 2) false)).

(** A stackable good, a dealer listing three units of it, and a stack of
    two about to be merged in. *)
Definition herbTemplate : Item.t :=
  Item.mk "herb" "Herb" "consumable" "drug" (Stats.mk 12 true (JS.Num 1))
    0 None None JS.Undefined JS.Undefined false.

Definition herbEntry : Item.t :=
  Item.set_shopQuantity (JS.Num 3) (Item.construct herbTemplate None 11).

Definition herbStack : Item.t := Item.construct herbTemplate (Some (JS.Num 2)) 12.

Definition dealer : Shop.t :=
  Shop.mk "dealer" (Sell.mk true 2 [breadEntry; herbEntry]) (Buy.mk true 1 [] [] [] true) None.

(** The customer's connection, tagged with the customer's user id, and a
    world in which the customer's chat cooldown has 15 ticks left. *)
Definition phone : Socket.t := Socket.mk 1 (Some (Some "u1")).

Definition mutedWorld : Game.t :=
  Game.set_cooldowns {[("u1", "chat") := 15]} world.

(** A second connection, not yet tagged; a world where [phone] is the
    registered session of "u1"; collaborators that accept the token "t". *)
Definition laptop : Socket.t := Socket.mk 2 None.

Definition onlineWorld : Game.t := Game.set_clients [phone] world.

(** A third connection, not yet tagged either. *)
Definition tablet : Socket.t := Socket.mk 3 None.

Definition trusting : Env.t :=
  Env.mk (λ _ _, true) (λ _ lo _, lo) (λ _, 30)
    (λ token, if String.eqb token "t" then Some ("u1", "s1") else None)
    (λ _id _, Some (Some _id)) ["city"].

(** Collaborators: an inventory with room ([roomy]) or without ([full]);
    dice that always roll their lower bound. *)
Definition roomy : Env.t :=
  Env.mk (λ _ _, true) (λ _ lo _, lo) (λ _, 30) (λ _, None) (λ _ _, None) [].

Definition full : Env.t :=
  Env.mk (λ _ _, false) (λ _ lo _, lo) (λ _, 30) (λ _, None) (λ _ _, None) [].

End Sample.

(** [e'] is the sell-list entry [e] at a later time: the same instance up to
    its [shopQuantity], and when [e] held a finite stock [q >= 0] the stock
    of [e'] is still a number between 0 and [q]. *)
Definition descends (e e' : Item.t) : Prop :=
  e' = Item.set_shopQuantity (Item.shopQuantity e') e
  ∧ ∀ q, Item.shopQuantity e = JS.Num q → 0 ≤ q →
      ∃ q', Item.shopQuantity e' = JS.Num q' ∧ 0 ≤ q' ≤ q.

(** A sequence of [buyItem] calls, each [(user_id, index, itemId)]. *)
Fixpoint buyItems (E : Env.t) (calls : list (string * Z * string)) (shop : Shop.t)
    (G : Game.t) : Shop.t * Game.t :=
  match calls with
  | [] => (shop, G)
  | (user_id, index, itemId) :: calls' =>
      let '(shop', G') := Shop.buyItem E shop G user_id index itemId in
      buyItems E calls' shop' G'
  end.

(** Every entry of the sell list has a template, as [itemManager.add]
    guarantees for the instances it builds. *)
Definition templated (G : Game.t) (l : list Item.t) : Prop :=
  Forall (λ e, is_Some (ItemManager.getTemplate G (Item.id e))) l.

(** [a] and [b] are the same item apart from their [shopQuantity]. *)
Definition sameButShopQuantity (a b : Item.t) : Prop :=
  Item.id b = Item.id a
  ∧ Item.name b = Item.name a
  ∧ Item.type b = Item.type a
  ∧ Item.subtype b = Item.subtype a
  ∧ Item.stats b = Item.stats a
  ∧ Item.fingerprint b = Item.fingerprint a
  ∧ Item._id b = Item._id a
  ∧ Item.inventorySlot b = Item.inventorySlot a
  ∧ Item.expRequired b = Item.expRequired a
  ∧ Item.remove b = Item.remove a.

(** The sell list holds at most one entry per stackable item id: two
    stackable entries with the same id sit at the same position. *)
Definition oneEntryPerStackableId (l : list Item.t) : Prop :=
  ∀ i j a b, l !! i = Some a → l !! j = Some b →
    Stats.stackable (Item.stats a) = true → Stats.stackable (Item.stats b) = true →
    Item.id a = Item.id b → i = j.

(** What the stacking invariant reads of an entry. *)
Definition stackKey (e : Item.t) : string * bool :=
  (Item.id e, Stats.stackable (Item.stats e)).

(** A CHAT_MESSAGE handed to the socket manager, whatever the audience. *)
Definition isChat (e : Effect) : bool :=
  match e with
  | DispatchToSocket _ (CHAT_MESSAGE _)
  | DispatchToUser _ (CHAT_MESSAGE _)
  | DispatchToRoom _ (CHAT_MESSAGE _)
  | DispatchToServer (CHAT_MESSAGE _) => true
  | _ => false
  end.

(** At most one authenticated session per account: registered clients
    tagged with the same user id are one and the same socket. *)
Definition oneSessionPerAccount (clients : list Socket.t) : Prop :=
  ∀ c1 c2 u, c1 ∈ clients → c2 ∈ clients →
    Socket.user c1 = Some (Some u) → Socket.user c2 = Some (Some u) →
    Socket.sid c1 = Socket.sid c2.

(** ** Ground items *)

(** No item of the list carries a database key. *)
Definition unowned (l : list Item.t) : Prop := Forall (λ i, Item._id i = None) l.

(** Every location's list is unowned and holds one entry per stackable id. *)
Definition groundInvariant (G : Game.t) : Prop :=
  ∀ k l, Game.dropped_items G !! k = Some l → unowned l ∧ oneEntryPerStackableId l.

(** A call of [drop] or of [pickup]. *)
Inductive GroundOp : Type :=
| Drop (map_id : string) (x y : Z) (itemObject : Item.t)
| Pickup (map_id : string) (x y : Z) (itemName : option string) (amount : JS.num).

Definition groundStep (G : Game.t) (op : GroundOp) : Game.t :=
  match op with
  | Drop map_id x y itemObject => (ItemManager.drop G map_id x y itemObject).2
  | Pickup map_id x y itemName amount => (ItemManager.pickup G map_id x y itemName amount).2
  end.

Definition groundRun (G : Game.t) (ops : list GroundOp) : Game.t := foldl groundStep G ops.

(** The entry [pickup] resolves: by name when a non-empty name is given,
    the first entry otherwise. *)
Definition pickupTarget (l : list Item.t) (itemName : option string) : option (nat * Item.t) :=
  match l with
  | [] => None
  | first :: _ =>
      match itemName with
      | Some (String c r as itemName) => ItemManager.findByName l itemName
      | _ => Some (0%nat, first)
      end
  end.

(** More sample data: a world with five units of herb lying at (2, 3). *)
Module Field.

Definition herbPile : Item.t := Item.set_durability (JS.Num 5) Sample.herbEntry.

Definition world : Game.t :=
  Game.mk {["herb" := Sample.herbTemplate]} {[gridId "city" 2 3 := [herbPile]]}
    ∅ ∅ [] 20 0 [].

End Field.

(** ** Shop bookkeeping *)

(** Nobody is in debt. *)
Definition solvent (G : Game.t) : Prop :=
  ∀ u c, Game.characters G !! u = Some c → 0 ≤ Character.money c.

(** What a call adds to the trace. *)
Definition appended (G G' : Game.t) (new : list Effect) : Prop :=
  Game.trace G' = Game.trace G ++ new.

(** The bakery with bread on unlimited sale. *)
Module Endless.

Definition breadEntry : Item.t := Item.set_shopQuantity (JS.Num (-1)) Sample.breadEntry.

Definition bakery : Shop.t := Shop.set_list [breadEntry] Sample.bakery.

End Endless.

(** The bakery with scones still on its sell list after they were taken
    out of the catalogue: no template "scone" exists. *)
Module Stale.

Definition sconeEntry : Item.t :=
  Item.mk "scone" "Scone" "consumable" "food" (Stats.mk 3 false JS.Undefined)
    9 None None (JS.Num 2) JS.Undefined false.

Definition bakery : Shop.t := Shop.set_list [Sample.breadEntry; sconeEntry] Sample.bakery.

End Stale.

(** No item of the inventory is flagged for removal. *)
Definition unflagged (l : list Item.t) : Prop := Forall (λ o, Item.remove o = false) l.

(** A character whose only item, a knife, is stored under the key "k1". *)
Module Locker.

Definition storedKnife : Item.t := Item.set_db_id (Some "k1") Sample.bigKnife.

Definition owner : Character.t :=
  Character.mk "u3" "Cy" 0 0 [storedKnife] (Location.mk "city" 2 3).

End Locker.

(** The shop's buy side takes the item: its id is on the buy list (or the
    list is empty), and neither its type nor its subtype is ignored. *)
Definition wanted (shop : Shop.t) (item : Item.t) : Prop :=
  (Buy.list (Shop.buy shop) = [] ∨ Item.id item ∈ Buy.list (Shop.buy shop))
  ∧ (Item.type item ∉ Buy.ignoreType (Shop.buy shop))
  ∧ (Item.subtype item ∉ Buy.ignoreSubtype (Shop.buy shop)).

(** [item] is the first inventory entry with the fingerprint, at [index]. *)
Definition firstWithFingerprint (inventory : list Item.t) (fingerprint : nat)
    (index : nat) (item : Item.t) : Prop :=
  inventory !! index = Some item
  ∧ Item.fingerprint item = fingerprint
  ∧ ∀ j o, inventory !! j = Some o → (j < index)%nat → Item.fingerprint o ≠ fingerprint.

(** A market day: the dealer buys anything and resells it; the seller holds
    a knife (fingerprint 3) and two units of herb (fingerprint 12). *)
Module Market.

Definition knifeTemplate : Item.t :=
  Item.mk "knife" "Big Knife" "weapon" "melee" (Stats.mk 40 false (JS.Num 100))
    0 None None JS.Undefined JS.Undefined false.

Definition seller : Character.t :=
  Character.mk "u2" "Bo" 7 100 [Sample.bigKnife; Sample.herbStack] (Location.mk "city" 2 3).

Definition world : Game.t :=
  Game.mk {["bread" := Sample.breadTemplate; "herb" := Sample.herbTemplate;
            "knife" := knifeTemplate]}
    ∅ {["u2" := seller]} ∅ [] 30 0 [].

End Market.

(** [e] is what one turn of [resupply] makes of the candidate [s]: a fresh
    instance of the candidate's template, not stored, with a stock drawn by
    the dice from the candidate's quantity range. *)
Definition bornFrom (E : Env.t) (G : Game.t) (s : SupplyItem.t) (e : Item.t) : Prop :=
  ∃ template fingerprint roll,
    ItemManager.getTemplate G (SupplyItem.id s) = Some template
    ∧ e = Item.set_shopQuantity
            (JS.Num (Env.dice E roll (SupplyItem.quantity s).1 (SupplyItem.quantity s).2))
            (Item.set_db_id None (Item.construct template None fingerprint)).

(** Two games that differ at most in the counters of drawn fingerprints
    and rolled dice. *)
Definition sameButCounters (G G' : Game.t) : Prop :=
  Game.templates G' = Game.templates G
  ∧ Game.dropped_items G' = Game.dropped_items G
  ∧ Game.characters G' = Game.characters G
  ∧ Game.cooldowns G' = Game.cooldowns G
  ∧ Game.clients G' = Game.clients G
  ∧ Game.trace G' = Game.trace G.

(** A bakery whose supply plan draws each candidate at most once. *)
Module Unique.

Definition bakery : Shop.t :=
  Shop.mk "bakery" (Sell.mk true 1 [Sample.breadEntry]) (Buy.mk true 1 [] [] [] true)
    (Some (Supply.mk [SupplyItem.mk "bread" (2, 4)] (0, 0) true)).

End Unique.

(** Collaborators whose user lookup throws for every verified token. *)
Module Outage.

Definition env : Env.t :=
  Env.mk (λ _ _, true) (λ _ lo _, lo) (λ _, 30)
    (λ token, if String.eqb token "t" then Some ("u1", "s1") else None)
    (λ _ _, None) ["city"].

End Outage.

(** A second blade on the ground, named just "Knife". *)
Module Blades.

Definition knife : Item.t :=
  Item.mk "knife" "Knife" "weapon" "melee" (Stats.mk 15 false (JS.Num 60))
    4 None None JS.Undefined JS.Undefined false.

End Blades.
(** * Properties *)

(** ** Instancing *)

Lemma add_found G itemId modifiers dbId template :
  ItemManager.getTemplate G itemId = Some template →
  ItemManager.add G itemId modifiers dbId
  = (Some (ItemManager.instantiate G template modifiers dbId),
     Game.set_uuids (S (Game.uuids G)) G).
Proof. intros H. unfold ItemManager.add. by rewrite H. Qed.

Lemma nth_Some_nonneg {A} (l : list A) (i : Z) (a : A) :
  JS.nth l i = Some a → 0 ≤ i ∧ l !! Z.to_nat i = Some a.
Proof.
  unfold JS.nth. destruct (Z.ltb_spec i 0); [done|]. auto.
Qed.

(** ** Buying: the capacity check comes before every mutation *)

Section BuyItem.
Context (E : Env.t).

(** C1. When the shop is selling, the entry at the index exists with the
    expected id, the actor's experience and cash suffice, the template exists
    and stock is available, but the actor has no room for the instantiated
    item, [buyItem] sends the actor the no-inventory-space error and nothing
    else: the shop (so the entry's [shopQuantity]) and the character (cash,
    inventory) are as before, and the trace grows by that one event. *)
Theorem buyItem_no_room_mutates_nothing
    (shop : Shop.t) (G : Game.t) (user_id : string) (index : Z) (itemId : string)
    (character : Character.t) (item itemTemplate : Item.t) :
  Game.characters G !! user_id = Some character →
  Sell.enabled (Shop.sell shop) = true →
  JS.nth (Sell.list (Shop.sell shop)) index = Some item →
  Item.id item = itemId →
  JS.lt (JS.Num (Character.exp character)) (Item.expRequired item) = false →
  ItemManager.getTemplate G (Item.id item) = Some itemTemplate →
  Stats.price (Item.stats itemTemplate) * Sell.priceMultiplier (Shop.sell shop)
    ≤ Character.money character →
  (JS.lt (Item.shopQuantity item) (JS.Num 1) = false
   ∨ Item.shopQuantity item = JS.Num (-1)) →
  Env.hasRoomForItem E character (ItemManager.instantiate G itemTemplate None None) = false →
  let '(shop', G') := Shop.buyItem E shop G user_id index itemId in
  shop' = shop
  ∧ Game.characters G' = Game.characters G
  ∧ Game.characters G' !! user_id = Some character
  ∧ Game.trace G' = Game.trace G
      ++ [DispatchToUser user_id
            (GAME_EVENT "error" "You do not have enough inventory space for that item." [])].
Proof.
  intros Hc Hen Hnth Hid Hexp Htpl Hmoney Hstock Hroom.
  unfold Shop.buyItem. rewrite Hc, Hen, Hnth. cbn [negb].
  rewrite Hid, String.eqb_refl. cbn [negb]. rewrite Hexp.
  rewrite <- Hid, Htpl.
  destruct (Z.ltb_spec (Character.money character)
              (Stats.price (Item.stats itemTemplate) * Sell.priceMultiplier (Shop.sell shop)));
    [lia|].
  assert ((JS.lt (Item.shopQuantity item) (JS.Num 1)
           && negb (JS.strict_eq (Item.shopQuantity item) (JS.Num (-1))))%bool = false) as ->.
  { destruct Hstock as [-> | ->]; [done|]. by rewrite andb_false_r. }
  rewrite (add_found _ _ _ _ _ Htpl), Hroom. cbn [negb].
  repeat split; try done.
Qed.

End BuyItem.

Lemma buyItem_no_room_witness :
  let '(shop', G') := Shop.buyItem Sample.full Sample.bakery Sample.world "u1" 0 "bread" in
  shop' = Sample.bakery
  ∧ Game.characters G' = Game.characters Sample.world
  ∧ Game.characters G' !! "u1" = Some Sample.actor
  ∧ Game.trace G' = Game.trace Sample.world
      ++ [DispatchToUser "u1"
            (GAME_EVENT "error" "You do not have enough inventory space for that item." [])].
Proof.
  apply (buyItem_no_room_mutates_nothing Sample.full Sample.bakery Sample.world "u1" 0 "bread"
           Sample.actor Sample.breadEntry Sample.breadTemplate);
    first [ reflexivity | by left | by vm_compute ].
Defined.

(** ** Selling: an unknown fingerprint touches nothing *)

(** C7. With the shop's buy side enabled, [sellItem] on a fingerprint that
    matches no inventory item sends the actor one error event and mutates
    nothing: the shop (sell and buy lists) is returned as it was, and the
    characters (cash, experience, inventory) are unchanged. *)
Theorem sellItem_unknown_fingerprint_mutates_nothing
    (shop : Shop.t) (G : Game.t) (user_id : string) (fingerprint : nat)
    (character : Character.t) :
  Game.characters G !! user_id = Some character →
  Buy.enabled (Shop.buy shop) = true →
  (∀ obj, obj ∈ Character.inventory character → Item.fingerprint obj ≠ fingerprint) →
  let '(shop', G') := Shop.sellItem shop G user_id fingerprint in
  shop' = shop
  ∧ Game.characters G' = Game.characters G
  ∧ Game.characters G' !! user_id = Some character
  ∧ Game.trace G' = Game.trace G
      ++ [DispatchToUser user_id (GAME_EVENT "error" "Invalid item." [])].
Proof.
  intros Hc Hen Hno. unfold Shop.sellItem. rewrite Hc, Hen. cbn [negb].
  destruct (list_find _ _) as [[index item]|] eqn:Hfind.
  - apply list_find_Some in Hfind as (Hl & Hfp & _).
    exfalso. eapply Hno; [|exact Hfp]. eapply list_elem_of_lookup_2; eauto.
  - repeat split; done.
Qed.

Lemma sellItem_unknown_fingerprint_witness :
  let '(shop', G') := Shop.sellItem Sample.bakery Sample.world "u1" 42 in
  shop' = Sample.bakery
  ∧ Game.characters G' = Game.characters Sample.world
  ∧ Game.characters G' !! "u1" = Some Sample.actor
  ∧ Game.trace G' = Game.trace Sample.world
      ++ [DispatchToUser "u1" (GAME_EVENT "error" "Invalid item." [])].
Proof.
  apply (sellItem_unknown_fingerprint_mutates_nothing Sample.bakery Sample.world "u1" 42
           Sample.actor); [reflexivity | reflexivity |].
  intros obj Hin. apply list_elem_of_singleton in Hin. by rewrite Hin.
Defined.

(** ** Buying: finite stock never goes below zero *)

Lemma descends_refl e : descends e e.
Proof.
  split; [by destruct e|]. intros q Hq Hpos. exists q. split; [done|lia].
Qed.

Lemma descends_trans e1 e2 e3 : descends e1 e2 → descends e2 e3 → descends e1 e3.
Proof.
  intros [H12 Hq12] [H23 Hq23]. split.
  - rewrite H23 at 1. rewrite H12. by destruct e1.
  - intros q Hq Hpos. destruct (Hq12 q Hq Hpos) as (q2 & Hq2 & Hr2).
    destruct (Hq23 q2 Hq2 ltac:(lia)) as (q3 & Hq3 & Hr3).
    exists q3. split; [done|lia].
Qed.

(** The entry a purchase leaves behind, given that the stock check passed. *)
Lemma descends_decrement item :
  (JS.lt (Item.shopQuantity item) (JS.Num 1)
   && negb (JS.strict_eq (Item.shopQuantity item) (JS.Num (-1))))%bool = false →
  descends item
    (if negb (JS.strict_eq (Item.shopQuantity item) (JS.Num (-1)))
     then Item.set_shopQuantity (JS.sub (Item.shopQuantity item) (JS.Num 1)) item
     else item).
Proof.
  intros Hstock.
  destruct (JS.strict_eq (Item.shopQuantity item) (JS.Num (-1))) eqn:Heq; cbn [negb] in *;
    [apply descends_refl|].
  rewrite andb_true_r in Hstock. split; [by destruct item|].
  intros q Hq Hpos. rewrite Hq in Hstock |- *. cbn in Hstock |- *.
  apply Z.ltb_ge in Hstock. exists (q - 1). split; [done|lia].
Qed.

Lemma insert_descends (l : list Item.t) (i : nat) (item item' e' : Item.t) :
  l !! i = Some item → descends item item' →
  e' ∈ <[i := item']> l → ∃ e, e ∈ l ∧ descends e e'.
Proof.
  intros Hi Hd Hin. apply list_elem_of_lookup in Hin as [j Hj].
  apply list_lookup_insert_Some in Hj as [(-> & -> & _) | (_ & Hj)].
  - exists item. split; [by eapply list_elem_of_lookup_2|done].
  - exists e'. split; [by eapply list_elem_of_lookup_2|apply descends_refl].
Qed.

Lemma buyCommit_list shop G key character i item itemTemplate itemToAdd price :
  let item' := if negb (JS.strict_eq (Item.shopQuantity item) (JS.Num (-1)))
               then Item.set_shopQuantity (JS.sub (Item.shopQuantity item) (JS.Num 1)) item
               else item in
  let l' := <[i := item']> (Sell.list (Shop.sell shop)) in
  let shop' := (Shop.buyCommit shop G key character i item itemTemplate itemToAdd price).1 in
  Sell.list (Shop.sell shop') = l' ∨ Sell.list (Shop.sell shop') = delete i l'.
Proof.
  cbv zeta. unfold Shop.buyCommit.
  repeat match goal with
         | |- context [match ?x with _ => _ end] => destruct x eqn:?
         end; cbn; auto.
Qed.

Lemma buyItem_descends E shop G user_id index itemId e' :
  e' ∈ Sell.list (Shop.sell (Shop.buyItem E shop G user_id index itemId).1) →
  ∃ e, e ∈ Sell.list (Shop.sell shop) ∧ descends e e'.
Proof.
  assert (∀ x : Game.t, e' ∈ Sell.list (Shop.sell (shop, x).1) →
               ∃ e, e ∈ Sell.list (Shop.sell shop) ∧ descends e e') as Hsame.
  { intros x Hin. exists e'. split; [done|apply descends_refl]. }
  unfold Shop.buyItem.
  destruct (Game.characters G !! user_id) as [character|]; [|apply Hsame].
  destruct (Sell.enabled (Shop.sell shop)); cbn [negb]; [|apply Hsame].
  destruct (JS.nth _ index) as [item|] eqn:Hnth; [|apply Hsame].
  apply nth_Some_nonneg in Hnth as [_ Hnth].
  destruct (String.eqb (Item.id item) itemId); cbn [negb]; [|apply Hsame].
  destruct (JS.lt (JS.Num _) _); [apply Hsame|].
  destruct (ItemManager.getTemplate _ _) as [itemTemplate|]; [|apply Hsame].
  destruct (_ <? _); [apply Hsame|].
  destruct (_ && _)%bool eqn:Hstock; [apply Hsame|].
  destruct (ItemManager.add _ _ _ _) as [[itemToAdd|] G1]; [|apply Hsame].
  destruct (Env.hasRoomForItem E character itemToAdd); cbn [negb]; [|apply Hsame].
  intros Hin.
  pose proof (buyCommit_list shop G1 user_id character (Z.to_nat index) item itemTemplate
                itemToAdd
                (Stats.price (Item.stats itemTemplate) * Sell.priceMultiplier (Shop.sell shop)))
    as Hl.
  cbv zeta in Hl. destruct Hl as [Hl | Hl]; rewrite Hl in Hin.
  - eapply insert_descends; eauto using descends_decrement.
  - apply list_elem_of_delete_inv in Hin.
    eapply insert_descends; eauto using descends_decrement.
Qed.

Lemma buyItems_descends E calls : ∀ shop G e',
  e' ∈ Sell.list (Shop.sell (buyItems E calls shop G).1) →
  ∃ e, e ∈ Sell.list (Shop.sell shop) ∧ descends e e'.
Proof.
  induction calls as [|[[user_id index] itemId] calls IH]; intros shop G e' Hin.
  - exists e'. split; [done|apply descends_refl].
  - cbn [buyItems] in Hin.
    destruct (Shop.buyItem E shop G user_id index itemId) as [shop1 G1] eqn:Hstep.
    destruct (IH _ _ _ Hin) as (e1 & Hin1 & Hd1).
    assert (shop1 = (Shop.buyItem E shop G user_id index itemId).1) as Hs by by rewrite Hstep.
    rewrite Hs in Hin1. destruct (buyItem_descends _ _ _ _ _ _ _ Hin1) as (e & Hin0 & Hd0).
    exists e. split; [done|]. by eapply descends_trans.
Qed.

Lemma delete_insert_same {A} (l : list A) (i : nat) (x : A) :
  delete i (<[i := x]> l) = delete i l.
Proof.
  revert i. induction l as [|a l IH]; intros [|i]; cbn; try done. by rewrite IH.
Qed.

Lemma getSellList_templated G shop :
  templated G (Sell.list (Shop.sell shop)) → is_Some (Shop.getSellList G shop).
Proof.
  intros Ht. unfold Shop.getSellList. destruct (negb _); [done|].
  apply mapM_is_Some. eapply Forall_impl; [exact Ht|].
  intros e [tpl Htpl]. cbn. unfold Shop.toListing. rewrite Htpl. done.
Qed.

Lemma templated_same_templates G G' l :
  Game.templates G' = Game.templates G → templated G l → templated G' l.
Proof.
  intros Heq Ht. eapply Forall_impl; [exact Ht|].
  intros e. unfold ItemManager.getTemplate. by rewrite Heq.
Qed.

Section StockInvariant.
Context (E : Env.t).

(** X25. Finite stock never goes negative under [buyItem]:
    - over any sequence of calls, every entry left in the sell list is an
      entry of the initial list ([descends]), and when that entry started
      with a finite stock [q >= 0] its stock is still a number in [0, q];
    - a purchase of an entry whose stock is a number below 1 other than -1
      ends in a single error event and leaves shop and characters as they
      were; when the earlier checks pass that error is the out-of-stock one;
    - a purchase that takes the last unit (stock 1, all checks passed, every
      listed item templated) returns the sell list without that entry. *)
Theorem buyItem_finite_stock_never_negative :
  (∀ calls shop G e',
     e' ∈ Sell.list (Shop.sell (buyItems E calls shop G).1) →
     ∃ e, e ∈ Sell.list (Shop.sell shop) ∧ descends e e')
  ∧ (∀ shop G user_id index itemId character item q,
       Game.characters G !! user_id = Some character →
       JS.nth (Sell.list (Shop.sell shop)) index = Some item →
       Item.shopQuantity item = JS.Num q → q < 1 → q ≠ -1 →
       ∃ message,
         Shop.buyItem E shop G user_id index itemId
         = (shop, Game.eventToUser user_id "error" message G)
         ∧ (Sell.enabled (Shop.sell shop) = true →
            Item.id item = itemId →
            JS.lt (JS.Num (Character.exp character)) (Item.expRequired item) = false →
            (∃ itemTemplate,
               ItemManager.getTemplate G (Item.id item) = Some itemTemplate
               ∧ Stats.price (Item.stats itemTemplate) * Sell.priceMultiplier (Shop.sell shop)
                 ≤ Character.money character) →
            message = "They do not appear to have that item anymore"))
  ∧ (∀ shop G user_id index itemId character item itemTemplate,
       Game.characters G !! user_id = Some character →
       Sell.enabled (Shop.sell shop) = true →
       JS.nth (Sell.list (Shop.sell shop)) index = Some item →
       Item.id item = itemId →
       JS.lt (JS.Num (Character.exp character)) (Item.expRequired item) = false →
       ItemManager.getTemplate G (Item.id item) = Some itemTemplate →
       Stats.price (Item.stats itemTemplate) * Sell.priceMultiplier (Shop.sell shop)
         ≤ Character.money character →
       Item.shopQuantity item = JS.Num 1 →
       Env.hasRoomForItem E character (ItemManager.instantiate G itemTemplate None None) = true →
       templated G (Sell.list (Shop.sell shop)) →
       Sell.list (Shop.sell (Shop.buyItem E shop G user_id index itemId).1)
       = delete (Z.to_nat index) (Sell.list (Shop.sell shop))).
Proof.
  split; [|split].
  - intros calls shop G e'. apply buyItems_descends.
  - intros shop G user_id index itemId character item q Hc Hnth Hq Hlt Hne.
    unfold Shop.buyItem. rewrite Hc, Hnth.
    destruct (Sell.enabled (Shop.sell shop)); cbn [negb]; [|eexists; split; [done|done]].
    destruct (String.eqb_spec (Item.id item) itemId) as [Hid|Hid]; cbn [negb];
      [|eexists; split; [done|]; intros _ ?; done].
    destruct (JS.lt (JS.Num _) _) eqn:Hexp; [eexists; split; [done|]; intros _ _ ?; done|].
    destruct (ItemManager.getTemplate _ _) as [itemTemplate|] eqn:Htpl;
      [|eexists; split; [done|]; intros _ _ _ (? & ? & _); done].
    destruct (Z.ltb_spec (Character.money character)
                (Stats.price (Item.stats itemTemplate)
                 * Sell.priceMultiplier (Shop.sell shop))) as [Hm|Hm].
    { eexists; split; [done|]. intros _ _ _ (tpl & Heq & Hle). simplify_eq. lia. }
    rewrite Hq. cbn [JS.lt JS.strict_eq].
    destruct (Z.ltb_spec q 1); [|lia]. destruct (Z.eqb_spec q (-1)); [lia|].
    cbn. eexists; split; done.
  - intros shop G user_id index itemId character item itemTemplate
      Hc Hen Hnth Hid Hexp Htpl Hmoney Hq Hroom Hall.
    unfold Shop.buyItem. rewrite Hc, Hen, Hnth. cbn [negb].
    rewrite Hid, String.eqb_refl. cbn [negb]. rewrite Hexp. rewrite <- Hid, Htpl.
    destruct (Z.ltb_spec (Character.money character)
                (Stats.price (Item.stats itemTemplate)
                 * Sell.priceMultiplier (Shop.sell shop))); [lia|].
    rewrite Hq. cbn [JS.lt JS.strict_eq Z.ltb Z.eqb Z.compare andb negb Pos.compare].
    rewrite (add_found _ _ _ _ _ Htpl), Hroom. cbn [negb].
    unfold Shop.buyCommit. rewrite Hq.
    cbn [JS.strict_eq Z.eqb negb JS.sub Z.sub Z.add Z.opp Z.pos_sub Item.shopQuantity
           Item.set_shopQuantity JS.le Z.leb Z.compare].
    match goal with
    | |- context [Shop.getSellList ?G' ?s] =>
        destruct (getSellList_templated G' s) as [inventory ->]
    end.
    + cbn. apply Forall_insert.
      * eapply templated_same_templates; [|exact Hall]. done.
      * cbn. apply nth_Some_nonneg in Hnth as [_ Hnth].
        eapply (Forall_lookup_1 _ _ _ _ Hall Hnth).
    + cbn. apply delete_insert_same.
Qed.

End StockInvariant.

Lemma buyItem_finite_stock_witness :
  (∃ message,
     Shop.buyItem Sample.roomy
       (Shop.set_list [Item.set_shopQuantity (JS.Num 0) Sample.breadEntry] Sample.bakery)
       Sample.world "u1" 0 "bread"
     = (Shop.set_list [Item.set_shopQuantity (JS.Num 0) Sample.breadEntry] Sample.bakery,
        Game.eventToUser "u1" "error" message Sample.world))
  ∧ Sell.list (Shop.sell (Shop.buyItem Sample.roomy Sample.bakery Sample.world "u1" 0 "bread").1)
    = [].
Proof.
  destruct (buyItem_finite_stock_never_negative Sample.roomy) as (_ & Hout & Hlast). split.
  - destruct (Hout (Shop.set_list [Item.set_shopQuantity (JS.Num 0) Sample.breadEntry]
                      Sample.bakery)
                Sample.world "u1" 0 "bread" Sample.actor
                (Item.set_shopQuantity (JS.Num 0) Sample.breadEntry) 0)
      as (message & Heq & _); [reflexivity | reflexivity | reflexivity | lia | lia |].
    by exists message.
  - apply (Hlast Sample.bakery Sample.world "u1" 0 "bread" Sample.actor Sample.breadEntry
             Sample.breadTemplate); try reflexivity; [by vm_compute|].
    repeat constructor. by exists Sample.breadTemplate.
Defined.

(** C2. The last loaf of a bakery that also lists an item without a
    template.  The purchase goes through: 5 is debited, the loaf is granted
    and the buyer is told.  Then building the room update throws, the error
    is logged, and the call ends with the sold-out entry still listed, its
    [shopQuantity] 0.  A further attempt at the entry is refused as out of
    stock, so the stock stays at 0. *)
Theorem buyItem_sold_out_entry_stays_listed :
  let '(shop', G') := Shop.buyItem Sample.roomy Stale.bakery Sample.world "u1" 0 "bread" in
  Item.id <$> Sell.list (Shop.sell shop') = ["bread"; "scone"]
  ∧ Item.shopQuantity <$> Sell.list (Shop.sell shop') = [JS.Num 0; JS.Num 2]
  ∧ Character.money <$> Game.characters G' !! "u1" = Some 5
  ∧ (λ c, Item.id <$> Character.inventory c) <$> Game.characters G' !! "u1"
    = Some ["knife"; "bread"]
  ∧ Game.trace G'
    = [UpdateClient "u1";
       DispatchToUser "u1" (GAME_EVENT "success" "You have purchased 1x Bread for 5" []);
       LoggerError]
  ∧ Shop.buyItem Sample.roomy shop' G' "u1" 0 "bread"
    = (shop', Game.eventToUser "u1" "error" "They do not appear to have that item anymore" G').
Proof. vm_compute. split_and!; reflexivity. Qed.

(** ** Buying the last unit: what the room is told *)

(** C3. The bakery scenario evaluated: the actor ends with cash 5 and a
    fresh bread instance, the entry leaves the sell list, and the room of
    the actor's location receives one SHOP_UPDATE.  Its inventory payload
    is not empty: [buyItem] sends it before the splice, so it still lists
    the bread entry, with quantity 0. *)
Theorem buyItem_last_unit_broadcast_lists_sold_out_entry :
  let '(shop', G') := Shop.buyItem Sample.roomy Sample.bakery Sample.world "u1" 0 "bread" in
  Sell.list (Shop.sell shop') = []
  ∧ Character.money <$> Game.characters G' !! "u1" = Some 5
  ∧ Character.inventory <$> Game.characters G' !! "u1"
    = Some [Sample.bigKnife;
            Item.set_inventorySlot (Some 1)
              (ItemManager.instantiate Sample.world Sample.breadTemplate None None)]
  ∧ Game.trace G'
    = [UpdateClient "u1";
       DispatchToUser "u1" (GAME_EVENT "success" "You have purchased 1x Bread for 5" []);
       DispatchToRoom (Character.getLocationId Sample.actor)
         (SHOP_UPDATE "bakery" [Listing.mk "bread" "Bread" (JS.Num 0) JS.Undefined 5])].
Proof. by vm_compute. Qed.

(** X22. The same for any shop: when the last unit of a listed item is bought,
    the SHOP_UPDATE sent to the room has as many rows as the sell list had
    before the call, the bought item among them with quantity 0. *)
Lemma buyItem_broadcast_precedes_removal
    (E : Env.t) (shop : Shop.t) (G : Game.t) (user_id : string) (index : Z) (itemId : string)
    (character : Character.t) (item itemTemplate : Item.t) :
  Game.characters G !! user_id = Some character →
  Sell.enabled (Shop.sell shop) = true →
  JS.nth (Sell.list (Shop.sell shop)) index = Some item →
  Item.id item = itemId →
  JS.lt (JS.Num (Character.exp character)) (Item.expRequired item) = false →
  ItemManager.getTemplate G (Item.id item) = Some itemTemplate →
  Stats.price (Item.stats itemTemplate) * Sell.priceMultiplier (Shop.sell shop)
    ≤ Character.money character →
  Item.shopQuantity item = JS.Num 1 →
  Env.hasRoomForItem E character (ItemManager.instantiate G itemTemplate None None) = true →
  templated G (Sell.list (Shop.sell shop)) →
  ∃ inventory,
    Game.trace (Shop.buyItem E shop G user_id index itemId).2
    = Game.trace G
        ++ [UpdateClient (Character.user_id character);
            DispatchToUser (Character.user_id character)
              (GAME_EVENT "success"
                 ("You have purchased 1x " +:+ Item.name itemTemplate +:+ " for "
                  +:+ pretty (Stats.price (Item.stats itemTemplate)
                              * Sell.priceMultiplier (Shop.sell shop))) []);
            DispatchToRoom (Character.getLocationId character)
              (SHOP_UPDATE (Shop.id shop) inventory)]
    ∧ length inventory = length (Sell.list (Shop.sell shop))
    ∧ inventory !! Z.to_nat index
      = Some (Listing.mk (Item.id item) (Item.name item) (JS.Num 0) (Item.expRequired item)
                (Stats.price (Item.stats itemTemplate))).
Proof.
  intros Hc Hen Hnth Hid Hexp Htpl Hmoney Hq Hroom Hall.
  unfold Shop.buyItem. rewrite Hc, Hen, Hnth. cbn [negb].
  rewrite Hid, String.eqb_refl. cbn [negb]. rewrite Hexp. rewrite <- Hid, Htpl.
  destruct (Z.ltb_spec (Character.money character)
              (Stats.price (Item.stats itemTemplate)
               * Sell.priceMultiplier (Shop.sell shop))); [lia|].
  rewrite Hq. cbn [JS.lt JS.strict_eq Z.ltb Z.eqb Z.compare andb negb Pos.compare].
  rewrite (add_found _ _ _ _ _ Htpl), Hroom. cbn [negb].
  unfold Shop.buyCommit. rewrite Hq.
  cbn [JS.strict_eq JS.sub Item.shopQuantity Item.set_shopQuantity JS.le].
  change (1 - 1) with 0. change (1 =? -1) with false. change (0 =? -1) with false.
  change (0 <=? 0) with true. cbn [negb].
  apply nth_Some_nonneg in Hnth as [_ Hnth].
  match goal with
  | |- context [Shop.getSellList ?G' ?s] =>
      destruct (getSellList_templated G' s) as [inventory Hinv]
  end.
  { cbn. apply Forall_insert.
    - eapply templated_same_templates; [|exact Hall]. done.
    - cbn. eapply (Forall_lookup_1 _ _ _ _ Hall Hnth). }
  rewrite Hinv. exists inventory.
  unfold Shop.getSellList in Hinv. cbn in Hinv. rewrite Hen in Hinv. cbn [negb] in Hinv.
  apply mapM_Some_1 in Hinv.
  split; [|split].
  - cbn. by rewrite <- !app_assoc.
  - apply Forall2_length in Hinv. rewrite length_insert in Hinv. done.
  - assert (<[Z.to_nat index := Item.set_shopQuantity (JS.Num 0) item]>
              (Sell.list (Shop.sell shop)) !! Z.to_nat index
            = Some (Item.set_shopQuantity (JS.Num 0) item)) as Hsold.
    { apply list_lookup_insert_eq. by eapply lookup_lt_Some. }
    destruct (Forall2_lookup_l _ _ _ _ _ Hinv Hsold) as (row & Hrow & Hlisting).
    rewrite Hrow. f_equal.
    unfold Shop.toListing, ItemManager.getTemplate in Hlisting. cbn in Hlisting.
    unfold ItemManager.getTemplate in Htpl. rewrite Htpl in Hlisting. cbn in Hlisting.
    by injection Hlisting.
Qed.

(** ** Resupply *)

Lemma resupplyStep_appends E unique items totalItems l G items' totalItems' l' G' :
  Shop.resupplyStep E unique (items, totalItems, l, G) = Some (items', totalItems', l', G') →
  ∃ newItem, l' = l ++ [newItem].
Proof.
  unfold Shop.resupplyStep.
  destruct (JS.nth _ _) as [supplyItem|]; cbn; [|done].
  destruct (ItemManager.add _ _ _ _) as [[newItem|] G1]; [|done].
  destruct unique; intros [= <- <- <- <-]; eauto.
Qed.

Lemma resupplyLoop_appends E unique turns : ∀ items totalItems l G l' G',
  Shop.resupplyLoop E unique turns (items, totalItems, l, G) = (l', G', true) →
  ∃ news, l' = l ++ news ∧ length news = turns.
Proof.
  induction turns as [|turns IH]; intros items totalItems l G l' G' Hrun;
    cbn [Shop.resupplyLoop] in Hrun.
  - cbn in Hrun. injection Hrun as <- <-. exists []. by rewrite app_nil_r.
  - destruct (Shop.resupplyStep E unique (items, totalItems, l, G)) as [[[[items1 total1] l1] G1]|] eqn:Hstep; [|done].
    apply resupplyStep_appends in Hstep as [newItem ->].
    apply IH in Hrun as (news & -> & <-).
    exists (newItem :: news). by rewrite <- app_assoc.
Qed.

(** C4. A [resupply] pass that runs to its end keeps exactly the
    unlimited entries and appends new entries after them; their number is
    the turns of a loop counting from the drawn [itemsToAdd] down to 0
    inclusive, that is [itemsToAdd + 1], one more than the number drawn. *)
Theorem resupply_appends_one_more_than_drawn
    (E : Env.t) (shop shop' : Shop.t) (G G' : Game.t) (supply : Supply.t) :
  Shop.supply shop = Some supply →
  0 ≤ Shop.itemsToAdd E G supply →
  Shop.resupply E shop G = (shop', G', true) →
  ∃ news,
    Sell.list (Shop.sell shop')
    = filter Shop.unlimited (Sell.list (Shop.sell shop)) ++ news
    ∧ Z.of_nat (length news) = Shop.itemsToAdd E G supply + 1.
Proof.
  intros Hs Hn. unfold Shop.resupply. rewrite Hs.
  destruct (Shop.resupplyLoop _ _ _ _) as [[l1 G1] ok] eqn:Hloop.
  intros [= <- <- ->].
  apply resupplyLoop_appends in Hloop as (news & -> & Hlen).
  exists news. split; [done|]. rewrite Hlen. unfold Shop.turnsFrom. lia.
Qed.

Lemma resupply_appends_one_more_witness :
  ∃ news,
    Sell.list (Shop.sell (Shop.resupply Sample.roomy Sample.suppliedBakery Sample.world).1.1)
    = filter Shop.unlimited (Sell.list (Shop.sell Sample.suppliedBakery)) ++ news
    ∧ Z.of_nat (length news) = 2 + 1.
Proof.
  apply (resupply_appends_one_more_than_drawn Sample.roomy Sample.suppliedBakery _
           Sample.world (Shop.resupply Sample.roomy Sample.suppliedBakery Sample.world).1.2
           (Supply.mk [SupplyItem.mk "bread" (2, 4)] (2, 2) false));
    [reflexivity | by vm_compute | by vm_compute].
Defined.

(** ** Picking up by name *)

(** C5. [pickup] evaluated on a location holding a "Big Knife" with the
    query "knife": there is no exact match and the name does not begin with
    the query, yet the knife is found, returned and removed from the
    location: the second pass accepts the query anywhere in the name. *)
Theorem pickup_fallback_matches_inside_name :
  JS.toLowerCase (Item.name Sample.bigKnife) ≠ JS.toLowerCase "knife"
  ∧ String.prefix (JS.toLowerCase "knife") (JS.toLowerCase (Item.name Sample.bigKnife)) = false
  ∧ ItemManager.pickup Sample.world "city" 2 3 (Some "knife") JS.Undefined
    = (ItemManager.Object (Some Sample.bigKnife),
       ItemManager.setLocationList Sample.world "city" 2 3 []).
Proof. split; [|split]; by vm_compute. Qed.

(** ** Merging an instance into the sell list *)

Lemma strict_eq_minus_one (a : JS.num) :
  JS.strict_eq a (JS.Num (-1)) = true ↔ a = JS.Num (-1).
Proof.
  destruct a as [z| |]; cbn; try (split; discriminate).
  rewrite Z.eqb_eq. split; congruence.
Qed.

Lemma amountOr_one (amount : option Z) :
  Shop.amountOr amount (JS.Num 1)
  = match amount with
    | Some a => if a =? 0 then JS.Num 1 else JS.Num a
    | None => JS.Num 1
    end.
Proof.
  destruct amount as [a|]; [|done]. unfold Shop.amountOr, JS.or_else, JS.truthy.
  by destruct (a =? 0).
Qed.

Lemma sameButShopQuantity_set (q : JS.num) (e : Item.t) :
  sameButShopQuantity e (Item.set_shopQuantity q e).
Proof. by repeat split. Qed.

(** C6. Merging a non-stackable item into the sell list:
    - an entry with the same id and [shopQuantity] -1 exists: the list is
      unchanged (the instance is dropped);
    - else an entry with the same id and the same durability exists: the
      first such entry has its [shopQuantity] raised by 1 (the entry read
      back from the new list holds [q + 1] where it held [q], and is
      otherwise the same item), every other position is as it was, nothing
      is pushed;
    - else the instance is pushed at the end, and the pushed entry's
      [shopQuantity] reads the given amount, 1 when the amount is omitted
      (or 0, which [amount || 1] reads as omitted). *)
Theorem addToInventory_non_stackable
    (shop : Shop.t) (itemObj : Item.t) (amount : option Z) :
  Stats.stackable (Item.stats itemObj) = false →
  let l := Sell.list (Shop.sell shop) in
  let l' := Sell.list (Shop.sell (Shop.addToInventory shop itemObj amount)) in
  ((∃ obj, obj ∈ l ∧ Item.id obj = Item.id itemObj ∧ Item.shopQuantity obj = JS.Num (-1)) →
   l' = l)
  ∧ ((∀ obj, obj ∈ l →
        ¬ (Item.id obj = Item.id itemObj ∧ Item.shopQuantity obj = JS.Num (-1))) →
     (∃ obj, obj ∈ l ∧ Shop.sameIdAndDurability itemObj obj) →
     ∃ i e e',
       l !! i = Some e
       ∧ Shop.sameIdAndDurability itemObj e
       ∧ (∀ j y, l !! j = Some y → (j < i)%nat → ¬ Shop.sameIdAndDurability itemObj y)
       ∧ l' = <[i := Item.set_shopQuantity (JS.add (Item.shopQuantity e) (JS.Num 1)) e]> l
       ∧ length l' = length l
       ∧ l' !! i = Some e'
       ∧ Item.shopQuantity e' = JS.add (Item.shopQuantity e) (JS.Num 1)
       ∧ (∀ q, Item.shopQuantity e = JS.Num q → Item.shopQuantity e' = JS.Num (q + 1))
       ∧ sameButShopQuantity e e'
       ∧ (∀ j, j ≠ i → l' !! j = l !! j))
  ∧ ((∀ obj, obj ∈ l →
        ¬ (Item.id obj = Item.id itemObj ∧ Item.shopQuantity obj = JS.Num (-1))) →
     (∀ obj, obj ∈ l → ¬ Shop.sameIdAndDurability itemObj obj) →
     ∃ pushed,
       l' = l ++ [pushed]
       ∧ Item.shopQuantity pushed
         = match amount with
           | Some a => if a =? 0 then JS.Num 1 else JS.Num a
           | None => JS.Num 1
           end
       ∧ sameButShopQuantity itemObj pushed
       ∧ pushed = Item.set_shopQuantity
                    (match amount with
                     | Some a => if a =? 0 then JS.Num 1 else JS.Num a
                     | None => JS.Num 1
                     end) itemObj).
Proof.
  intros Hns. cbv zeta. unfold Shop.addToInventory. cbn [Shop.set_list Shop.sell Sell.list].
  unfold Shop.addToInventoryList. rewrite Hns.
  set (l := Sell.list (Shop.sell shop)).
  assert (∀ obj, Shop.sameIdUnlimited itemObj obj
                 ↔ Item.id obj = Item.id itemObj ∧ Item.shopQuantity obj = JS.Num (-1)) as Hun.
  { intros obj. unfold Shop.sameIdUnlimited. by rewrite strict_eq_minus_one. }
  destruct (list_find (Shop.sameIdUnlimited itemObj) l) as [[i0 e0]|] eqn:Hfind1.
  - apply list_find_Some in Hfind1 as (Hl0 & Hp0 & _).
    split; [done|].
    split; intros Hno; exfalso; eapply (Hno e0);
      [by eapply list_elem_of_lookup_2 | by apply Hun
      |by eapply list_elem_of_lookup_2 | by apply Hun].
  - apply list_find_None in Hfind1.
    split.
    { intros (obj & Hin & Hp). exfalso.
      eapply Forall_forall in Hfind1; [|exact Hin]. by apply Hfind1, Hun. }
    destruct (list_find (Shop.sameIdAndDurability itemObj) l) as [[i e]|] eqn:Hfind2.
    + apply list_find_Some in Hfind2 as (Hl & Hp & Hfirst).
      split.
      * intros _ _.
        exists i, e, (Item.set_shopQuantity (JS.add (Item.shopQuantity e) (JS.Num 1)) e).
        unfold Shop.bump. rewrite length_insert.
        split_and!;
          first [ done
                | by apply list_lookup_insert_eq; eapply lookup_lt_Some
                | by intros q Hq; cbn; rewrite Hq
                | apply sameButShopQuantity_set
                | by intros j Hj; apply list_lookup_insert_ne ].
      * intros _ Hno. exfalso. eapply (Hno e); [by eapply list_elem_of_lookup_2|done].
    + apply list_find_None in Hfind2.
      split.
      * intros _ (obj & Hin & Hp). exfalso.
        eapply Forall_forall in Hfind2; [|exact Hin]. by apply Hfind2.
      * intros _ _. rewrite amountOr_one. eexists. split; [done|].
        split; [done|]. split; [apply sameButShopQuantity_set|done].
Qed.

Lemma addToInventory_non_stackable_witness :
  ∃ pushed,
    Sell.list (Shop.sell (Shop.addToInventory Sample.bakery Sample.bigKnife None))
    = [Sample.breadEntry] ++ [pushed]
    ∧ Item.shopQuantity pushed = JS.Num 1
    ∧ sameButShopQuantity Sample.bigKnife pushed
    ∧ pushed = Item.set_shopQuantity (JS.Num 1) Sample.bigKnife.
Proof.
  apply (addToInventory_non_stackable Sample.bakery Sample.bigKnife None eq_refl).
  - intros obj Hin [Hid _]. apply list_elem_of_singleton in Hin. by rewrite Hin in Hid.
  - intros obj Hin [Hid _]. apply list_elem_of_singleton in Hin. by rewrite Hin in Hid.
Defined.

(** ** Stackable items: one entry per id *)

Lemma oneEntry_same_keys (l l' : list Item.t) :
  stackKey <$> l' = stackKey <$> l → oneEntryPerStackableId l → oneEntryPerStackableId l'.
Proof.
  intros Hk Hinv i j a b Hi Hj Hsa Hsb Hid.
  assert (∀ n e, l' !! n = Some e → ∃ e0, l !! n = Some e0 ∧ stackKey e0 = stackKey e) as Hback.
  { intros n e Hn.
    assert ((stackKey <$> l) !! n = Some (stackKey e)) as Hm.
    { rewrite <- Hk, list_lookup_fmap, Hn. done. }
    rewrite list_lookup_fmap in Hm. destruct (l !! n) as [e0|]; [|done].
    exists e0. split; [done|]. cbn in Hm. congruence. }
  destruct (Hback _ _ Hi) as (a0 & Ha0 & Hka). destruct (Hback _ _ Hj) as (b0 & Hb0 & Hkb).
  unfold stackKey in Hka, Hkb. injection Hka as Hia Hsa0. injection Hkb as Hib Hsb0.
  eapply (Hinv i j a0 b0); congruence.
Qed.

Lemma oneEntry_bump (l : list Item.t) i e n :
  l !! i = Some e → oneEntryPerStackableId l → oneEntryPerStackableId (Shop.bump i e n l).
Proof.
  intros Hi. apply oneEntry_same_keys. unfold Shop.bump.
  rewrite list_fmap_insert. apply list_insert_id. by rewrite list_lookup_fmap, Hi.
Qed.

Lemma oneEntry_push (l : list Item.t) x :
  (Stats.stackable (Item.stats x) = true →
   ∀ a, a ∈ l → Stats.stackable (Item.stats a) = true → Item.id a ≠ Item.id x) →
  oneEntryPerStackableId l → oneEntryPerStackableId (l ++ [x]).
Proof.
  intros Hfresh Hinv i j a b Hi Hj Hsa Hsb Hid.
  apply lookup_app_Some in Hi as [Hi | [Hli Hi]];
    apply lookup_app_Some in Hj as [Hj | [Hlj Hj]].
  - by eapply Hinv.
  - apply list_lookup_singleton_Some in Hj as [_ <-].
    exfalso. eapply (Hfresh Hsb a); eauto using list_elem_of_lookup_2.
  - apply list_lookup_singleton_Some in Hi as [_ <-].
    exfalso. eapply (Hfresh Hsa b); eauto using list_elem_of_lookup_2.
  - apply list_lookup_singleton_Some in Hi as [Hi _].
    apply list_lookup_singleton_Some in Hj as [Hj _]. lia.
Qed.

Lemma addToInventoryList_oneEntry (l : list Item.t) itemObj amount :
  oneEntryPerStackableId l → oneEntryPerStackableId (Shop.addToInventoryList l itemObj amount).
Proof.
  intros Hinv. unfold Shop.addToInventoryList.
  destruct (Stats.stackable (Item.stats itemObj)) eqn:Hst.
  - destruct (list_find (Shop.sameId itemObj) l) as [[i e]|] eqn:Hfind.
    + apply list_find_Some in Hfind as (Hl & _ & _). by apply oneEntry_bump.
    + apply list_find_None in Hfind. apply oneEntry_push; [|done].
      intros _ a Hin _ Hid. eapply Forall_forall in Hfind; [|exact Hin]. by apply Hfind.
  - destruct (list_find (Shop.sameIdUnlimited itemObj) l) as [[i0 e0]|]; [done|].
    destruct (list_find (Shop.sameIdAndDurability itemObj) l) as [[i e]|] eqn:Hfind.
    + apply list_find_Some in Hfind as (Hl & _ & _). by apply oneEntry_bump.
    + apply oneEntry_push; [|done]. cbn. by rewrite Hst.
Qed.

(** C10. Merging a stackable item into the sell list when an entry with
    the same id is already listed: nothing is pushed; the first such entry
    has its [shopQuantity] raised by the amount, which is the instance's
    durability when it is omitted: the entry read back from the new list
    holds [q + a] where it held [q], is otherwise the same item, and every
    other position is as it was.  And [addToInventory], for any item and
    amount, keeps the sell list at one entry per stackable item id. *)
Theorem addToInventory_stackable_merges
    (shop : Shop.t) (itemObj : Item.t) (amount : option Z) :
  Stats.stackable (Item.stats itemObj) = true →
  let l := Sell.list (Shop.sell shop) in
  let l' := Sell.list (Shop.sell (Shop.addToInventory shop itemObj amount)) in
  let given := match amount with
               | Some a => if a =? 0 then Stats.durability (Item.stats itemObj) else JS.Num a
               | None => Stats.durability (Item.stats itemObj)
               end in
  ((∃ obj, obj ∈ l ∧ Item.id obj = Item.id itemObj) →
   ∃ i e e',
     l !! i = Some e
     ∧ Item.id e = Item.id itemObj
     ∧ (∀ j y, l !! j = Some y → (j < i)%nat → Item.id y ≠ Item.id itemObj)
     ∧ l' = <[i := Item.set_shopQuantity (JS.add (Item.shopQuantity e) given) e]> l
     ∧ length l' = length l
     ∧ (∀ x, x ∈ l' → Item.fingerprint x ∈ Item.fingerprint <$> l)
     ∧ l' !! i = Some e'
     ∧ Item.shopQuantity e' = JS.add (Item.shopQuantity e) given
     ∧ (∀ q a, Item.shopQuantity e = JS.Num q → given = JS.Num a →
               Item.shopQuantity e' = JS.Num (q + a))
     ∧ sameButShopQuantity e e'
     ∧ (∀ j, j ≠ i → l' !! j = l !! j))
  ∧ (oneEntryPerStackableId l → oneEntryPerStackableId l')
  ∧ (∀ other amount',
       oneEntryPerStackableId l →
       oneEntryPerStackableId
         (Sell.list (Shop.sell (Shop.addToInventory shop other amount')))).
Proof.
  intros Hst. cbv zeta. unfold Shop.addToInventory. cbn [Shop.set_list Shop.sell Sell.list].
  split; [|split; [apply addToInventoryList_oneEntry
                  |intros other amount'; apply addToInventoryList_oneEntry]].
  intros (obj & Hin & Hid). unfold Shop.addToInventoryList. rewrite Hst.
  assert (Shop.amountOr amount (Stats.durability (Item.stats itemObj))
          = match amount with
            | Some a => if a =? 0 then Stats.durability (Item.stats itemObj) else JS.Num a
            | None => Stats.durability (Item.stats itemObj)
            end) as ->.
  { destruct amount as [a|]; [|done].
    unfold Shop.amountOr, JS.or_else, JS.truthy. by destruct (a =? 0). }
  destruct (list_find (Shop.sameId itemObj) (Sell.list (Shop.sell shop))) as [[i e]|] eqn:Hfind.
  - apply list_find_Some in Hfind as (Hl & Hp & Hfirst).
    eexists i, e, _. unfold Shop.bump. rewrite length_insert.
    assert (∀ x, x ∈ <[i := Item.set_shopQuantity
                               (JS.add (Item.shopQuantity e)
                                  match amount with
                                  | Some a =>
                                      if a =? 0 then Stats.durability (Item.stats itemObj)
                                      else JS.Num a
                                  | None => Stats.durability (Item.stats itemObj)
                                  end) e]> (Sell.list (Shop.sell shop)) →
                 Item.fingerprint x ∈ Item.fingerprint <$> Sell.list (Shop.sell shop)) as Hfp.
    { intros x Hx. apply list_elem_of_lookup in Hx as [j Hj].
      apply list_lookup_insert_Some in Hj as [(-> & <- & _) | (_ & Hj)]; cbn.
      - apply list_elem_of_fmap. exists e. split; [done|by eapply list_elem_of_lookup_2].
      - apply list_elem_of_fmap. exists x. split; [done|by eapply list_elem_of_lookup_2]. }
    split_and!;
      first [ done
            | by apply list_lookup_insert_eq; eapply lookup_lt_Some
            | by intros q a Hq Ha; cbn; rewrite Hq, Ha
            | apply sameButShopQuantity_set
            | by intros j Hj; apply list_lookup_insert_ne ].
  - apply list_find_None in Hfind. exfalso.
    eapply Forall_forall in Hfind; [|exact Hin]. by apply Hfind.
Qed.

Lemma addToInventory_stackable_witness :
  (∃ e',
     Sell.list (Shop.sell (Shop.addToInventory Sample.dealer Sample.herbStack None)) !! 1%nat
     = Some e'
     ∧ Item.shopQuantity e' = JS.Num (3 + 2)
     ∧ sameButShopQuantity Sample.herbEntry e')
  ∧ length (Sell.list (Shop.sell (Shop.addToInventory Sample.dealer Sample.herbStack None)))
    = 2%nat
  ∧ oneEntryPerStackableId
      (Sell.list (Shop.sell (Shop.addToInventory Sample.dealer Sample.herbStack None))).
Proof.
  destruct (addToInventory_stackable_merges Sample.dealer Sample.herbStack None eq_refl)
    as (Hmerge & Hinv & _).
  destruct Hmerge as (i & e & e' & Hi & Hid & Hfirst & _ & Hlen & _ & Hi' & _ & Hq & Hsame & _).
  { exists Sample.herbEntry. split; [|done]. apply list_elem_of_lookup. by exists 1%nat. }
  assert (i = 1%nat ∧ e = Sample.herbEntry) as [-> ->].
  { destruct i as [|[|i]]; cbn in Hi; [| |done].
    - injection Hi as <-. done.
    - by injection Hi as <-. }
  split; [|split].
  - exists e'. split; [done|]. split; [|done]. by apply Hq.
  - done.
  - apply Hinv.
    intros [|[|[|i]]] [|[|[|j]]] a b Ha Hb; cbn in Ha, Hb; try done;
      injection Ha as <-; injection Hb as <-; done.
Defined.

(** ** The chat gate *)

Lemma nonempty_length (s : string) : s ≠ EmptyString → (String.length s =? 0)%nat = false.
Proof. by destruct s. Qed.

Section ChatGate.
Context (E : Env.t).

(** C8. The chat cooldown gate, for a character the socket's user id
    resolves to.
    With ticks left on the 'chat' cooldown: [cmdSay] and [cmdGlobal] add
    one effect to the trace, which is not a CHAT_MESSAGE, and leave the
    cooldowns alone; for a non-empty message that effect is the error event
    to the character stating the wait.  [cmdWhisper] does exactly that.
    With the cooldown idle: the 'chat' cooldown is set to the configured
    default first, and the message is dispatched on the resulting state (to
    the room, to the server, or to the socket and then the target). *)
Theorem chat_cooldown_gate
    (G : Game.t) (socket : Socket.t) (u : string) (character : Character.t) :
  Socket.user socket = Some (Some u) →
  Game.characters G !! u = Some character →
  let ticks := CooldownManager.ticksLeft G character "chat" in
  let wait := Game.eventToUser (Character.user_id character) "error"
                (Commands.waitMessage ticks) G in
  let started := CooldownManager.add E G character "chat" None true in
  (ticks ≠ 0 →
     (∀ params,
        (∃ e, Game.trace (Commands.cmdSay E socket params G) = Game.trace G ++ [e]
              ∧ isChat e = false)
        ∧ Game.cooldowns (Commands.cmdSay E socket params G) = Game.cooldowns G
        ∧ (JS.trim (JS.join params) ≠ EmptyString → Commands.cmdSay E socket params G = wait))
     ∧ (∀ params,
          (∃ e, Game.trace (Commands.cmdGlobal E socket params G) = Game.trace G ++ [e]
                ∧ isChat e = false)
          ∧ Game.cooldowns (Commands.cmdGlobal E socket params G) = Game.cooldowns G
          ∧ (JS.trim (JS.join params) ≠ EmptyString →
             Commands.cmdGlobal E socket params G = wait))
     ∧ (∀ whisperTarget message,
          Commands.cmdWhisper E socket character whisperTarget message G = wait)
     ∧ Game.trace wait
       = Game.trace G
           ++ [DispatchToUser (Character.user_id character)
                 (GAME_EVENT "error" (Commands.waitMessage ticks) [])])
  ∧ (ticks = 0 →
     Game.trace started
     = Game.trace G
         ++ [CooldownAdd (Character.user_id character) "chat" (Env.cooldownDefault E "chat")]
     ∧ CooldownManager.ticksLeft started character "chat" = Env.cooldownDefault E "chat"
     ∧ (∀ params,
          JS.trim (JS.join params) ≠ EmptyString →
          Commands.cmdSay E socket params G
          = Game.emit (DispatchToRoom (Character.getLocationId character)
                         (CHAT_MESSAGE
                            (Chat.mk "local" (Character.user_id character)
                               (Character.name character) (JS.trim (JS.join params)))))
              started)
     ∧ (∀ params,
          JS.trim (JS.join params) ≠ EmptyString →
          Commands.cmdGlobal E socket params G
          = Game.emit (DispatchToServer
                         (CHAT_MESSAGE
                            (Chat.mk "global" (Character.user_id character)
                               (Character.name character) (JS.join params))))
              started)
     ∧ (∀ whisperTarget message,
          Commands.cmdWhisper E socket character whisperTarget message G
          = Game.emit (DispatchToUser (Character.user_id whisperTarget)
                         (CHAT_MESSAGE
                            (Chat.mk "whisper-in" (Character.user_id character)
                               (Character.name character) message)))
              (Game.emit (DispatchToSocket (Socket.sid socket)
                            (CHAT_MESSAGE
                               (Chat.mk "whisper-out" (Character.user_id whisperTarget)
                                  (Character.name whisperTarget) message)))
                 started))).
Proof.
  intros Hu Hc. cbv zeta. split.
  - intros Hticks. apply Z.eqb_neq in Hticks.
    assert (∀ k, Commands.checkChatCooldown E character G k
                 = Game.eventToUser (Character.user_id character) "error"
                     (Commands.waitMessage (CooldownManager.ticksLeft G character "chat")) G)
      as Hgate.
    { intros k. unfold Commands.checkChatCooldown. by rewrite Hticks. }
    repeat split.
    + unfold Commands.cmdSay, Commands.withCharacter.
      destruct (_ =? _)%nat; [by eexists|]. rewrite Hu. cbn. rewrite Hc, Hgate. by eexists.
    + unfold Commands.cmdSay, Commands.withCharacter.
      destruct (_ =? _)%nat; [done|]. rewrite Hu. cbn. by rewrite Hc, Hgate.
    + intros Hne. unfold Commands.cmdSay, Commands.withCharacter.
      rewrite (nonempty_length _ Hne), Hu. cbn. by rewrite Hc, Hgate.
    + unfold Commands.cmdGlobal, Commands.withCharacter.
      destruct (_ =? _)%nat; [by eexists|]. rewrite Hu. cbn. rewrite Hc, Hgate. by eexists.
    + unfold Commands.cmdGlobal, Commands.withCharacter.
      destruct (_ =? _)%nat; [done|]. rewrite Hu. cbn. by rewrite Hc, Hgate.
    + intros Hne. unfold Commands.cmdGlobal, Commands.withCharacter.
      rewrite (nonempty_length _ Hne), Hu. cbn. by rewrite Hc, Hgate.
    + intros whisperTarget message. unfold Commands.cmdWhisper. apply Hgate.
  - intros Hticks.
    assert (∀ k, Commands.checkChatCooldown E character G k
                 = k (CooldownManager.add E G character "chat" None true)) as Hgate.
    { intros k. unfold Commands.checkChatCooldown. by rewrite Hticks. }
    repeat split.
    + unfold CooldownManager.ticksLeft. cbn. by rewrite lookup_insert_eq.
    + intros params Hne. unfold Commands.cmdSay, Commands.withCharacter.
      rewrite (nonempty_length _ Hne), Hu. cbn. by rewrite Hc, Hgate.
    + intros params Hne. unfold Commands.cmdGlobal, Commands.withCharacter.
      rewrite (nonempty_length _ Hne), Hu. cbn. by rewrite Hc, Hgate.
    + intros whisperTarget message. unfold Commands.cmdWhisper. by rewrite Hgate.
Qed.

End ChatGate.

Lemma chat_cooldown_gate_witness :
  Commands.cmdSay Sample.roomy Sample.phone ["hello"; "there"] Sample.mutedWorld
  = Game.eventToUser "u1" "error"
      "You must wait another 1.5 seconds before you can send another message."
      Sample.mutedWorld
  ∧ Game.trace (Commands.cmdSay Sample.roomy Sample.phone ["hello"; "there"] Sample.world)
    = [CooldownAdd "u1" "chat" 30;
       DispatchToRoom "city_3_2" (CHAT_MESSAGE (Chat.mk "local" "u1" "Al" "hello there"))].
Proof.
  split.
  - destruct (chat_cooldown_gate Sample.roomy Sample.mutedWorld Sample.phone "u1" Sample.actor
                eq_refl eq_refl) as [Hactive _].
    destruct Hactive as (Hsay & _); [by vm_compute|].
    destruct (Hsay ["hello"; "there"]) as (_ & _ & Hwait).
    rewrite Hwait; [reflexivity|by vm_compute].
  - destruct (chat_cooldown_gate Sample.roomy Sample.world Sample.phone "u1" Sample.actor
                eq_refl eq_refl) as [_ Hidle].
    destruct Hidle as (_ & _ & Hsay & _); [reflexivity|].
    rewrite (Hsay ["hello"; "there"]); [reflexivity|by vm_compute].
Defined.

(** ** Sessions *)

Lemma foldl_emit (f : Socket.t → Effect) (l : list Socket.t) : ∀ G,
  Game.trace (foldl (λ G c, Game.emit (f c) G) G l) = Game.trace G ++ (f <$> l)
  ∧ Game.clients (foldl (λ G c, Game.emit (f c) G) G l) = Game.clients G.
Proof.
  induction l as [|c l IH]; intros G; cbn [foldl].
  - by rewrite app_nil_r.
  - destruct (IH (Game.emit (f c) G)) as [-> ->]. cbn. by rewrite <- app_assoc.
Qed.

Lemma logoutOutSession_trace G socket user_id :
  Game.trace (SocketManager.logoutOutSession G socket user_id)
  = Game.trace G
      ++ (SocketManager.remoteLogout
            <$> filter (SocketManager.otherSession socket user_id) (Game.clients G)).
Proof. unfold SocketManager.logoutOutSession. cbn. apply foldl_emit. Qed.

Lemma logoutOutSession_clients G socket user_id :
  Game.clients (SocketManager.logoutOutSession G socket user_id)
  = filter (λ c, ¬ SocketManager.otherSession socket user_id c) (Game.clients G).
Proof.
  unfold SocketManager.logoutOutSession. cbn.
  by rewrite (proj2 (foldl_emit _ _ _)).
Qed.

Lemma establish_clients E socket user_id G :
  Game.clients (UserManager.establish E socket user_id G)
  = ((λ c, if decide (Socket.sid c = Socket.sid socket)
           then Socket.mk (Socket.sid socket) (Some user_id) else c)
       <$> filter (λ c, ¬ SocketManager.otherSession socket user_id c) (Game.clients G))
    ++ [Socket.mk (Socket.sid socket) (Some user_id)].
Proof.
  unfold UserManager.establish, SocketManager.tag, SocketManager.add.
  cbn -[SocketManager.logoutOutSession]. by rewrite logoutOutSession_clients.
Qed.

Lemma establish_trace E socket user_id G :
  Game.trace (UserManager.establish E socket user_id G)
  = Game.trace G
      ++ (SocketManager.remoteLogout
            <$> filter (SocketManager.otherSession socket user_id) (Game.clients G))
      ++ [DispatchToSocket (Socket.sid socket) (USER_AUTHENTICATE_SUCCESS (Env.mapList E))].
Proof.
  unfold UserManager.establish, SocketManager.tag, SocketManager.add.
  cbn -[SocketManager.logoutOutSession]. by rewrite logoutOutSession_trace, <- app_assoc.
Qed.

(** Who is registered after [establish]: the socket itself, under the new
    tag, or a client that was registered before, is another socket, and
    carries another tag. *)
Lemma establish_client_inv E socket user_id G c :
  c ∈ Game.clients (UserManager.establish E socket user_id G) →
  c = Socket.mk (Socket.sid socket) (Some user_id)
  ∨ (c ∈ Game.clients G ∧ Socket.sid c ≠ Socket.sid socket ∧ Socket.user c ≠ Some user_id).
Proof.
  rewrite establish_clients. intros Hin.
  apply elem_of_app in Hin as [Hin | Hin]; [|apply list_elem_of_singleton in Hin; auto].
  apply list_elem_of_fmap in Hin as (c0 & -> & Hin0).
  apply list_elem_of_filter in Hin0 as [Hnot Hin0].
  destruct (decide (Socket.sid c0 = Socket.sid socket)) as [Heq|Hne]; [auto|].
  right. split; [done|]. split; [done|]. intros Hu. apply Hnot. by split.
Qed.

Lemma establish_oneSession E socket user_id G :
  oneSessionPerAccount (Game.clients G) →
  oneSessionPerAccount (Game.clients (UserManager.establish E socket user_id G)).
Proof.
  intros Hinv c1 c2 u Hin1 Hin2 Hu1 Hu2.
  apply establish_client_inv in Hin1 as [-> | (Hin1 & Hs1 & Ht1)];
    apply establish_client_inv in Hin2 as [-> | (Hin2 & Hs2 & Ht2)].
  - done.
  - cbn in Hu1. congruence.
  - cbn in Hu2. congruence.
  - by eapply Hinv.
Qed.

Lemma authenticate_oneSession E socket payload G :
  oneSessionPerAccount (Game.clients G) →
  oneSessionPerAccount (Game.clients (UserManager.authenticate E socket payload G)).
Proof.
  intros Hinv. unfold UserManager.authenticate.
  destruct payload as [[|ch token]|]; try done.
  destruct (Env.jwtVerify E _) as [decoded|]; [|done].
  destruct (Env.findOneAsync E _ _) as [[user_id|]|]; [| done |];
    by apply establish_oneSession.
Qed.

Lemma oneSession_among (l l' : list Socket.t) :
  (∀ c, c ∈ l' → c ∈ l) → oneSessionPerAccount l → oneSessionPerAccount l'.
Proof. intros Hsub Hinv c1 c2 u Hin1 Hin2. apply Hinv; by apply Hsub. Qed.

(** A request that nothing interrupts: its three turns of the event loop
    add up to [authenticate]. *)
Lemma run_one_request E socket payload G :
  EventLoop.run E [EventLoop.Request socket payload; EventLoop.Settled 0; EventLoop.Settled 0]
    (G, [])
  = (UserManager.authenticate E socket payload G, []).
Proof.
  unfold EventLoop.run, UserManager.authenticate. cbn [foldl EventLoop.turn fst snd].
  unfold UserManager.start.
  destruct payload as [[|ch token]|]; try done.
  destruct (Env.jwtVerify E _) as [decoded|]; [|done].
  cbn -[SocketManager.logoutOutSession].
  destruct (Env.findOneAsync E _ _) as [[user_id|]|]; done.
Qed.

(** The client list at the two [await]s of a request that nothing
    interrupts: untouched at the first, thinned out at the second. *)
Lemma run_request_started E socket payload G :
  Game.clients (EventLoop.run E [EventLoop.Request socket payload] (G, [])).1
  = Game.clients G.
Proof.
  unfold EventLoop.run, UserManager.start. cbn [foldl EventLoop.turn fst snd].
  unfold UserManager.start.
  destruct payload as [[|ch token]|]; try done.
  by destruct (Env.jwtVerify E _).
Qed.

Lemma run_request_looked_up E socket payload G c :
  c ∈ Game.clients
        (EventLoop.run E [EventLoop.Request socket payload; EventLoop.Settled 0] (G, [])).1 →
  c ∈ Game.clients G.
Proof.
  unfold EventLoop.run. cbn [foldl EventLoop.turn fst snd]. unfold UserManager.start.
  destruct payload as [[|ch token]|]; try done.
  destruct (Env.jwtVerify E _) as [decoded|]; [|done].
  cbn -[SocketManager.logoutOutSession].
  destruct (Env.findOneAsync E _ _) as [[user_id|]|]; cbn [fst]; [|done|];
    rewrite logoutOutSession_clients; intros Hin;
    by apply list_elem_of_filter in Hin as [_ Hin].
Qed.

Lemma run_oneByOne_oneSession E requests : ∀ n G,
  oneSessionPerAccount (Game.clients G) →
  oneSessionPerAccount
    (Game.clients (EventLoop.run E (take n (EventLoop.oneByOne requests)) (G, [])).1).
Proof.
  induction requests as [|[socket payload] requests IH]; intros n G Hinv.
  - change (EventLoop.oneByOne []) with (@nil EventLoop.Turn). by rewrite take_nil.
  - change (EventLoop.oneByOne ((socket, payload) :: requests))
      with (EventLoop.Request socket payload :: EventLoop.Settled 0 :: EventLoop.Settled 0
              :: EventLoop.oneByOne requests).
    destruct n as [|[|[|n]]].
    + done.
    + change (take 1 _) with [EventLoop.Request socket payload].
      by rewrite run_request_started.
    + change (take 2 _) with [EventLoop.Request socket payload; EventLoop.Settled 0].
      eapply oneSession_among; [apply run_request_looked_up|done].
    + change (take (S (S (S n))) _)
        with ([EventLoop.Request socket payload; EventLoop.Settled 0; EventLoop.Settled 0]
                ++ take n (EventLoop.oneByOne requests)).
      unfold EventLoop.run. rewrite foldl_app.
      fold (EventLoop.run E
              [EventLoop.Request socket payload; EventLoop.Settled 0; EventLoop.Settled 0]
              (G, [])).
      rewrite run_one_request. apply IH. by apply authenticate_oneSession.
Qed.

Section Sessions.
Context (E : Env.t).

(** X26. One session per account, for requests that do not overlap.  When
    [authenticate] succeeds (the token verifies and the user record is
    found) and nothing else runs at its [await]s, the sessions of that user
    on other sockets are logged out first: at the second [await] each of
    them has been sent the remote-logout action and none is registered,
    and the socket has not been tagged or added yet; only in the next turn
    is the socket tagged with the user id and appended to the active
    clients, and told of the success.  Afterwards every registered client tagged with that user
    id is this socket.  The one-session-per-account property of the client
    list holds after every turn of the event loop when requests are served
    one by one. *)
Theorem authenticate_one_by_one_keeps_one_session
    (socket : Socket.t) (token : string) (decoded : string * string) (user_id : string)
    (G : Game.t) :
  token ≠ EmptyString →
  Env.jwtVerify E token = Some decoded →
  Env.findOneAsync E decoded.1 decoded.2 = Some (Some user_id) →
  let prior := filter (SocketManager.otherSession socket (Some user_id)) (Game.clients G) in
  let G1 := SocketManager.logoutOutSession G socket (Some user_id) in
  let tagged := Socket.mk (Socket.sid socket) (Some (Some user_id)) in
  let G' := UserManager.authenticate E socket (Some token) G in
  Game.trace G1 = Game.trace G ++ (SocketManager.remoteLogout <$> prior)
  ∧ (∀ c, c ∈ prior → c ∉ Game.clients G1)
  ∧ (∀ c, c ∈ Game.clients G1 → c ∈ Game.clients G)
  ∧ G' = Game.emit (DispatchToSocket (Socket.sid socket)
                      (USER_AUTHENTICATE_SUCCESS (Env.mapList E)))
           (SocketManager.add (SocketManager.tag socket (Some user_id) G1).2 tagged)
  ∧ Game.trace G'
    = Game.trace G ++ (SocketManager.remoteLogout <$> prior)
        ++ [DispatchToSocket (Socket.sid socket) (USER_AUTHENTICATE_SUCCESS (Env.mapList E))]
  ∧ tagged ∈ Game.clients G'
  ∧ (∀ c, c ∈ Game.clients G' → Socket.user c = Some (Some user_id) →
          Socket.sid c = Socket.sid socket)
  ∧ (oneSessionPerAccount (Game.clients G) → oneSessionPerAccount (Game.clients G'))
  ∧ EventLoop.run E [EventLoop.Request socket (Some token); EventLoop.Settled 0] (G, [])
    = (G1, [UserManager.AwaitLogout socket (Some user_id)])
  ∧ EventLoop.run E [EventLoop.Settled 0] (G1, [UserManager.AwaitLogout socket (Some user_id)])
    = (G', [])
  ∧ (∀ requests n G0, oneSessionPerAccount (Game.clients G0) →
       oneSessionPerAccount
         (Game.clients (EventLoop.run E (take n (EventLoop.oneByOne requests)) (G0, [])).1)).
Proof.
  intros Htoken Hjwt Hfind. cbv zeta.
  assert (UserManager.authenticate E socket (Some token) G
          = UserManager.establish E socket (Some user_id) G) as Hauth.
  { unfold UserManager.authenticate. destruct token; [done|]. by rewrite Hjwt, Hfind. }
  rewrite Hauth. split_and!.
  - apply logoutOutSession_trace.
  - intros c Hprior Hin. rewrite logoutOutSession_clients in Hin.
    apply list_elem_of_filter in Hin as [Hnot _].
    apply list_elem_of_filter in Hprior as [Hother _]. done.
  - intros c Hin. rewrite logoutOutSession_clients in Hin.
    by apply list_elem_of_filter in Hin as [_ Hin].
  - done.
  - apply establish_trace.
  - rewrite establish_clients. apply elem_of_app. right. by apply list_elem_of_singleton.
  - intros c Hin Hu. apply establish_client_inv in Hin as [-> | (_ & _ & Hne)]; done.
  - apply establish_oneSession.
  - unfold EventLoop.run. cbn [foldl EventLoop.turn fst snd]. unfold UserManager.start.
    destruct token; [done|]. rewrite Hjwt.
    cbn -[SocketManager.logoutOutSession]. by rewrite Hfind.
  - done.
  - intros requests n G0. apply run_oneByOne_oneSession.
Qed.

End Sessions.

Lemma authenticate_one_by_one_witness :
  Game.trace (UserManager.authenticate Sample.trusting Sample.laptop (Some "t")
                Sample.onlineWorld)
  = [DispatchToSocket 1 CHARACTER_REMOTE_LOGOUT;
     DispatchToSocket 2 (USER_AUTHENTICATE_SUCCESS ["city"])]
  ∧ Game.clients (UserManager.authenticate Sample.trusting Sample.laptop (Some "t")
                    Sample.onlineWorld)
    = [Socket.mk 2 (Some (Some "u1"))].
Proof.
  destruct (authenticate_one_by_one_keeps_one_session Sample.trusting Sample.laptop "t"
              ("u1", "s1") "u1" Sample.onlineWorld)
    as (_ & _ & _ & _ & Htrace & _); [done | reflexivity | reflexivity |].
  split; [by rewrite Htrace | reflexivity].
Defined.

(** C9. Two [authenticate] requests for one account in flight at once,
    from two sockets, nobody being connected.  Both reach their first
    [await] before either user lookup comes back; each then calls
    [logoutOutSession] while the other socket is not registered yet, and
    is suspended again; at that point no client is registered and nobody
    has been logged out.  Then both go on: both sockets end up tagged with
    the same user id and registered, no remote-logout action was sent, and
    the client list holds two sessions of one account. *)
Theorem authenticate_overlapping_requests_register_twice :
  let turns := [EventLoop.Request Sample.laptop (Some "t");
                EventLoop.Request Sample.tablet (Some "t");
                EventLoop.Settled 0; EventLoop.Settled 0;
                EventLoop.Settled 0; EventLoop.Settled 0] in
  EventLoop.run Sample.trusting (take 4 turns) (Sample.world, [])
  = (Sample.world,
     [UserManager.AwaitLogout Sample.laptop (Some "u1");
      UserManager.AwaitLogout Sample.tablet (Some "u1")])
  ∧ let '(G', suspended) := EventLoop.run Sample.trusting turns (Sample.world, []) in
    suspended = []
    ∧ Game.clients G' = [Socket.mk 2 (Some (Some "u1")); Socket.mk 3 (Some (Some "u1"))]
    ∧ Game.trace G'
      = [DispatchToSocket 2 (USER_AUTHENTICATE_SUCCESS ["city"]);
         DispatchToSocket 3 (USER_AUTHENTICATE_SUCCESS ["city"])]
    ∧ ¬ oneSessionPerAccount (Game.clients G').
Proof.
  cbv zeta. split; [by vm_compute|].
  destruct (EventLoop.run _ _ _) as [G' suspended] eqn:Hrun.
  vm_compute in Hrun. injection Hrun as <- <-.
  split_and!; try reflexivity.
  intros Hinv.
  specialize (Hinv (Socket.mk 2 (Some (Some "u1"))) (Socket.mk 3 (Some (Some "u1"))) "u1").
  cbn in Hinv.
  discriminate Hinv; [set_solver | set_solver | done | done].
Qed.

(** ** Picking up by name: what does hold *)

Lemma prefix_self (s : string) : String.prefix s s = true.
Proof.
  induction s as [|a s IH]; [done|]. cbn. by destruct (Ascii.ascii_dec a a).
Qed.

Lemma indexOf_self (s : string) : JS.indexOf s s = Some 0%nat.
Proof.
  unfold JS.indexOf. destruct s as [|a s]; [done|].
  cbn [String.index]. by rewrite prefix_self.
Qed.

(** X24. An exact case-insensitive match wins over the fallback pass, and
    the first such item is the one resolved. *)
Lemma findByName_exact_match_first (l : list Item.t) (itemName : string) i e :
  l !! i = Some e →
  JS.toLowerCase (Item.name e) = JS.toLowerCase itemName →
  (∀ j y, l !! j = Some y → (j < i)%nat →
          JS.toLowerCase (Item.name y) ≠ JS.toLowerCase itemName) →
  ItemManager.findByName l itemName = Some (i, e).
Proof.
  intros Hl He Hfirst. unfold ItemManager.findByName.
  assert (list_find (ItemManager.exactName (JS.toLowerCase itemName)) l = Some (i, e)) as ->;
    [|done].
  apply list_find_Some. done.
Qed.

(** X23. When no name at the location contains the query, [pickup]
    answers "Item not found" and leaves the game as it was. *)
Lemma pickup_not_found_removes_nothing (G : Game.t) map_id x y c r amount :
  let itemName := String c r in
  ItemManager.getLocationList G map_id x y ≠ [] →
  (∀ obj, obj ∈ ItemManager.getLocationList G map_id x y →
          JS.indexOf (JS.toLowerCase (Item.name obj)) (JS.toLowerCase itemName) = None) →
  ItemManager.pickup G map_id x y (Some itemName) amount
  = (ItemManager.Message "Item not found", G).
Proof.
  intros itemName Hne Hnone. unfold ItemManager.pickup.
  destruct (ItemManager.getLocationList G map_id x y) as [|first rest] eqn:Hlist; [done|].
  unfold itemName, ItemManager.findByName.
  assert (list_find (ItemManager.containsName (JS.toLowerCase (String c r))) (first :: rest)
          = None) as Hsub.
  { apply list_find_None, Forall_forall. intros obj Hin Hc. by apply Hc, Hnone. }
  assert (list_find (ItemManager.exactName (JS.toLowerCase (String c r))) (first :: rest)
          = None) as Hexact.
  { apply list_find_None, Forall_forall. intros obj Hin Hex.
    specialize (Hnone obj Hin). unfold ItemManager.exactName in Hex.
    unfold itemName in Hnone. rewrite Hex, indexOf_self in Hnone. done. }
  by rewrite Hexact, Hsub.
Qed.

(** * Further properties of the modelled code *)

(** ** Ground items: drop and pickup *)

Lemma getLocationList_set G map_id x y l :
  ItemManager.getLocationList (ItemManager.setLocationList G map_id x y l) map_id x y = l.
Proof.
  unfold ItemManager.getLocationList, ItemManager.setLocationList. cbn.
  by rewrite lookup_insert_eq.
Qed.

Lemma oneEntry_delete (l : list Item.t) (i : nat) :
  oneEntryPerStackableId l → oneEntryPerStackableId (delete i l).
Proof.
  intros Hinv a b ea eb Ha Hb Hsa Hsb Hid.
  destruct (decide (a < i)%nat) as [Hai|Hai]; destruct (decide (b < i)%nat) as [Hbi|Hbi].
  - rewrite list_lookup_delete_lt in Ha, Hb by done. by eapply Hinv.
  - rewrite list_lookup_delete_lt in Ha by done. rewrite list_lookup_delete_ge in Hb by lia.
    pose proof (Hinv _ _ _ _ Ha Hb Hsa Hsb Hid). lia.
  - rewrite list_lookup_delete_ge in Ha by lia. rewrite list_lookup_delete_lt in Hb by done.
    pose proof (Hinv _ _ _ _ Ha Hb Hsa Hsb Hid). lia.
  - rewrite list_lookup_delete_ge in Ha, Hb by lia.
    pose proof (Hinv _ _ _ _ Ha Hb Hsa Hsb Hid). lia.
Qed.

Lemma oneEntry_nil : oneEntryPerStackableId [].
Proof. intros i j a b Hi. done. Qed.

Lemma oneEntry_set_durability (l : list Item.t) i e d :
  l !! i = Some e → oneEntryPerStackableId l →
  oneEntryPerStackableId (<[i := Item.set_durability d e]> l).
Proof.
  intros Hi. apply oneEntry_same_keys.
  rewrite list_fmap_insert. apply list_insert_id. by rewrite list_lookup_fmap, Hi.
Qed.

(** What [pickup] does, in terms of the entry it resolves. *)
Lemma pickup_target G map_id x y itemName amount :
  ItemManager.pickup G map_id x y itemName amount
  = let l := ItemManager.getLocationList G map_id x y in
    match l with
    | [] => (ItemManager.Message "No items at the location", G)
    | _ :: _ =>
        match pickupTarget l itemName with
        | None => (ItemManager.Message "Item not found", G)
        | Some (i, e) =>
            if (negb (Stats.stackable (Item.stats e))
                || JS.le (Stats.durability (Item.stats e)) amount)%bool
            then (ItemManager.Object (Some e),
                  ItemManager.setLocationList G map_id x y (delete i l))
            else
              let G1 := ItemManager.setLocationList G map_id x y
                          (<[i := Item.set_durability
                                    (JS.sub (Stats.durability (Item.stats e)) amount) e]> l) in
              (ItemManager.Object (ItemManager.add G1 (Item.id e) (Some amount) None).1,
               (ItemManager.add G1 (Item.id e) (Some amount) None).2)
        end
    end.
Proof.
  unfold ItemManager.pickup, pickupTarget. cbv zeta.
  destruct (ItemManager.getLocationList G map_id x y) as [|first rest]; [done|].
  match goal with |- context [match ?f with Some _ => _ | None => _ end] => destruct f as [[i e]|] end;
    [|done].
  destruct (Stats.stackable (Item.stats e)); cbn [negb orb]; [|done].
  destruct (JS.le _ _); [done|].
  by destruct (ItemManager.add _ _ _ _).
Qed.

Lemma pickupTarget_lookup l itemName i e :
  pickupTarget l itemName = Some (i, e) → l !! i = Some e.
Proof.
  unfold pickupTarget. destruct l as [|first rest]; [done|].
  assert (∀ q, ItemManager.findByName (first :: rest) q = Some (i, e) →
               (first :: rest) !! i = Some e) as Hfind.
  { intros q. unfold ItemManager.findByName.
    destruct (list_find (ItemManager.exactName _) _) as [[i1 e1]|] eqn:H1.
    - intros [= <- <-]. by apply list_find_Some in H1 as [? _].
    - intros H2. by apply list_find_Some in H2 as [? _]. }
  destruct itemName as [[|c r]|]; try (intros [= <- <-]; done). apply Hfind.
Qed.

Lemma add_keeps_ground G itemId modifiers dbId :
  Game.dropped_items (ItemManager.add G itemId modifiers dbId).2 = Game.dropped_items G.
Proof. unfold ItemManager.add. by destruct (ItemManager.getTemplate G itemId). Qed.

(** The game after [drop] and after [pickup]: the location's list is
    replaced, or nothing on the ground changes. *)
Lemma drop_ground G map_id x y itemObject :
  Game.dropped_items (ItemManager.drop G map_id x y itemObject).2
  = <[gridId map_id x y := (ItemManager.drop G map_id x y itemObject).1]>
      (Game.dropped_items G).
Proof. done. Qed.

Lemma pickup_ground G map_id x y itemName amount :
  Game.dropped_items (ItemManager.pickup G map_id x y itemName amount).2
  = Game.dropped_items G
  ∨ ∃ i e, pickupTarget (ItemManager.getLocationList G map_id x y) itemName = Some (i, e)
      ∧ (Game.dropped_items (ItemManager.pickup G map_id x y itemName amount).2
         = <[gridId map_id x y := delete i (ItemManager.getLocationList G map_id x y)]>
             (Game.dropped_items G)
         ∨ ∃ d, Game.dropped_items (ItemManager.pickup G map_id x y itemName amount).2
                = <[gridId map_id x y :=
                      <[i := Item.set_durability d e]>
                        (ItemManager.getLocationList G map_id x y)]>
                    (Game.dropped_items G)).
Proof.
  rewrite pickup_target. cbv zeta.
  destruct (ItemManager.getLocationList G map_id x y) as [|first rest] eqn:Hl; [by left|].
  destruct (pickupTarget _ _) as [[i e]|]; [|by left].
  right. exists i, e. split; [done|].
  destruct (_ || _)%bool; [by left|].
  right. cbn [snd]. rewrite add_keeps_ground. eexists. done.
Qed.

(** X1. Dropping a stackable item where an item with its id already
    lies: nothing is appended; the first such entry has the dropped
    quantity added to its own, and the location keeps its length. *)
Theorem drop_stackable_merges_into_existing
    (G : Game.t) (map_id : string) (x y : Z) (itemObject : Item.t) :
  Stats.stackable (Item.stats itemObject) = true →
  (∃ obj, obj ∈ ItemManager.getLocationList G map_id x y ∧ Item.id obj = Item.id itemObject) →
  let l := ItemManager.getLocationList G map_id x y in
  let '(l', G') := ItemManager.drop G map_id x y itemObject in
  ∃ i e,
    l !! i = Some e
    ∧ Item.id e = Item.id itemObject
    ∧ (∀ j o, l !! j = Some o → (j < i)%nat → Item.id o ≠ Item.id itemObject)
    ∧ l' = <[i := Item.set_durability
                    (JS.add (Stats.durability (Item.stats e))
                       (Stats.durability (Item.stats itemObject))) e]> l
    ∧ length l' = length l
    ∧ ItemManager.getLocationList G' map_id x y = l'.
Proof.
  intros Hst (obj & Hin & Hid). cbv zeta. unfold ItemManager.drop.
  cbn [Item.stats Item.set_db_id Item.id]. rewrite Hst.
  destruct (list_find _ _) as [[i e]|] eqn:Hfind.
  - apply list_find_Some in Hfind as (Hl & Hp & Hfirst).
    exists i, e. rewrite length_insert, getLocationList_set. done.
  - apply list_find_None in Hfind. exfalso.
    eapply Forall_forall in Hfind; [|exact Hin]. by apply Hfind.
Qed.

Lemma drop_stackable_merges_witness :
  (ItemManager.drop
     (ItemManager.setLocationList Sample.world "city" 2 3 [Sample.bigKnife; Sample.herbEntry])
     "city" 2 3 Sample.herbStack).1
  = [Sample.bigKnife; Item.set_durability (JS.Num 3) Sample.herbEntry].
Proof.
  pose proof (drop_stackable_merges_into_existing
                (ItemManager.setLocationList Sample.world "city" 2 3
                   [Sample.bigKnife; Sample.herbEntry])
                "city" 2 3 Sample.herbStack eq_refl) as H.
  cbv zeta in H.
  destruct (ItemManager.drop _ _ _ _ _) as [l' G'] eqn:Hd.
  destruct H as (i & e & _ & _ & _ & _ & _ & _).
  { exists Sample.herbEntry. split; [|reflexivity]. by vm_compute; repeat constructor. }
  injection Hd as <- _. reflexivity.
Defined.

Lemma ground_list_invariant G map_id x y :
  groundInvariant G →
  unowned (ItemManager.getLocationList G map_id x y)
  ∧ oneEntryPerStackableId (ItemManager.getLocationList G map_id x y).
Proof.
  intros Hinv. unfold ItemManager.getLocationList.
  destruct (Game.dropped_items G !! gridId map_id x y) as [l|] eqn:Hl; cbn.
  - by eapply Hinv.
  - split; [constructor|apply oneEntry_nil].
Qed.

Lemma groundInvariant_insert G G' k l :
  Game.dropped_items G' = <[k := l]> (Game.dropped_items G) →
  unowned l → oneEntryPerStackableId l →
  groundInvariant G → groundInvariant G'.
Proof.
  intros Heq Hu Ho Hinv k' l' Hl'. rewrite Heq in Hl'.
  destruct (decide (k = k')) as [<-|Hne].
  - rewrite lookup_insert_eq in Hl'. by injection Hl' as <-.
  - rewrite lookup_insert_ne in Hl' by done. by eapply Hinv.
Qed.

Lemma drop_keeps_invariant G map_id x y itemObject :
  groundInvariant G → groundInvariant (ItemManager.drop G map_id x y itemObject).2.
Proof.
  intros Hinv. destruct (ground_list_invariant G map_id x y Hinv) as [Hu Ho].
  eapply groundInvariant_insert; [apply drop_ground| | |done];
    unfold ItemManager.drop; cbn [fst Item.stats Item.set_db_id Item.id].
  - destruct (Stats.stackable _).
    + destruct (list_find _ _) as [[i e]|] eqn:Hfind.
      * apply list_find_Some in Hfind as (Hl & _ & _).
        apply Forall_insert; [done|]. cbn. by eapply (Forall_lookup_1 _ _ _ _ Hu Hl).
      * apply Forall_app. split; [done|]. by repeat constructor.
    + apply Forall_app. split; [done|]. by repeat constructor.
  - destruct (Stats.stackable (Item.stats itemObject)) eqn:Hst.
    + destruct (list_find _ _) as [[i e]|] eqn:Hfind.
      * apply list_find_Some in Hfind as (Hl & _ & _). by apply oneEntry_set_durability.
      * apply list_find_None in Hfind. apply oneEntry_push; [|done].
        intros _ a Hin _ Hid. eapply Forall_forall in Hfind; [|exact Hin]. by apply Hfind.
    + apply oneEntry_push; [|done]. cbn. by rewrite Hst.
Qed.

Lemma pickup_keeps_invariant G map_id x y itemName amount :
  groundInvariant G → groundInvariant (ItemManager.pickup G map_id x y itemName amount).2.
Proof.
  intros Hinv. destruct (ground_list_invariant G map_id x y Hinv) as [Hu Ho].
  destruct (pickup_ground G map_id x y itemName amount)
    as [Heq | (i & e & Ht & [Heq | [d Heq]])].
  - intros k l Hl. rewrite Heq in Hl. by eapply Hinv.
  - eapply groundInvariant_insert; [exact Heq| | |done].
    + by apply Forall_delete.
    + by apply oneEntry_delete.
  - apply pickupTarget_lookup in Ht.
    eapply groundInvariant_insert; [exact Heq| | |done].
    + apply Forall_insert; [done|]. cbn. by eapply (Forall_lookup_1 _ _ _ _ Hu Ht).
    + by apply oneEntry_set_durability.
Qed.

(** X2. Whatever is dropped and picked up, in any order and anywhere:
    no item lying on the ground carries a database key, and no location
    holds two stackable entries of the same item id, provided that was so
    before (as it is when nothing lies on the ground). *)
Theorem ground_items_stay_unowned_and_stacked (G : Game.t) (ops : list GroundOp) :
  groundInvariant G → groundInvariant (groundRun G ops).
Proof.
  revert G. induction ops as [|op ops IH]; intros G Hinv; [done|].
  cbn [groundRun foldl]. apply IH. destruct op as [m x y it | m x y n a]; cbn [groundStep].
  - by apply drop_keeps_invariant.
  - by apply pickup_keeps_invariant.
Qed.

Lemma ground_items_stay_unowned_witness :
  groundInvariant
    (groundRun (Game.set_dropped_items ∅ Sample.world)
       [Drop "city" 2 3 (Item.set_db_id (Some "db1") Sample.herbStack);
        Drop "city" 2 3 Sample.herbStack;
        Pickup "city" 2 3 (Some "herb") (JS.Num 1)]).
Proof.
  apply ground_items_stay_unowned_and_stacked.
  intros k l Hl. cbn in Hl. by rewrite lookup_empty in Hl.
Defined.

(** X3. The other locations are out of reach: [drop] and [pickup] at one
    grid key leave the list under every other key as it was, and neither
    touches characters, cooldowns, clients or the trace. *)
Theorem ground_ops_touch_one_location (G : Game.t) (op : GroundOp) (k : string) :
  k ≠ match op with
      | Drop map_id x y _ => gridId map_id x y
      | Pickup map_id x y _ _ => gridId map_id x y
      end →
  Game.dropped_items (groundStep G op) !! k = Game.dropped_items G !! k
  ∧ Game.characters (groundStep G op) = Game.characters G
  ∧ Game.cooldowns (groundStep G op) = Game.cooldowns G
  ∧ Game.clients (groundStep G op) = Game.clients G
  ∧ Game.trace (groundStep G op) = Game.trace G.
Proof.
  intros Hk. destruct op as [m x y it | m x y n a]; cbn [groundStep].
  - split; [|done]. rewrite drop_ground. by rewrite lookup_insert_ne.
  - split.
    + destruct (pickup_ground G m x y n a) as [-> | (i & e & _ & [-> | [d ->]])];
        [done| |]; by rewrite lookup_insert_ne.
    + rewrite pickup_target. cbv zeta.
      destruct (ItemManager.getLocationList G m x y); [done|].
      destruct (pickupTarget _ _) as [[i e]|]; [|done].
      destruct (_ || _)%bool; [done|]. cbn [snd]. unfold ItemManager.add.
      by destruct (ItemManager.getTemplate _ _).
Qed.

Lemma ground_ops_touch_one_location_witness :
  Game.dropped_items (groundStep Sample.world (Drop "city" 5 5 Sample.herbStack))
    !! gridId "city" 2 3
  = Some [Sample.bigKnife].
Proof.
  destruct (ground_ops_touch_one_location Sample.world (Drop "city" 5 5 Sample.herbStack)
              (gridId "city" 2 3)) as [-> _]; [by vm_compute|reflexivity].
Defined.

(** X4. Round trip on the ground: a non-stackable item dropped where no
    item bears its name (case-insensitively) is the one [pickup] returns
    for that name, with its database key and inventory slot cleared, and
    the location is left as it was before the drop. *)
Theorem drop_then_pickup_by_name_returns_item
    (G : Game.t) (map_id : string) (x y : Z) (item : Item.t) (c : ascii) (r : string)
    (amount : JS.num) :
  Item.name item = String c r →
  Stats.stackable (Item.stats item) = false →
  (∀ obj, obj ∈ ItemManager.getLocationList G map_id x y →
          JS.toLowerCase (Item.name obj) ≠ JS.toLowerCase (Item.name item)) →
  let G1 := (ItemManager.drop G map_id x y item).2 in
  let back := ItemManager.pickup G1 map_id x y (Some (Item.name item)) amount in
  back.1 = ItemManager.Object (Some (Item.set_inventorySlot None (Item.set_db_id None item)))
  ∧ ItemManager.getLocationList back.2 map_id x y = ItemManager.getLocationList G map_id x y.
Proof.
  intros Hname Hns Hfresh. cbv zeta.
  set (l := ItemManager.getLocationList G map_id x y) in *.
  set (item' := Item.set_inventorySlot None (Item.set_db_id None item)).
  assert (ItemManager.drop G map_id x y item
          = (l ++ [item'], ItemManager.setLocationList G map_id x y (l ++ [item']))) as ->.
  { unfold ItemManager.drop. cbn [Item.stats Item.set_db_id]. by rewrite Hns. }
  cbn [snd]. rewrite pickup_target. cbv zeta. rewrite getLocationList_set.
  assert (pickupTarget (l ++ [item']) (Some (Item.name item)) = Some (length l, item')) as Ht.
  { unfold pickupTarget. destruct (l ++ [item']) as [|first rest] eqn:Hl.
    { by destruct l. }
    rewrite Hname, <- Hl. unfold ItemManager.findByName.
    rewrite list_find_app_r.
    - cbn. rewrite decide_True; [|unfold ItemManager.exactName; cbn; by rewrite Hname].
      done.
    - apply list_find_None, Forall_forall. intros obj Hin Hex.
      apply (Hfresh obj Hin). unfold ItemManager.exactName in Hex. by rewrite Hex, Hname. }
  destruct (l ++ [item']) as [|first rest] eqn:Hl; [by destruct l|].
  rewrite Ht. assert (Stats.stackable (Item.stats item') = false) as -> by done.
  cbn [negb orb fst snd]. split; [done|].
  rewrite getLocationList_set, <- Hl. by rewrite (delete_middle l []), app_nil_r.
Qed.

Lemma drop_then_pickup_witness :
  (ItemManager.pickup (ItemManager.drop Sample.world "city" 7 7 Sample.bigKnife).2
     "city" 7 7 (Some "Big Knife") JS.Undefined).1
  = ItemManager.Object (Some Sample.bigKnife).
Proof.
  refine (proj1 (drop_then_pickup_by_name_returns_item Sample.world "city" 7 7
                   Sample.bigKnife "B" "ig Knife" JS.Undefined eq_refl eq_refl _)).
  intros obj Hin. by apply elem_of_nil in Hin.
Defined.

(** X5. Picking up from a stack of [d] units, [a] being asked for: with
    [d <= a] the whole entry is returned and leaves the location; with
    [a < d] (and the template known) the ground entry stays, now with
    [d - a] units, and a fresh instance of the same item with [a] units and
    no database key is returned: no unit is lost or made.  The code does
    not ask [a] to be positive. *)
Theorem pickup_splits_stack
    (G : Game.t) (map_id : string) (x y : Z) (itemName : option string)
    (i : nat) (e : Item.t) (d a : Z) :
  pickupTarget (ItemManager.getLocationList G map_id x y) itemName = Some (i, e) →
  Stats.stackable (Item.stats e) = true →
  Stats.durability (Item.stats e) = JS.Num d →
  let l := ItemManager.getLocationList G map_id x y in
  let r := ItemManager.pickup G map_id x y itemName (JS.Num a) in
  (d ≤ a →
   r.1 = ItemManager.Object (Some e)
   ∧ ItemManager.getLocationList r.2 map_id x y = delete i l)
  ∧ (a < d →
     ∀ template, ItemManager.getTemplate G (Item.id e) = Some template →
     ∃ picked,
       r.1 = ItemManager.Object (Some picked)
       ∧ Item.id picked = Item.id template
       ∧ Stats.durability (Item.stats picked) = JS.Num a
       ∧ Item._id picked = None
       ∧ ItemManager.getLocationList r.2 map_id x y
         = <[i := Item.set_durability (JS.Num (d - a)) e]> l).
Proof.
  intros Ht Hst Hd. cbv zeta. rewrite pickup_target. cbv zeta.
  destruct (ItemManager.getLocationList G map_id x y) as [|first rest] eqn:Hl; [done|].
  rewrite Ht, Hst, Hd. cbn [negb orb JS.le JS.sub]. split.
  - intros Hle. apply Z.leb_le in Hle. rewrite Hle. cbn [fst snd].
    by rewrite getLocationList_set.
  - intros Hlt template Htpl. apply Z.leb_gt in Hlt. rewrite Hlt.
    rewrite (add_found _ _ _ _ template); [|done]. cbn [fst snd].
    eexists. split; [done|]. repeat split.
    unfold ItemManager.getLocationList, ItemManager.setLocationList. cbn.
    by rewrite lookup_insert_eq.
Qed.

Lemma pickup_splits_stack_witness :
  ∃ picked,
    (ItemManager.pickup Field.world "city" 2 3 None (JS.Num 2)).1
    = ItemManager.Object (Some picked)
    ∧ Stats.durability (Item.stats picked) = JS.Num 2.
Proof.
  destruct (pickup_splits_stack Field.world "city" 2 3 None 0 Field.herbPile 5 2)
    as [_ Hsplit]; [by vm_compute | reflexivity | reflexivity |].
  destruct (Hsplit ltac:(lia) Sample.herbTemplate) as (picked & Hp & _ & Hd & _);
    [by vm_compute|].
  exists picked. by split.
Defined.

(** ** Looking a template up by name *)

Lemma indexOf_zero_prefix (s sub : string) :
  JS.indexOf s sub = Some 0%nat ↔ String.prefix sub s = true.
Proof.
  unfold JS.indexOf. destruct s as [|b s'].
  - destruct sub; cbn; split; done.
  - cbn [String.index]. destruct (String.prefix sub (String b s')); [done|].
    destruct (String.index 0 sub s'); split; done.
Qed.

(** X6. [getTemplateByName] answers with a template of the catalogue
    whose lower-cased name begins with the lower-cased query; it prefers one
    whose name is the query, when there is one; and it answers [null]
    exactly when no template's name begins with the query.  (So "knife"
    does not find "Big Knife" here, unlike in [pickup].) *)
Theorem getTemplateByName_matches_prefix
    (G : Game.t) (keys : list string) (itemName : string) :
  (∀ t, ItemManager.getTemplateByName G keys itemName = Some t →
     (∃ k, k ∈ keys ∧ Game.templates G !! k = Some t)
     ∧ String.prefix (JS.toLowerCase itemName) (JS.toLowerCase (Item.name t)) = true
     ∧ ((∃ k t', k ∈ keys ∧ Game.templates G !! k = Some t'
                ∧ JS.toLowerCase (Item.name t') = JS.toLowerCase itemName) →
        JS.toLowerCase (Item.name t) = JS.toLowerCase itemName))
  ∧ (ItemManager.getTemplateByName G keys itemName = None ↔
     ∀ k t, k ∈ keys → Game.templates G !! k = Some t →
       String.prefix (JS.toLowerCase itemName) (JS.toLowerCase (Item.name t)) = false).
Proof.
  unfold ItemManager.getTemplateByName. cbv zeta.
  set (visited := omap (λ itemId, Game.templates G !! itemId) keys).
  set (q := JS.toLowerCase itemName).
  assert (∀ t, t ∈ visited ↔ ∃ k, k ∈ keys ∧ Game.templates G !! k = Some t) as Hvis.
  { intros t. unfold visited. by rewrite list_elem_of_omap. }
  destruct (list_find (ItemManager.exactName q) visited) as [[i1 t1]|] eqn:H1.
  - apply list_find_Some in H1 as (Hl1 & Hex1 & _).
    apply list_elem_of_lookup_2 in Hl1. unfold ItemManager.exactName in Hex1.
    split.
    + intros t [= <-]. split; [by apply Hvis|]. split; [|done].
      rewrite Hex1. apply prefix_self.
    + split; [done|]. intros Hnone. apply Hvis in Hl1 as (k & Hk & Ht).
      specialize (Hnone k t1 Hk Ht). rewrite Hex1, prefix_self in Hnone. done.
  - apply list_find_None in H1.
    destruct (list_find (ItemManager.beginsWithName q) visited) as [[i2 t2]|] eqn:H2.
    + apply list_find_Some in H2 as (Hl2 & Hb2 & _).
      apply list_elem_of_lookup_2 in Hl2. apply indexOf_zero_prefix in Hb2.
      split.
      * intros t [= <-]. split; [by apply Hvis|]. split; [done|].
        intros (k & t' & Hk & Ht' & Hex). exfalso.
        assert (t' ∈ visited) as Hin by (apply Hvis; eauto).
        eapply Forall_forall in H1; [|exact Hin]. by apply H1.
      * split; [done|]. intros Hnone. apply Hvis in Hl2 as (k & Hk & Ht).
        specialize (Hnone k t2 Hk Ht). congruence.
    + apply list_find_None in H2. split; [done|]. split; [|done].
      intros _ k t Hk Ht.
      assert (t ∈ visited) as Hin by (apply Hvis; eauto).
      eapply Forall_forall in H2; [|exact Hin].
      destruct (String.prefix q (JS.toLowerCase (Item.name t))) eqn:Hp; [|done].
      exfalso. apply H2. by apply indexOf_zero_prefix.
Qed.

(** ** Buying: outcomes *)

Lemma buyCommit_outcome shop G key character i item itemTemplate itemToAdd price :
  let r := Shop.buyCommit shop G key character i item itemTemplate itemToAdd price in
  Game.characters r.2
  = <[key := Character.giveItem itemToAdd 1 (Character.updateCash (price * -1) character)]>
      (Game.characters G)
  ∧ ∃ tail,
      appended G r.2
        ([UpdateClient (Character.user_id character);
          DispatchToUser (Character.user_id character)
            (GAME_EVENT "success"
               ("You have purchased 1x " +:+ Item.name itemTemplate +:+ " for "
                +:+ pretty price) [])] ++ tail)
      ∧ (tail = [] ∨ tail = [LoggerError]
         ∨ ∃ inventory, tail = [DispatchToRoom (Character.getLocationId character)
                                  (SHOP_UPDATE (Shop.id shop) inventory)]).
Proof.
  cbv zeta. unfold Shop.buyCommit, appended.
  set (item' := if negb (JS.strict_eq (Item.shopQuantity item) (JS.Num (-1)))
                then Item.set_shopQuantity (JS.sub (Item.shopQuantity item) (JS.Num 1)) item
                else item).
  destruct (negb (JS.strict_eq (Item.shopQuantity item') (JS.Num (-1))));
    [destruct (Shop.getSellList _ _) as [inventory|]|];
    try destruct (JS.le (Item.shopQuantity item') (JS.Num 0));
    (split; [done|]); eexists;
    (split; [cbn; rewrite <- ?app_assoc; cbn; reflexivity|]);
    first [ by left | by right; left | right; right; by eexists ].
Qed.

(** Every way [buyItem] can end. *)
Lemma buyItem_outcome E shop G user_id index itemId :
  let r := Shop.buyItem E shop G user_id index itemId in
  (r.1 = shop
   ∧ Game.characters r.2 = Game.characters G
   ∧ (appended G r.2 [LoggerError]
      ∨ ∃ message, appended G r.2 [DispatchToUser user_id (GAME_EVENT "error" message [])]))
  ∨ ∃ character item itemTemplate,
      let price := Stats.price (Item.stats itemTemplate)
                   * Sell.priceMultiplier (Shop.sell shop) in
      let itemToAdd := ItemManager.instantiate G itemTemplate None None in
      Game.characters G !! user_id = Some character
      ∧ Sell.enabled (Shop.sell shop) = true
      ∧ 0 ≤ index
      ∧ Sell.list (Shop.sell shop) !! Z.to_nat index = Some item
      ∧ Item.id item = itemId
      ∧ ItemManager.getTemplate G (Item.id item) = Some itemTemplate
      ∧ price ≤ Character.money character
      ∧ Env.hasRoomForItem E character itemToAdd = true
      ∧ r = Shop.buyCommit shop (Game.set_uuids (S (Game.uuids G)) G) user_id character
              (Z.to_nat index) item itemTemplate itemToAdd price.
Proof.
  cbv zeta. unfold Shop.buyItem, appended.
  destruct (Game.characters G !! user_id) as [character|] eqn:Hc; [|left; auto].
  destruct (Sell.enabled (Shop.sell shop)) eqn:Hen; cbn [negb]; [|left; eauto 6].
  destruct (JS.nth _ index) as [item|] eqn:Hnth; [|left; eauto 6].
  apply nth_Some_nonneg in Hnth as [Hpos Hnth].
  destruct (String.eqb_spec (Item.id item) itemId) as [Hid|Hid]; cbn [negb]; [|left; eauto 6].
  destruct (JS.lt (JS.Num _) _); [left; eauto 6|].
  destruct (ItemManager.getTemplate _ _) as [itemTemplate|] eqn:Htpl; [|left; eauto 6].
  destruct (Z.ltb_spec (Character.money character)
              (Stats.price (Item.stats itemTemplate)
               * Sell.priceMultiplier (Shop.sell shop))) as [Hm|Hm]; [left; eauto 6|].
  destruct (_ && _)%bool; [left; eauto 6|].
  rewrite (add_found _ _ _ _ _ Htpl).
  destruct (Env.hasRoomForItem E character _) eqn:Hroom; cbn [negb]; [|left; eauto 6].
  right. exists character, item, itemTemplate. done.
Qed.


Lemma buyItem_solvent E shop G user_id index itemId :
  solvent G → solvent (Shop.buyItem E shop G user_id index itemId).2.
Proof.
  intros Hsolv.
  pose proof (buyItem_outcome E shop G user_id index itemId) as H. cbv zeta in H.
  destruct H as [(_ & Hchars & _) | (character & item & itemTemplate & Hc & _ & _ & _ & _ & _
                                     & Hm & _ & Heq)].
  - intros u c Hu. rewrite Hchars in Hu. by eapply Hsolv.
  - rewrite Heq.
    match goal with
    | |- solvent (Shop.buyCommit ?s ?g ?k ?c ?i ?it ?tp ?ia ?p).2 =>
        destruct (buyCommit_outcome s g k c i it tp ia p) as [Hchars _]
    end.
    intros u c Hu. rewrite Hchars in Hu. cbn in Hu.
    destruct (decide (user_id = u)) as [<-|Hne].
    + rewrite lookup_insert_eq in Hu. injection Hu as <-. cbn.
      specialize (Hsolv _ _ Hc). lia.
    + rewrite lookup_insert_ne in Hu by done. by eapply Hsolv.
Qed.

(** X8. No sequence of purchases puts anyone in debt: if every
    character's cash is at least 0, it still is after any calls of
    [buyItem], whatever the prices and multipliers. *)
Theorem purchases_never_overdraw
    (E : Env.t) (calls : list (string * Z * string)) (shop : Shop.t) (G : Game.t) :
  solvent G → solvent (buyItems E calls shop G).2.
Proof.
  revert shop G. induction calls as [|[[user_id index] itemId] calls IH]; intros shop G Hs.
  - done.
  - cbn [buyItems].
    destruct (Shop.buyItem E shop G user_id index itemId) as [shop1 G1] eqn:Hstep.
    apply IH. change G1 with (shop1, G1).2. rewrite <- Hstep. by apply buyItem_solvent.
Qed.

Lemma purchases_never_overdraw_witness :
  solvent (buyItems Sample.roomy [("u1", 0, "bread"); ("u1", 0, "bread")]
             Sample.bakery Sample.world).2.
Proof.
  apply purchases_never_overdraw.
  intros u c Hu. unfold Sample.world in Hu. cbn in Hu.
  apply lookup_singleton_Some in Hu as [_ <-]. by vm_compute.
Defined.

(** X9. Buying from an unlimited entry ([shopQuantity] -1), all checks
    passed: the buyer is debited and served, the entry keeps its -1, no
    SHOP_UPDATE is sent, and the entry is spliced out of the sell list all
    the same, since -1 passes the closing [shopQuantity <= 0] test. *)
Theorem buyItem_unlimited_entry_is_spliced
    (E : Env.t) (shop : Shop.t) (G : Game.t) (user_id : string) (index : Z) (itemId : string)
    (character : Character.t) (item itemTemplate : Item.t) :
  Game.characters G !! user_id = Some character →
  Sell.enabled (Shop.sell shop) = true →
  JS.nth (Sell.list (Shop.sell shop)) index = Some item →
  Item.id item = itemId →
  JS.lt (JS.Num (Character.exp character)) (Item.expRequired item) = false →
  ItemManager.getTemplate G (Item.id item) = Some itemTemplate →
  Stats.price (Item.stats itemTemplate) * Sell.priceMultiplier (Shop.sell shop)
    ≤ Character.money character →
  Item.shopQuantity item = JS.Num (-1) →
  Env.hasRoomForItem E character (ItemManager.instantiate G itemTemplate None None) = true →
  let '(shop', G') := Shop.buyItem E shop G user_id index itemId in
  Sell.list (Shop.sell shop') = delete (Z.to_nat index) (Sell.list (Shop.sell shop))
  ∧ appended G G'
      [UpdateClient (Character.user_id character);
       DispatchToUser (Character.user_id character)
         (GAME_EVENT "success"
            ("You have purchased 1x " +:+ Item.name itemTemplate +:+ " for "
             +:+ pretty (Stats.price (Item.stats itemTemplate)
                         * Sell.priceMultiplier (Shop.sell shop))) [])]
  ∧ Character.money <$> Game.characters G' !! user_id
    = Some (Character.money character
            - Stats.price (Item.stats itemTemplate) * Sell.priceMultiplier (Shop.sell shop)).
Proof.
  intros Hc Hen Hnth Hid Hexp Htpl Hmoney Hq Hroom.
  unfold Shop.buyItem. rewrite Hc, Hen, Hnth. cbn [negb].
  rewrite Hid, String.eqb_refl. cbn [negb]. rewrite Hexp. rewrite <- Hid, Htpl.
  destruct (Z.ltb_spec (Character.money character)
              (Stats.price (Item.stats itemTemplate)
               * Sell.priceMultiplier (Shop.sell shop))); [lia|].
  rewrite Hq. cbn [JS.lt JS.strict_eq]. change (-1 =? -1) with true.
  rewrite andb_false_r. rewrite (add_found _ _ _ _ _ Htpl), Hroom. cbn [negb].
  unfold Shop.buyCommit, appended. rewrite Hq. cbn [JS.strict_eq].
  change (-1 =? -1) with true. cbn [negb]. rewrite Hq. cbn [JS.strict_eq JS.le].
  change (-1 =? -1) with true. change (-1 <=? 0) with true. cbn [negb].
  split_and!.
  - cbn. apply delete_insert_same.
  - cbn. by rewrite <- app_assoc.
  - cbn. rewrite lookup_insert_eq. cbn. f_equal. lia.
Qed.

Lemma buyItem_unlimited_entry_is_spliced_witness :
  let '(shop', G') := Shop.buyItem Sample.roomy Endless.bakery Sample.world "u1" 0 "bread" in
  Sell.list (Shop.sell shop') = delete (Z.to_nat 0) (Sell.list (Shop.sell Endless.bakery))
  ∧ appended Sample.world G'
      [UpdateClient "u1";
       DispatchToUser "u1" (GAME_EVENT "success" "You have purchased 1x Bread for 5" [])]
  ∧ Character.money <$> Game.characters G' !! "u1" = Some (10 - 5 * 1).
Proof.
  apply (buyItem_unlimited_entry_is_spliced Sample.roomy Endless.bakery Sample.world "u1" 0
           "bread" Sample.actor Endless.breadEntry Sample.breadTemplate);
    first [reflexivity | by vm_compute].
Defined.

(** ** Removing an item from an inventory *)

Lemma spliceFlagged_clean (l : list Item.t) : unflagged l → ItemManager.spliceFlagged l = l.
Proof.
  induction 1 as [|o l Ho _ IH]; [done|]. cbn. by rewrite Ho, IH.
Qed.

Lemma spliceFlagged_one (l : list Item.t) (i : nat) (o : Item.t) :
  unflagged l → (i < length l)%nat → Item.remove o = true →
  ItemManager.spliceFlagged (<[i := o]> l) = delete i l.
Proof.
  intros Hl. revert i. induction Hl as [|a l Ha Hl IH]; intros i Hi Ho; [cbn in Hi; lia|].
  destruct i as [|i]; cbn.
  - rewrite Ho. destruct l as [|b l]; [done|].
    apply Forall_cons in Hl as [Hb Hl]. by rewrite (spliceFlagged_clean l Hl).
  - rewrite Ha. f_equal. apply IH; [cbn in Hi; lia|done].
Qed.

(** X10. [remove(character, item)] on an inventory in which nothing
    else is flagged takes out exactly that item at once, keeping the others
    in order, and leaves cash and experience alone.  Of the storage layer it
    only asks for the item's record, and only when the item has a database
    key; nothing is deleted during the call.  The record is deleted when
    the query has settled, and only if it came back with the record: on
    [null] and on a rejected query [Game.onError] is called instead.  The
    characters are not touched again then. *)
Theorem remove_takes_out_exactly_the_item
    (G : Game.t) (character : Character.t) (index : nat) (item : Item.t) :
  Character.inventory character !! index = Some item →
  unflagged (Character.inventory character) →
  let '(character', G') := ItemManager.remove G character index in
  Character.inventory character' = delete index (Character.inventory character)
  ∧ Character.money character' = Character.money character
  ∧ Character.exp character' = Character.exp character
  ∧ appended G G' (match Item._id item with Some key => [DbFind key] | None => [] end)
  ∧ Game.characters G' = Game.characters G
  ∧ ∀ key answer later,
      Item._id item = Some key →
      let settled := ItemManager.removeSettled key answer later in
      Game.characters settled = Game.characters later
      ∧ (answer = ItemManager.Document → appended later settled [DbRemove key])
      ∧ (answer ≠ ItemManager.Document → appended later settled [OnErrorDetached]).
Proof.
  intros Hi Hclean. unfold ItemManager.remove, appended. rewrite Hi.
  assert (ItemManager.spliceFlagged (<[index := Item.destroy item]> (Character.inventory character))
          = delete index (Character.inventory character)) as Hs.
  { apply spliceFlagged_one; [done| by eapply lookup_lt_Some |done]. }
  assert (∀ key answer later,
            let settled := ItemManager.removeSettled key answer later in
            Game.characters settled = Game.characters later
            ∧ (answer = ItemManager.Document →
               Game.trace settled = Game.trace later ++ [DbRemove key])
            ∧ (answer ≠ ItemManager.Document →
               Game.trace settled = Game.trace later ++ [OnErrorDetached])) as Hsettled.
  { intros key answer later. by destruct answer. }
  destruct (Item._id item); cbn; rewrite Hs; split_and!;
    first [done | by rewrite app_nil_r | by intros key answer later _; apply Hsettled].
Qed.

Lemma remove_takes_out_witness :
  let '(character', G') := ItemManager.remove Sample.world Locker.owner 0 in
  Character.inventory character' = delete 0%nat (Character.inventory Locker.owner)
  ∧ Character.money character' = Character.money Locker.owner
  ∧ Character.exp character' = Character.exp Locker.owner
  ∧ appended Sample.world G'
      (match Item._id Locker.storedKnife with Some key => [DbFind key] | None => [] end)
  ∧ Game.characters G' = Game.characters Sample.world
  ∧ ∀ key answer later,
      Item._id Locker.storedKnife = Some key →
      let settled := ItemManager.removeSettled key answer later in
      Game.characters settled = Game.characters later
      ∧ (answer = ItemManager.Document → appended later settled [DbRemove key])
      ∧ (answer ≠ ItemManager.Document → appended later settled [OnErrorDetached]).
Proof.
  apply (remove_takes_out_exactly_the_item Sample.world Locker.owner 0 Locker.storedKnife);
    [reflexivity|]. by repeat constructor.
Defined.

(** ** Selling: outcomes *)

Lemma sellItem_reaches_commit shop G user_id fingerprint character index item :
  Game.characters G !! user_id = Some character →
  Buy.enabled (Shop.buy shop) = true →
  firstWithFingerprint (Character.inventory character) fingerprint index item →
  wanted shop item →
  (Stats.stackable (Item.stats item) = false
   ∨ JS.lt (Stats.durability (Item.stats item)) (JS.Num 1) = false) →
  Shop.sellItem shop G user_id fingerprint
  = Shop.sellCommit shop G user_id character index item.
Proof.
  intros Hc Hen (Hl & Hfp & Hfirst) (Hlist & Htype & Hsub) Hstock.
  unfold Shop.sellItem. rewrite Hc, Hen. cbn [negb].
  assert (list_find (λ obj, Item.fingerprint obj = fingerprint) (Character.inventory character)
          = Some (index, item)) as -> by by apply list_find_Some.
  assert ((negb (bool_decide (Buy.list (Shop.buy shop) = []))
           && negb (bool_decide (Item.id item ∈ Buy.list (Shop.buy shop))))%bool = false) as ->.
  { destruct Hlist as [Hl0|Hin].
    - by rewrite (bool_decide_eq_true_2 _ Hl0).
    - by rewrite (bool_decide_eq_true_2 _ Hin), andb_false_r. }
  rewrite (bool_decide_eq_false_2 _ Htype), (bool_decide_eq_false_2 _ Hsub). cbn [orb].
  assert ((Stats.stackable (Item.stats item)
           && JS.lt (Stats.durability (Item.stats item)) (JS.Num 1))%bool = false) as ->.
  { destruct Hstock as [-> | ->]; [done|by rewrite andb_false_r]. }
  done.
Qed.

(** X11. A sale of a non-stackable item that the shop wants: the item
    leaves the inventory (the others keep their order), the seller is
    credited the template price times the buy multiplier, gains 2
    experience exactly when the item's subtype is "drug", and is sent the
    success event, then the client update, then at most the room
    broadcast.  With [resell] the very instance is merged into the sell
    list by [addToInventory]; without, the shop is unchanged. *)
Theorem sellItem_non_stackable_sale
    (shop : Shop.t) (G : Game.t) (user_id : string) (fingerprint : nat)
    (character : Character.t) (index : nat) (item itemTemplate : Item.t) :
  Game.characters G !! user_id = Some character →
  Buy.enabled (Shop.buy shop) = true →
  firstWithFingerprint (Character.inventory character) fingerprint index item →
  wanted shop item →
  Stats.stackable (Item.stats item) = false →
  ItemManager.getTemplate G (Item.id item) = Some itemTemplate →
  let price := Stats.price (Item.stats itemTemplate) * Buy.priceMultiplier (Shop.buy shop) in
  let '(shop', G') := Shop.sellItem shop G user_id fingerprint in
  shop' = (if Buy.resell (Shop.buy shop) then Shop.addToInventory shop item None else shop)
  ∧ (∃ character',
       Game.characters G' = <[user_id := character']> (Game.characters G)
       ∧ Character.inventory character' = delete index (Character.inventory character)
       ∧ Character.money character' = Character.money character + price
       ∧ Character.exp character'
         = Character.exp character + (if String.eqb (Item.subtype item) "drug" then 2 else 0))
  ∧ ∃ tail,
      appended G G'
        ([DispatchToUser user_id
            (GAME_EVENT "success"
               ("You sold 1x " +:+ Item.name item +:+ " for " +:+ pretty (1 * price)) []);
          UpdateClient (Character.user_id character)] ++ tail)
      ∧ (tail = []
         ∨ ∃ inventory, tail = [DispatchToRoom (Character.getLocationId character)
                                  (SHOP_UPDATE (Shop.id shop) inventory)]).
Proof.
  intros Hc Hen Hfind Hwanted Hns Htpl. cbv zeta.
  rewrite (sellItem_reaches_commit _ _ _ _ _ _ _ Hc Hen Hfind Hwanted (or_introl Hns)).
  unfold Shop.sellCommit, appended. rewrite Htpl, Hns.
  destruct (String.eqb (Item.subtype item) "drug");
    destruct (Buy.resell (Shop.buy shop)); destruct (Shop.getSellList _ _) as [inventory|];
    (split; [done|]);
    (split; [eexists; split; [done|]; cbn; split_and!; first [done | lia]|]);
    eexists; (split; [cbn; rewrite <- ?app_assoc; cbn; reflexivity|]);
    first [by left | right; by eexists].
Qed.

Lemma instantiate_subtype G template modifiers dbId :
  Item.subtype (ItemManager.instantiate G template modifiers dbId) = Item.subtype template.
Proof. done. Qed.

Lemma sellItem_non_stackable_sale_witness :
  let '(shop', G') := Shop.sellItem Sample.dealer Market.world "u2" 3 in
  shop' = Shop.addToInventory Sample.dealer Sample.bigKnife None
  ∧ (∃ character',
       Game.characters G' = <["u2" := character']> (Game.characters Market.world)
       ∧ Character.inventory character' = delete 0%nat (Character.inventory Market.seller)
       ∧ Character.money character' = 100 + 40 * 1
       ∧ Character.exp character' = 7 + 0)
  ∧ ∃ tail,
      appended Market.world G'
        ([DispatchToUser "u2" (GAME_EVENT "success" "You sold 1x Big Knife for 40" []);
          UpdateClient "u2"] ++ tail)
      ∧ (tail = []
         ∨ ∃ inventory, tail = [DispatchToRoom "city_3_2" (SHOP_UPDATE "dealer" inventory)]).
Proof.
  apply (sellItem_non_stackable_sale Sample.dealer Market.world "u2" 3 Market.seller 0
           Sample.bigKnife Market.knifeTemplate); try reflexivity.
  - split; [reflexivity|]. split; [reflexivity|]. intros j o _ Hj. lia.
  - split; [by left|]. split; apply not_elem_of_nil.
Defined.

(** X12. A sale of one unit from a stack of [d >= 1] that the shop
    wants: the seller is credited the template price times the buy
    multiplier (and 2 experience when the template's subtype is "drug");
    with [d >= 2] the stack stays in place with [d - 1] units; with [d = 1]
    (and nothing else flagged in the inventory) the stack leaves the
    inventory.  What the shop takes, with [resell], is a fresh instance of
    the item holding one unit. *)
Theorem sellItem_stackable_sale
    (shop : Shop.t) (G : Game.t) (user_id : string) (fingerprint : nat)
    (character : Character.t) (index : nat) (item itemTemplate : Item.t) (d : Z) :
  Game.characters G !! user_id = Some character →
  Buy.enabled (Shop.buy shop) = true →
  firstWithFingerprint (Character.inventory character) fingerprint index item →
  wanted shop item →
  Stats.stackable (Item.stats item) = true →
  Stats.durability (Item.stats item) = JS.Num d →
  1 ≤ d →
  ItemManager.getTemplate G (Item.id item) = Some itemTemplate →
  let price := Stats.price (Item.stats itemTemplate) * Buy.priceMultiplier (Shop.buy shop) in
  let soldItem := ItemManager.instantiate G itemTemplate (Some (JS.Num 1)) None in
  let '(shop', G') := Shop.sellItem shop G user_id fingerprint in
  shop' = (if Buy.resell (Shop.buy shop) then Shop.addToInventory shop soldItem None else shop)
  ∧ Stats.durability (Item.stats soldItem) = JS.Num 1
  ∧ ∃ character',
      Game.characters G' = <[user_id := character']> (Game.characters G)
      ∧ Character.money character' = Character.money character + price
      ∧ Character.exp character'
        = Character.exp character
          + (if String.eqb (Item.subtype itemTemplate) "drug" then 2 else 0)
      ∧ (2 ≤ d →
         Character.inventory character'
         = <[index := Item.set_durability (JS.Num (d - 1)) item]> (Character.inventory character))
      ∧ (d = 1 → unflagged (Character.inventory character) →
         Character.inventory character' = delete index (Character.inventory character)).
Proof.
  intros Hc Hen Hfind Hwanted Hst Hd Hpos Htpl. cbv zeta.
  rewrite (sellItem_reaches_commit _ _ _ _ _ _ _ Hc Hen Hfind Hwanted).
  2:{ right. rewrite Hd. cbn. by apply Z.ltb_ge. }
  destruct Hfind as (Hl & _ & _).
  unfold Shop.sellCommit. rewrite Htpl, Hst, (add_found _ _ _ _ _ Htpl).
  unfold Item.removeDurability. rewrite Hd.
  cbn [JS.sub Item.set_durability Item.stats Item.set_stats Stats.durability
         Stats.set_durability JS.le].
  destruct (Z.leb_spec (d - 1) 0) as [Hle|Hgt].
  - assert (d = 1) as -> by lia.
    unfold ItemManager.remove. cbn [Character.inventory Character.set_inventory].
    rewrite list_lookup_insert_eq by by eapply lookup_lt_Some.
    rewrite list_insert_insert_eq.
    set (gone := ItemManager.spliceFlagged _).
    assert (unflagged (Character.inventory character) →
            gone = delete index (Character.inventory character)) as Hgone.
    { intros Hclean. apply spliceFlagged_one; [done|by eapply lookup_lt_Some|done]. }
    clearbody gone.
    change (Item._id (Item.set_durability (JS.Num (1 - 1)) item)) with (Item._id item).
    destruct (Item._id item); rewrite ?instantiate_subtype;
      destruct (String.eqb (Item.subtype itemTemplate) "drug") eqn:Hdrug;
      destruct (Buy.resell (Shop.buy shop)); destruct (Shop.getSellList _ _);
      (split; [done|]); (split; [done|]); eexists; (split; [done|]); cbn;
      split_and!; first [done | lia | by intros; lia | by intros _ Hclean; apply Hgone].
  - rewrite ?instantiate_subtype.
    destruct (String.eqb (Item.subtype itemTemplate) "drug") eqn:Hdrug;
      destruct (Buy.resell (Shop.buy shop)); destruct (Shop.getSellList _ _);
      (split; [done|]); (split; [done|]); eexists; (split; [done|]); cbn;
      split_and!; first [done | lia | by intros; lia].
Qed.

Lemma sellItem_stackable_sale_witness :
  let '(shop', G') := Shop.sellItem Sample.dealer Market.world "u2" 12 in
  shop' = Shop.addToInventory Sample.dealer
            (ItemManager.instantiate Market.world Sample.herbTemplate (Some (JS.Num 1)) None)
            None
  ∧ Stats.durability
      (Item.stats (ItemManager.instantiate Market.world Sample.herbTemplate
                     (Some (JS.Num 1)) None))
    = JS.Num 1
  ∧ ∃ character',
      Game.characters G' = <["u2" := character']> (Game.characters Market.world)
      ∧ Character.money character' = 100 + 12 * 1
      ∧ Character.exp character' = 7 + 2
      ∧ (2 ≤ 2 →
         Character.inventory character'
         = <[1%nat := Item.set_durability (JS.Num (2 - 1)) Sample.herbStack]>
             (Character.inventory Market.seller))
      ∧ (2 = 1 → unflagged (Character.inventory Market.seller) →
         Character.inventory character' = delete 1%nat (Character.inventory Market.seller)).
Proof.
  apply (sellItem_stackable_sale Sample.dealer Market.world "u2" 12 Market.seller 1
           Sample.herbStack Sample.herbTemplate 2); try reflexivity; try lia.
  - split; [reflexivity|]. split; [reflexivity|].
    intros [|j] o Hj Hlt; [|lia]. injection Hj as <-. by vm_compute.
  - split; [by left|]. split; apply not_elem_of_nil.
Defined.

Lemma remove_frame G character index :
  Character.money (ItemManager.remove G character index).1 = Character.money character
  ∧ Character.exp (ItemManager.remove G character index).1 = Character.exp character
  ∧ Character.user_id (ItemManager.remove G character index).1 = Character.user_id character
  ∧ Game.characters (ItemManager.remove G character index).2 = Game.characters G
  ∧ ∃ new, appended G (ItemManager.remove G character index).2 new.
Proof.
  unfold ItemManager.remove, appended.
  destruct (Character.inventory character !! index) as [item|].
  - destruct (Item._id item); split_and!; try done; eexists; cbn; [done|by rewrite app_nil_r].
  - split_and!; try done. exists []. by rewrite app_nil_r.
Qed.

(** Every way the tail of [sellItem] can end. *)
Lemma sellCommit_outcome shop G user_id character index item :
  let r := Shop.sellCommit shop G user_id character index item in
  r = (shop, G)
  ∨ ∃ itemTemplate character' soldItem,
      ItemManager.getTemplate G (Item.id item) = Some itemTemplate
      ∧ Game.characters r.2 = <[user_id := character']> (Game.characters G)
      ∧ Character.money character'
        = Character.money character
          + 1 * (Stats.price (Item.stats itemTemplate) * Buy.priceMultiplier (Shop.buy shop))
      ∧ Character.exp character ≤ Character.exp character' ≤ Character.exp character + 2
      ∧ r.1 = (if Buy.resell (Shop.buy shop)
               then Shop.addToInventory shop soldItem None else shop)
      ∧ DispatchToUser user_id
          (GAME_EVENT "success"
             ("You sold 1x " +:+ Item.name soldItem +:+ " for "
              +:+ pretty (1 * (Stats.price (Item.stats itemTemplate)
                               * Buy.priceMultiplier (Shop.buy shop)))) [])
        ∈ Game.trace r.2.
Proof.
  cbv zeta. unfold Shop.sellCommit.
  destruct (ItemManager.getTemplate G (Item.id item)) as [itemTemplate|] eqn:Htpl; [|by left].
  right. exists itemTemplate.
  destruct (Stats.stackable (Item.stats item)).
  - rewrite (add_found _ _ _ _ _ Htpl).
    destruct (JS.le _ _).
    + match goal with
      | |- context [ItemManager.remove ?g ?c ?i] =>
          destruct (remove_frame g c i) as (Hm & He & Hu & Hch & new & Hnew);
          destruct (ItemManager.remove g c i) as [character1 G1]
      end.
      cbn [fst snd] in *. unfold appended in Hnew. cbn in Hm, He, Hch, Hnew.
      destruct (String.eqb _ "drug"); destruct (Buy.resell (Shop.buy shop));
        destruct (Shop.getSellList _ _);
        eexists _, (ItemManager.instantiate G itemTemplate (Some (JS.Num 1)) None);
        (split; [done|]); (split; [cbn; rewrite ?Hch; reflexivity|]);
        cbn; rewrite ?Hm, ?He, ?Hnew; split_and!; first [done | lia | set_solver].
    + destruct (String.eqb _ "drug"); destruct (Buy.resell (Shop.buy shop));
        destruct (Shop.getSellList _ _);
        eexists _, (ItemManager.instantiate G itemTemplate (Some (JS.Num 1)) None);
        (split; [done|]); (split; [cbn; reflexivity|]);
        cbn; split_and!; first [done | lia | set_solver].
  - destruct (String.eqb _ "drug"); destruct (Buy.resell (Shop.buy shop));
      destruct (Shop.getSellList _ _); eexists _, item;
      (split; [done|]); (split; [cbn; reflexivity|]);
      cbn; split_and!; first [done | lia | set_solver].
Qed.

(** X13. [sellItem] is all or nothing.  Either the shop and every
    character are as before and the trace grew by nothing or by one error
    event to the seller; or the sale went through: the shop was buying, an
    inventory item with the fingerprint exists, the seller was credited the
    template price times the buy multiplier and sent the success event, the
    experience rose by at most 2, and the shop changed only by merging the
    sold item into its sell list (not at all without [resell]). *)
Theorem sellItem_all_or_nothing
    (shop : Shop.t) (G : Game.t) (user_id : string) (fingerprint : nat) :
  let '(shop', G') := Shop.sellItem shop G user_id fingerprint in
  (shop' = shop
   ∧ Game.characters G' = Game.characters G
   ∧ (appended G G' []
      ∨ ∃ message, appended G G' [DispatchToUser user_id (GAME_EVENT "error" message [])]))
  ∨ ∃ character character' item itemTemplate soldItem,
      let price := Stats.price (Item.stats itemTemplate)
                   * Buy.priceMultiplier (Shop.buy shop) in
      Game.characters G !! user_id = Some character
      ∧ Buy.enabled (Shop.buy shop) = true
      ∧ item ∈ Character.inventory character
      ∧ Item.fingerprint item = fingerprint
      ∧ ItemManager.getTemplate G (Item.id item) = Some itemTemplate
      ∧ Game.characters G' = <[user_id := character']> (Game.characters G)
      ∧ Character.money character' = Character.money character + 1 * price
      ∧ Character.exp character ≤ Character.exp character' ≤ Character.exp character + 2
      ∧ shop' = (if Buy.resell (Shop.buy shop)
                 then Shop.addToInventory shop soldItem None else shop)
      ∧ DispatchToUser user_id
          (GAME_EVENT "success"
             ("You sold 1x " +:+ Item.name soldItem +:+ " for " +:+ pretty (1 * price)) [])
        ∈ Game.trace G'.
Proof.
  assert (∀ G0 : Game.t, appended G0 G0 []) as Hnil.
  { intros G0. unfold appended. by rewrite app_nil_r. }
  unfold Shop.sellItem.
  destruct (Game.characters G !! user_id) as [character|] eqn:Hc;
    [|left; split_and!; [done|done|left; apply Hnil]].
  destruct (Buy.enabled (Shop.buy shop)) eqn:Hen; cbn [negb];
    [|left; split_and!; [done|done|right; by eexists]].
  destruct (list_find _ _) as [[index item]|] eqn:Hfind;
    [|left; split_and!; [done|done|right; by eexists]].
  apply list_find_Some in Hfind as (Hl & Hfp & _).
  destruct (_ && _)%bool; [left; split_and!; [done|done|right; by eexists]|].
  destruct (_ || _)%bool; [left; split_and!; [done|done|right; by eexists]|].
  destruct (_ && _)%bool; [left; split_and!; [done|done|right; by eexists]|].
  pose proof (sellCommit_outcome shop G user_id character index item) as H. cbv zeta in H.
  destruct (Shop.sellCommit shop G user_id character index item) as [shop' G'].
  destruct H as [[= -> ->] | (itemTemplate & character' & soldItem & Htpl & Hch & Hm & He
                              & Hshop & Hev)];
    [left; split_and!; [done|done|left; apply Hnil]|].
  right. exists character, character', item, itemTemplate, soldItem. cbv zeta.
  split_and!; try done; try lia. by eapply list_elem_of_lookup_2.
Qed.

(** ** What clients are shown *)

(** X14. [getSellList(true)] of a selling shop throws exactly when some
    listed item has no template; otherwise it has one row per entry, in
    order, carrying the entry's id, name, [shopQuantity] and [expRequired]
    and the template's price as it stands, without the sell multiplier
    that [buyItem] charges.  A shop that is not selling shows no rows. *)
Theorem getSellList_rows_follow_entries (G : Game.t) (shop : Shop.t) :
  (Sell.enabled (Shop.sell shop) = false → Shop.getSellList G shop = Some [])
  ∧ (Sell.enabled (Shop.sell shop) = true →
     (Shop.getSellList G shop = None ↔
      ∃ e, e ∈ Sell.list (Shop.sell shop) ∧ ItemManager.getTemplate G (Item.id e) = None)
     ∧ ∀ rows, Shop.getSellList G shop = Some rows →
         length rows = length (Sell.list (Shop.sell shop))
         ∧ ∀ i e, Sell.list (Shop.sell shop) !! i = Some e →
             ∃ template,
               ItemManager.getTemplate G (Item.id e) = Some template
               ∧ rows !! i = Some (Listing.mk (Item.id e) (Item.name e) (Item.shopQuantity e)
                                     (Item.expRequired e)
                                     (Stats.price (Item.stats template)))).
Proof.
  unfold Shop.getSellList. split; [by intros ->|]. intros ->. cbn [negb]. split.
  - rewrite mapM_None, Exists_exists. unfold Shop.toListing. split.
    + intros (e & Hin & He). exists e. split; [done|].
      by destruct (ItemManager.getTemplate G (Item.id e)).
    + intros (e & Hin & He). exists e. split; [done|]. by rewrite He.
  - intros rows Hrows. apply mapM_Some_1 in Hrows. split.
    + symmetry. by eapply Forall2_length.
    + intros i e Hi. destruct (Forall2_lookup_l _ _ _ _ _ Hrows Hi) as (row & Hrow & Hl).
      unfold Shop.toListing in Hl.
      destruct (ItemManager.getTemplate G (Item.id e)) as [template|]; [|done].
      exists template. split; [done|]. rewrite Hrow. cbn in Hl. congruence.
Qed.

(** ** Resupply: what a pass adds *)

Lemma add_sameButCounters G itemId modifiers dbId :
  sameButCounters G (ItemManager.add G itemId modifiers dbId).2.
Proof. unfold ItemManager.add. by destruct (ItemManager.getTemplate G itemId). Qed.

Lemma sameButCounters_trans G1 G2 G3 :
  sameButCounters G1 G2 → sameButCounters G2 G3 → sameButCounters G1 G3.
Proof.
  intros (?&?&?&?&?&?) (?&?&?&?&?&?). unfold sameButCounters. split_and!; congruence.
Qed.

Lemma bornFrom_same E G G' s e :
  Game.templates G' = Game.templates G → bornFrom E G' s e → bornFrom E G s e.
Proof.
  intros Heq (t & f & r & Ht & He). exists t, f, r. split; [|done].
  unfold ItemManager.getTemplate in *. by rewrite <- Heq.
Qed.

Lemma resupplyStep_step E unique items totalItems l G items' totalItems' l' G' :
  Shop.resupplyStep E unique (items, totalItems, l, G) = Some (items', totalItems', l', G') →
  ∃ s e,
    s ∈ items
    ∧ bornFrom E G s e
    ∧ l' = l ++ [e]
    ∧ sameButCounters G G'
    ∧ (if unique then items ≡ₚ s :: items' else items' = items).
Proof.
  unfold Shop.resupplyStep.
  destruct (JS.nth items _) as [s|] eqn:Hnth; cbn [mbind option_bind]; [|done].
  apply nth_Some_nonneg in Hnth as [_ Hnth].
  destruct (ItemManager.getTemplate (Game.set_rolls (S (Game.rolls G)) G) (SupplyItem.id s))
    as [template|] eqn:Htpl.
  - rewrite (add_found _ _ _ _ _ Htpl).
    intros Hstep. exists s. eexists. split; [by eapply list_elem_of_lookup_2|].
    assert (bornFrom E G s
              (Item.set_shopQuantity
                 (JS.Num (Env.dice E (S (Game.rolls G)) (SupplyItem.quantity s).1
                            (SupplyItem.quantity s).2))
                 (ItemManager.instantiate (Game.set_rolls (S (Game.rolls G)) G) template
                    None None))) as Hborn.
    { exists template, (Game.uuids G), (S (Game.rolls G)). done. }
    destruct unique; injection Hstep as <- <- <- <-; (split; [exact Hborn|]);
      (split; [done|]); (split; [done|]); [|done].
    by apply delete_Permutation.
  - unfold ItemManager.add. by rewrite Htpl.
Qed.

Lemma resupplyLoop_run E unique turns : ∀ items totalItems l G l' G' ok,
  Shop.resupplyLoop E unique turns (items, totalItems, l, G) = (l', G', ok) →
  ∃ used news,
    l' = l ++ news
    ∧ Forall2 (bornFrom E G) used news
    ∧ sameButCounters G G'
    ∧ (length news ≤ turns)%nat
    ∧ (if ok then length news = turns else (length news < turns)%nat)
    ∧ (if unique then used ⊆+ items else ∀ s, s ∈ used → s ∈ items).
Proof.
  induction turns as [|turns IH]; intros items totalItems l G l' G' ok Hrun;
    cbn [Shop.resupplyLoop] in Hrun.
  - cbn in Hrun. injection Hrun as <- <- <-. exists [], [].
    rewrite app_nil_r. split_and!; try done.
    destruct unique; [apply submseteq_nil_l|]. intros s Hs. by apply elem_of_nil in Hs.
  - destruct (Shop.resupplyStep E unique (items, totalItems, l, G))
      as [[[[items1 total1] l1] G1]|] eqn:Hstep.
    + apply resupplyStep_step in Hstep as (s & e & Hs & Hborn & -> & Hsame & Hpool).
      apply IH in Hrun as (used & news & -> & Hall & Hsame' & Hle & Hok & Hused).
      exists (s :: used), (e :: news). rewrite <- app_assoc. split_and!.
      * done.
      * constructor; [done|]. eapply Forall2_impl; [exact Hall|].
        intros s' e'. apply bornFrom_same. by destruct Hsame.
      * by eapply sameButCounters_trans.
      * cbn. lia.
      * destruct ok; cbn; lia.
      * destruct unique.
        -- rewrite Hpool. by apply submseteq_skip.
        -- subst items1. intros s' Hs'. apply elem_of_cons in Hs' as [->|Hs']; auto.
    + cbn in Hrun. injection Hrun as <- <- <-. exists [], [].
      rewrite app_nil_r. split_and!; try done; [cbn; lia|cbn; lia|].
      destruct unique; [apply submseteq_nil_l|]. intros s Hs. by apply elem_of_nil in Hs.
Qed.

(** X15. Whatever a [resupply] pass does, to its end or until it
    throws: the sell list becomes its unlimited entries, in order, followed
    by the new entries; each new entry is a fresh, unstored instance of the
    template of one of the supply candidates, with a stock the dice drew
    from that candidate's range; there are at most [itemsToAdd + 1] of them,
    fewer when the pass threw; the rest of the shop, and of the game but for
    the fingerprint and dice counters, is untouched (no event is sent). *)
Theorem resupply_adds_instances_of_candidates
    (E : Env.t) (shop : Shop.t) (G : Game.t) (supply : Supply.t) :
  Shop.supply shop = Some supply →
  let '(shop', G', ok) := Shop.resupply E shop G in
  ∃ news,
    Sell.list (Shop.sell shop')
    = filter Shop.unlimited (Sell.list (Shop.sell shop)) ++ news
    ∧ Forall (λ e, ∃ s, s ∈ Supply.items supply ∧ bornFrom E G s e) news
    ∧ (length news ≤ Shop.turnsFrom (Shop.itemsToAdd E G supply))%nat
    ∧ (ok = false → (length news < Shop.turnsFrom (Shop.itemsToAdd E G supply))%nat)
    ∧ shop' = Shop.set_list (Sell.list (Shop.sell shop')) shop
    ∧ sameButCounters G G'.
Proof.
  intros Hs. unfold Shop.resupply. rewrite Hs.
  destruct (Shop.resupplyLoop _ _ _ _) as [[l1 G1] ok] eqn:Hloop.
  apply resupplyLoop_run in Hloop as (used & news & -> & Hall & Hsame & Hle & Hok & Hused).
  exists news. split_and!; try done.
  - apply Forall_forall. intros e He.
    apply list_elem_of_lookup in He as [i Hi].
    destruct (Forall2_lookup_r _ _ _ _ _ Hall Hi) as (s & Hsi & Hborn).
    exists s. split.
    + apply list_elem_of_lookup_2 in Hsi.
      destruct (Supply.uniqueItems supply); [|by apply Hused].
      by eapply elem_of_submseteq.
    + eapply bornFrom_same; [|exact Hborn]. done.
  - intros ->. done.
Qed.

Lemma resupply_adds_instances_witness :
  let '(shop', G', ok) := Shop.resupply Sample.roomy Sample.suppliedBakery Sample.world in
  ∃ news,
    Sell.list (Shop.sell shop')
    = filter Shop.unlimited (Sell.list (Shop.sell Sample.suppliedBakery)) ++ news
    ∧ Forall (λ e, ∃ s, s ∈ [SupplyItem.mk "bread" (2, 4)]
                        ∧ bornFrom Sample.roomy Sample.world s e) news
    ∧ (length news ≤ Shop.turnsFrom 2)%nat
    ∧ (ok = false → (length news < Shop.turnsFrom 2)%nat)
    ∧ shop' = Shop.set_list (Sell.list (Shop.sell shop')) Sample.suppliedBakery
    ∧ sameButCounters Sample.world G'.
Proof.
  apply (resupply_adds_instances_of_candidates Sample.roomy Sample.suppliedBakery Sample.world
           (Supply.mk [SupplyItem.mk "bread" (2, 4)] (2, 2) false)).
  reflexivity.
Defined.

(** X16. With [uniqueItems], a pass that runs to its end has used the
    candidates without repetition: the new entries stem, one for one, from a
    sub-multiset of the candidate pool.  So a completed pass needs at least
    [itemsToAdd + 1] candidates; with fewer, the pass throws part-way. *)
Theorem resupply_unique_uses_each_candidate_once
    (E : Env.t) (shop shop' : Shop.t) (G G' : Game.t) (supply : Supply.t) :
  Shop.supply shop = Some supply →
  Supply.uniqueItems supply = true →
  0 ≤ Shop.itemsToAdd E G supply →
  Shop.resupply E shop G = (shop', G', true) →
  ∃ used news,
    Sell.list (Shop.sell shop')
    = filter Shop.unlimited (Sell.list (Shop.sell shop)) ++ news
    ∧ Forall2 (bornFrom E G) used news
    ∧ used ⊆+ Supply.items supply
    ∧ Shop.itemsToAdd E G supply + 1 ≤ Z.of_nat (length (Supply.items supply)).
Proof.
  intros Hs Hu Hn. unfold Shop.resupply. rewrite Hs, Hu.
  destruct (Shop.resupplyLoop _ _ _ _) as [[l1 G1] ok] eqn:Hloop.
  intros [= <- <- ->].
  apply resupplyLoop_run in Hloop as (used & news & -> & Hall & Hsame & Hle & Hok & Hused).
  exists used, news. split_and!; try done.
  apply submseteq_length in Hused. apply Forall2_length in Hall.
  unfold Shop.turnsFrom in Hok. lia.
Qed.

Lemma resupply_unique_witness :
  ∃ used news,
    Sell.list (Shop.sell (Shop.resupply Sample.roomy Unique.bakery Sample.world).1.1)
    = filter Shop.unlimited (Sell.list (Shop.sell Unique.bakery)) ++ news
    ∧ Forall2 (bornFrom Sample.roomy Sample.world) used news
    ∧ used ⊆+ [SupplyItem.mk "bread" (2, 4)]
    ∧ 0 + 1 ≤ Z.of_nat (length [SupplyItem.mk "bread" (2, 4)]).
Proof.
  apply (resupply_unique_uses_each_candidate_once Sample.roomy Unique.bakery _ Sample.world
           (Shop.resupply Sample.roomy Unique.bakery Sample.world).1.2
           (Supply.mk [SupplyItem.mk "bread" (2, 4)] (0, 0) true));
    first [reflexivity | by vm_compute].
Defined.

(** ** Authentication: every way it can end *)

(** X17. [authenticate] ends in one of three ways.  Without a payload
    nothing happens.  With a token that does not verify, or whose user
    record is not found, the socket is sent one USER_AUTHENTICATE_ERROR and
    the client list is untouched.  Otherwise (the token verifies, and the
    lookup found the user or threw) the socket ends up last in the client
    list, tagged, and the last thing sent is its USER_AUTHENTICATE_SUCCESS. *)
Theorem authenticate_outcomes
    (E : Env.t) (socket : Socket.t) (payload : option string) (G : Game.t) :
  let G' := UserManager.authenticate E socket payload G in
  ((payload = None ∨ payload = Some EmptyString) ∧ G' = G)
  ∨ (∃ token,
       payload = Some token
       ∧ (Env.jwtVerify E token = None
          ∨ ∃ decoded, Env.jwtVerify E token = Some decoded
                       ∧ Env.findOneAsync E decoded.1 decoded.2 = Some None)
       ∧ Game.clients G' = Game.clients G
       ∧ appended G G'
           [DispatchToSocket (Socket.sid socket)
              (USER_AUTHENTICATE_ERROR "Invalid authentication token. Please try again.")])
  ∨ (∃ token decoded (user_id : option string),
       payload = Some token
       ∧ Env.jwtVerify E token = Some decoded
       ∧ ((∃ u, Env.findOneAsync E decoded.1 decoded.2 = Some (Some u) ∧ user_id = Some u)
          ∨ (Env.findOneAsync E decoded.1 decoded.2 = None ∧ user_id = None))
       ∧ last (Game.clients G') = Some (Socket.mk (Socket.sid socket) (Some user_id))
       ∧ last (Game.trace G')
         = Some (DispatchToSocket (Socket.sid socket)
                   (USER_AUTHENTICATE_SUCCESS (Env.mapList E)))).
Proof.
  cbv zeta. unfold UserManager.authenticate.
  destruct payload as [[|c token]|]; [left; auto| |left; auto].
  destruct (Env.jwtVerify E (String c token)) as [decoded|] eqn:Hjwt.
  - destruct (Env.findOneAsync E decoded.1 decoded.2) as [[user_id|]|] eqn:Hfind.
    + right. right. exists (String c token), decoded, (Some user_id).
      rewrite establish_clients, establish_trace, !last_snoc, app_assoc, last_snoc.
      split_and!; eauto.
    + right. left. exists (String c token). split_and!; try done. right. eauto.
    + right. right. exists (String c token), decoded, None.
      rewrite establish_clients, establish_trace, !last_snoc, app_assoc, last_snoc.
      split_and!; auto.
  - right. left. exists (String c token). split_and!; try done. by left.
Qed.

(** X18. A user lookup that throws does not stop [authenticate]: the
    error is handed to [onError], and the socket is then tagged with an
    undefined user id, appended to the active clients and told that it is
    authenticated. *)
Theorem authenticate_registers_after_failed_lookup
    (E : Env.t) (socket : Socket.t) (token : string) (decoded : string * string) (G : Game.t) :
  token ≠ EmptyString →
  Env.jwtVerify E token = Some decoded →
  Env.findOneAsync E decoded.1 decoded.2 = None →
  let G' := UserManager.authenticate E socket (Some token) G in
  let tagged := Socket.mk (Socket.sid socket) (Some None) in
  Game.clients G'
  = ((λ c, if decide (Socket.sid c = Socket.sid socket) then tagged else c)
       <$> filter (λ c, ¬ SocketManager.otherSession socket None c) (Game.clients G))
    ++ [tagged]
  ∧ Game.trace G'
    = Game.trace G ++ [OnError (Socket.sid socket)]
        ++ (SocketManager.remoteLogout
              <$> filter (SocketManager.otherSession socket None) (Game.clients G))
        ++ [DispatchToSocket (Socket.sid socket) (USER_AUTHENTICATE_SUCCESS (Env.mapList E))].
Proof.
  intros Htoken Hjwt Hfind. cbv zeta. unfold UserManager.authenticate.
  destruct token; [done|]. rewrite Hjwt, Hfind.
  rewrite establish_clients, establish_trace. cbn [Game.clients Game.trace Game.emit].
  split; [done|]. by rewrite <- !app_assoc.
Qed.

Lemma authenticate_registers_after_failed_lookup_witness :
  Game.clients (UserManager.authenticate Outage.env Sample.laptop (Some "t") Sample.onlineWorld)
  = [Sample.phone; Socket.mk 2 (Some None)]
  ∧ Game.trace (UserManager.authenticate Outage.env Sample.laptop (Some "t")
                  Sample.onlineWorld)
    = [OnError 2; DispatchToSocket 2 (USER_AUTHENTICATE_SUCCESS ["city"])].
Proof.
  destruct (authenticate_registers_after_failed_lookup Outage.env Sample.laptop "t"
              ("u1", "s1") Sample.onlineWorld) as [Hclients Htrace];
    [done | reflexivity | reflexivity |].
  split; [by rewrite Hclients | by rewrite Htrace].
Defined.

(** ** Chat: the gate as a rate limit *)

Lemma chat_refused E G1 socket u character :
  Socket.user socket = Some (Some u) →
  Game.characters G1 !! u = Some character →
  CooldownManager.ticksLeft G1 character "chat" ≠ 0 →
  let wait := Game.eventToUser (Character.user_id character) "error"
                (Commands.waitMessage (CooldownManager.ticksLeft G1 character "chat")) G1 in
  (∀ params, JS.trim (JS.join params) ≠ EmptyString → Commands.cmdSay E socket params G1 = wait)
  ∧ (∀ params, JS.trim (JS.join params) ≠ EmptyString →
       Commands.cmdGlobal E socket params G1 = wait)
  ∧ (∀ whisperTarget message,
       Commands.cmdWhisper E socket character whisperTarget message G1 = wait).
Proof.
  intros Hu Hc Hticks. cbv zeta. apply Z.eqb_neq in Hticks.
  assert (∀ k, Commands.checkChatCooldown E character G1 k
               = Game.eventToUser (Character.user_id character) "error"
                   (Commands.waitMessage (CooldownManager.ticksLeft G1 character "chat")) G1)
    as Hgate.
  { intros k. unfold Commands.checkChatCooldown. by rewrite Hticks. }
  split_and!.
  - intros params Hne. unfold Commands.cmdSay, Commands.withCharacter.
    rewrite (nonempty_length _ Hne), Hu. cbn. by rewrite Hc, Hgate.
  - intros params Hne. unfold Commands.cmdGlobal, Commands.withCharacter.
    rewrite (nonempty_length _ Hne), Hu. cbn. by rewrite Hc, Hgate.
  - intros whisperTarget message. unfold Commands.cmdWhisper. apply Hgate.
Qed.

Lemma chat_accepted E G socket u character :
  Socket.user socket = Some (Some u) →
  Game.characters G !! u = Some character →
  CooldownManager.ticksLeft G character "chat" = 0 →
  let started := CooldownManager.add E G character "chat" None true in
  (∀ params, JS.trim (JS.join params) ≠ EmptyString →
     ∃ e, Commands.cmdSay E socket params G = Game.emit e started)
  ∧ (∀ params, JS.trim (JS.join params) ≠ EmptyString →
       ∃ e, Commands.cmdGlobal E socket params G = Game.emit e started)
  ∧ (∀ whisperTarget message,
       ∃ e1 e2, Commands.cmdWhisper E socket character whisperTarget message G
                = Game.emit e2 (Game.emit e1 started)).
Proof.
  intros Hu Hc Hticks. cbv zeta.
  assert (∀ k, Commands.checkChatCooldown E character G k
               = k (CooldownManager.add E G character "chat" None true)) as Hgate.
  { intros k. unfold Commands.checkChatCooldown. by rewrite Hticks. }
  split_and!.
  - intros params Hne. unfold Commands.cmdSay, Commands.withCharacter.
    rewrite (nonempty_length _ Hne), Hu. cbn. rewrite Hc, Hgate. by eexists.
  - intros params Hne. unfold Commands.cmdGlobal, Commands.withCharacter.
    rewrite (nonempty_length _ Hne), Hu. cbn. rewrite Hc, Hgate. by eexists.
  - intros whisperTarget message. unfold Commands.cmdWhisper. rewrite Hgate. by eexists _, _.
Qed.

(** X19. The gate is a rate limit: once a say, global or whisper of a
    character has gone through (idle cooldown), the character's next say,
    global or whisper is refused with the wait error stating the configured
    default, as long as that default is not 0 and no tick has passed. *)
Theorem chat_message_blocks_the_next
    (E : Env.t) (G : Game.t) (socket : Socket.t) (u : string) (character : Character.t)
    (G1 : Game.t) :
  Socket.user socket = Some (Some u) →
  Game.characters G !! u = Some character →
  CooldownManager.ticksLeft G character "chat" = 0 →
  Env.cooldownDefault E "chat" ≠ 0 →
  ((∃ params, JS.trim (JS.join params) ≠ EmptyString ∧ G1 = Commands.cmdSay E socket params G)
   ∨ (∃ params, JS.trim (JS.join params) ≠ EmptyString
                ∧ G1 = Commands.cmdGlobal E socket params G)
   ∨ (∃ whisperTarget message,
        G1 = Commands.cmdWhisper E socket character whisperTarget message G)) →
  let wait := Game.eventToUser (Character.user_id character) "error"
                (Commands.waitMessage (Env.cooldownDefault E "chat")) G1 in
  (∀ params, JS.trim (JS.join params) ≠ EmptyString → Commands.cmdSay E socket params G1 = wait)
  ∧ (∀ params, JS.trim (JS.join params) ≠ EmptyString →
       Commands.cmdGlobal E socket params G1 = wait)
  ∧ (∀ whisperTarget message,
       Commands.cmdWhisper E socket character whisperTarget message G1 = wait).
Proof.
  intros Hu Hc Hidle Hdefault Hfirst.
  destruct (chat_accepted E G socket u character Hu Hc Hidle) as (Hsay & Hglobal & Hwhisper).
  assert (Game.characters G1 !! u = Some character
          ∧ CooldownManager.ticksLeft G1 character "chat" = Env.cooldownDefault E "chat")
    as [Hc1 Hticks1].
  { assert (CooldownManager.ticksLeft (CooldownManager.add E G character "chat" None true)
              character "chat" = Env.cooldownDefault E "chat") as Hstarted.
    { unfold CooldownManager.ticksLeft. cbn. by rewrite lookup_insert_eq. }
    destruct Hfirst as [(params & Hne & ->) | [(params & Hne & ->) | (t & m & ->)]].
    - destruct (Hsay params Hne) as [e ->]. done.
    - destruct (Hglobal params Hne) as [e ->]. done.
    - destruct (Hwhisper t m) as (e1 & e2 & ->). done. }
  pose proof (chat_refused E G1 socket u character Hu Hc1) as Hrefused.
  rewrite Hticks1 in Hrefused. by apply Hrefused.
Qed.

Lemma chat_message_blocks_the_next_witness :
  Commands.cmdGlobal Sample.roomy Sample.phone ["again"]
    (Commands.cmdSay Sample.roomy Sample.phone ["hello"] Sample.world)
  = Game.eventToUser "u1" "error"
      "You must wait another 3 seconds before you can send another message."
      (Commands.cmdSay Sample.roomy Sample.phone ["hello"] Sample.world).
Proof.
  destruct (chat_message_blocks_the_next Sample.roomy Sample.world Sample.phone "u1"
              Sample.actor (Commands.cmdSay Sample.roomy Sample.phone ["hello"] Sample.world))
    as (_ & Hglobal & _); [reflexivity | reflexivity | reflexivity | done | |].
  - left. exists ["hello"]. split; [by vm_compute|reflexivity].
  - rewrite (Hglobal ["again"]); [reflexivity|by vm_compute].
Defined.

(** X20. When [cmdSay] or [cmdGlobal] lets a message out: only if the
    trimmed message is not empty, the socket is tagged with a user id that
    resolves to a character, and that character's chat cooldown is idle.
    In every other case the call adds at most one effect to the trace, which
    is not a CHAT_MESSAGE, and leaves the cooldowns as they were. *)
Theorem chat_commands_outcomes
    (E : Env.t) (G : Game.t) (socket : Socket.t) (params : list string) :
  let passes G' :=
    JS.trim (JS.join params) ≠ EmptyString
    ∧ ∃ u character e,
        Socket.user socket = Some (Some u)
        ∧ Game.characters G !! u = Some character
        ∧ CooldownManager.ticksLeft G character "chat" = 0
        ∧ isChat e = true
        ∧ G' = Game.emit e (CooldownManager.add E G character "chat" None true) in
  let blocked G' :=
    Game.cooldowns G' = Game.cooldowns G
    ∧ ∃ new, appended G G' new ∧ (length new ≤ 1)%nat ∧ Forall (λ e, isChat e = false) new in
  (passes (Commands.cmdSay E socket params G) ∨ blocked (Commands.cmdSay E socket params G))
  ∧ (passes (Commands.cmdGlobal E socket params G)
     ∨ blocked (Commands.cmdGlobal E socket params G)).
Proof.
  cbv zeta. unfold Commands.cmdSay, Commands.cmdGlobal, Commands.withCharacter, appended.
  destruct (String.length (JS.trim (JS.join params)) =? 0)%nat eqn:Hlen.
  { split; right; (split; [done|]); eexists [_]; by repeat constructor. }
  assert (JS.trim (JS.join params) ≠ EmptyString) as Hne.
  { intros Heq. by rewrite Heq in Hlen. }
  destruct (Socket.user socket) as [[u|]|] eqn:Hu; cbn [mbind option_bind].
  - destruct (Game.characters G !! u) as [character|] eqn:Hc.
    + unfold Commands.checkChatCooldown.
      destruct (Z.eqb_spec (CooldownManager.ticksLeft G character "chat") 0) as [Hidle|Hbusy];
        cbn [negb].
      * split; left; (split; [done|]); eexists u, character, _;
          (split; [done|]); (split; [done|]); (split; [done|]); (split; [|reflexivity]); done.
      * split; right; (split; [done|]); eexists [_]; by repeat constructor.
    + split; right; (split; [done|]); exists []; rewrite app_nil_r; by repeat constructor.
  - split; right; (split; [done|]); exists []; rewrite app_nil_r; by repeat constructor.
  - split; right; (split; [done|]); eexists [_]; by repeat constructor.
Qed.

(** ** Merging twice *)

(** X21. Two instances of an item the shop does not list yet, merged one
    after the other, end up as one entry at the end of the sell list, which
    holds the first instance: with quantity 2 for a non-stackable item of
    one and the same durability, and with the sum of the two stacks for a
    stackable one. *)
Theorem addToInventory_twice_stacks (l : list Item.t) (first second : Item.t) :
  Item.id second = Item.id first →
  (∀ obj, obj ∈ l → Item.id obj ≠ Item.id first) →
  let twice := Shop.addToInventoryList (Shop.addToInventoryList l first None) second None in
  (Stats.stackable (Item.stats first) = false →
   Stats.stackable (Item.stats second) = false →
   JS.strict_eq (Stats.durability (Item.stats first)) (Stats.durability (Item.stats second))
   = true →
   twice = l ++ [Item.set_shopQuantity (JS.Num 2) first])
  ∧ (∀ a b,
       Stats.stackable (Item.stats first) = true →
       Stats.stackable (Item.stats second) = true →
       Stats.durability (Item.stats first) = JS.Num a →
       Stats.durability (Item.stats second) = JS.Num b →
       twice = l ++ [Item.set_shopQuantity (JS.Num (a + b)) first]).
Proof.
  intros Hid Hfresh. cbv zeta.
  assert (∀ (P : Item.t → Prop) `{∀ x, Decision (P x)},
            (∀ obj, P obj → Item.id obj = Item.id first) → list_find P l = None) as Hnone.
  { intros P ? HP. apply list_find_None, Forall_forall. intros obj Hin Hp.
    by apply (Hfresh obj Hin), HP. }
  assert (∀ x y : Item.t, <[length l := y]> (l ++ [x]) = l ++ [y]) as Hlast.
  { intros x y. pose proof (insert_app_r l [x] 0 y) as H. by rewrite Nat.add_0_r in H. }
  split.
  - intros Hs1 Hs2 Hd. unfold Shop.addToInventoryList. rewrite Hs1, Hs2.
    rewrite (Hnone (Shop.sameIdUnlimited first)) by by intros obj [? _].
    rewrite (Hnone (Shop.sameIdAndDurability first)) by by intros obj [? _].
    rewrite list_find_app_r
      by (apply Hnone; intros obj [Ho _]; by rewrite Ho, Hid).
    cbn [list_find fmap option_fmap option_map]. case_decide as Hun.
    { destruct Hun as [_ Hq]. cbn in Hq. done. }
    cbn. rewrite list_find_app_r
      by (apply Hnone; intros obj [Ho _]; by rewrite Ho, Hid).
    cbn [list_find]. case_decide as Hsame.
    + cbn. unfold Shop.bump. rewrite Hlast. done.
    + exfalso. apply Hsame. split; [by cbn|]. cbn.
      destruct (Stats.durability (Item.stats first)), (Stats.durability (Item.stats second));
        cbn in *; done.
  - intros a b Hs1 Hs2 Ha Hb. unfold Shop.addToInventoryList. rewrite Hs1, Hs2.
    rewrite (Hnone (Shop.sameId first)) by by intros obj ?.
    rewrite list_find_app_r
      by (apply Hnone; intros obj Ho; unfold Shop.sameId in Ho; by rewrite Ho, Hid).
    cbn [list_find]. case_decide as Hsame.
    + cbn. unfold Shop.bump. rewrite Hlast. rewrite Ha, Hb. done.
    + exfalso. apply Hsame. unfold Shop.sameId. by cbn.
Qed.

Lemma addToInventory_twice_stacks_witness :
  Shop.addToInventoryList
    (Shop.addToInventoryList [Sample.breadEntry] Sample.herbStack None)
    (Item.construct Sample.herbTemplate (Some (JS.Num 4)) 13) None
  = [Sample.breadEntry] ++ [Item.set_shopQuantity (JS.Num (2 + 4)) Sample.herbStack].
Proof.
  refine (proj2 (addToInventory_twice_stacks [Sample.breadEntry] Sample.herbStack
                   (Item.construct Sample.herbTemplate (Some (JS.Num 4)) 13) eq_refl _)
            2 4 eq_refl eq_refl eq_refl eq_refl).
  intros obj Hin. apply list_elem_of_singleton in Hin. by rewrite Hin.
Defined.

(** ** Sample runs of the earlier lemmas *)

Lemma buyItem_broadcast_precedes_removal_witness :
  ∃ inventory,
    Game.trace (Shop.buyItem Sample.roomy Sample.bakery Sample.world "u1" 0 "bread").2
    = Game.trace Sample.world
        ++ [UpdateClient "u1";
            DispatchToUser "u1" (GAME_EVENT "success" "You have purchased 1x Bread for 5" []);
            DispatchToRoom "city_3_2" (SHOP_UPDATE "bakery" inventory)]
    ∧ length inventory = length (Sell.list (Shop.sell Sample.bakery))
    ∧ inventory !! Z.to_nat 0
      = Some (Listing.mk "bread" "Bread" (JS.Num 0) JS.Undefined 5).
Proof.
  apply (buyItem_broadcast_precedes_removal Sample.roomy Sample.bakery Sample.world "u1" 0
           "bread" Sample.actor Sample.breadEntry Sample.breadTemplate);
    try reflexivity; [by vm_compute|].
  repeat constructor. by exists Sample.breadTemplate.
Defined.

Lemma pickup_not_found_witness :
  ItemManager.pickup Sample.world "city" 2 3 (Some "sword") JS.Undefined
  = (ItemManager.Message "Item not found", Sample.world).
Proof.
  apply (pickup_not_found_removes_nothing Sample.world "city" 2 3 "s" "word" JS.Undefined).
  - by vm_compute.
  - intros obj Hin.
    assert (obj = Sample.bigKnife) as ->; [|by vm_compute].
    apply list_elem_of_singleton. revert Hin. by vm_compute.
Defined.

Lemma findByName_exact_match_witness :
  ItemManager.findByName [Sample.bigKnife; Blades.knife] "KNIFE" = Some (1%nat, Blades.knife).
Proof.
  apply findByName_exact_match_first; [reflexivity | reflexivity |].
  intros [|j] y Hj Hlt; [|lia]. injection Hj as <-. by vm_compute.
Defined.
